(** * Record listing, pagination and grouping of the Mathesar record API

    A shallow embedding of

    - [mathesar/api/pagination.py]: the limit/offset paginators, and
    - [mathesar/api/db/viewsets/records.py]: [RecordViewSet.list],
      [RecordViewSet.create] and [_rewrite_db_function_specs],

    together with the fixtures of [mathesar/tests/api/test_record_api.py]
    that pin down what the response looks like.

    Python values that reach the view as parsed JSON are kept as a JSON
    tree with Python's truth-value test; exceptions are a sum type; calls
    into collaborators (the table model, the grouping post-processing, the
    column-id rewriting) are recorded in a trace, so that "is invoked" and
    "is passed to" are statements about that trace. *)

From stdpp Require Import base option list sorting gmap strings.
From Stdlib Require Import ZArith Lia.

Local Open Scope string_scope.
Local Open Scope list_scope.
Local Open Scope Z_scope.

(** ** Python data *)

(** Parsed JSON, as [serializers.JSONField] hands it to the view.
    [JNull] is Python's [None]. *)
#[warnings="-register-all"]
Inductive json : Type :=
| JNull
| JBool (b : bool)
| JNum (n : Z)
| JStr (s : string)
| JList (items : list json)
| JDict (entries : list (string * json)).

(** Python's truth-value test, the one [if x:] and [x or y] apply. *)
Definition truthy (x : json) : bool :=
  match x with
  | JNull => false
  | JBool b => b
  | JNum n => negb (n =? 0)
  | JStr s => negb (String.eqb s "")
  | JList items => match items with [] => false | _ => true end
  | JDict entries => match entries with [] => false | _ => true end
  end.

(** A cell of a record. *)
Inductive value : Type :=
| VNull
| VBool (b : bool)
| VInt (n : Z)
| VStr (s : string).

#[global] Instance value_eq_dec : EqDecision value.
Proof. solve_decision. Defined.

(** A record as an ordered mapping from column name to value. *)
Definition row : Type := list (string * value).

(** The group annotation the query attaches to each record when a
    [group_by] is given. *)
Record group_metadata : Type := {
  group_id : Z;
  count : Z;
  first_value : row;
  last_value : row;
}.

(** A record as [Table.get_records] returns it. *)
Record record : Type := {
  data : row;
  metadata : option group_metadata;
}.

(** One entry of the [groups] list of the response. *)
Record group : Type := {
  g_count : Z;
  g_first_value : row;
  g_last_value : row;
  result_indices : list nat;
}.

(** An instance of [db.records.operations.group.GroupBy]: the four
    attributes the paginator reads. An instance has no [__bool__] or
    [__len__], so it is always truthy. *)
Record GroupBy : Type := {
  columns : list string;
  mode : string;
  num_groups : option Z;
  ranged : bool;
}.

(** ** Exceptions *)

(** [e.orig] of an [sqlalchemy.exc.IntegrityError]: the psycopg2 error
    class and the column the message names. *)
Inductive db_error : Type :=
| NotNullViolation (column : string)
| UniqueViolation (column : string)
| ForeignKeyViolation (column : string)
| CheckViolation (column : string).

Inductive api_exception_class : Type :=
| BadFilterAPIException
| BadSortAPIException
| BadGroupAPIException
| NotNullViolationAPIException
| MathesarAPIException.

Inductive exn : Type :=
| BadDBFunctionFormat
| UnknownDBFunctionID
| ReferencedColumnsDontExist
| BadSortFormat
| SortFieldNotFound
| BadGroupFormat
| GroupFieldNotFound
| InvalidGroupType
| IntegrityError (orig : db_error)
| NotFound
| AssertionError
| TypeError
| APIException (cls : api_exception_class) (cause : exn)
    (field : option string) (status_code : Z) (table : option Z).

Definition HTTP_201_CREATED : Z := 201.
Definition HTTP_400_BAD_REQUEST : Z := 400.

Inductive result (A : Type) : Type :=
| Ok (a : A)
| Raise (e : exn).
Arguments Ok {A} a.
Arguments Raise {A} e.

#[global] Instance result_ret : MRet result := λ A a, Ok a.

#[global] Instance result_bind : MBind result := λ A B f r,
  match r with
  | Ok a => f a
  | Raise e => Raise e
  end.

(** ** Calls into collaborators *)

Inductive event : Type :=
| get_table_or_404_called (pk : Z)
| get_dj_column_id_to_name_mapping_called (table_id : Z)
| rewrite_called (column_ids_to_names : gmap Z string) (spec : json)
| GroupBy_called (grouping : json)
| sa_num_records_called (table_id : Z)
    (filter db_function : json) (deduplicate : bool)
| get_records_called (table_id : Z) (limit : option Z) (offset : Z)
    (filter order_by : json) (group_by : option GroupBy)
    (duplicate_only db_function : json) (deduplicate : bool)
| process_annotated_records_called (records : list record)
| create_record_or_records_called (table_id : Z) (data : json).

(** A computation: the calls it made, in order, and how it ended. *)
Record M (A : Type) : Type := mkM {
  trace : list event;
  outcome : result A;
}.
Arguments mkM {A} trace outcome.
Arguments trace {A} m.
Arguments outcome {A} m.

#[global] Instance M_ret : MRet M := λ A a, mkM [] (Ok a).

#[global] Instance M_bind : MBind M := λ A B f m,
  match outcome m with
  | Ok a => mkM (trace m ++ trace (f a)) (outcome (f a))
  | Raise e => mkM (trace m) (Raise e)
  end.

(** A call to a collaborator: log it, then return or raise as it does. *)
Definition call {A : Type} (ev : event) (r : result A) : M A := mkM [ev] r.

Definition raise {A : Type} (e : exn) : M A := mkM [] (Raise e).

(** [try: body except: handler]; the handler here always re-raises. *)
Definition try_except {A : Type} (body : M A) (handler : exn → exn) : M A :=
  match outcome body with
  | Ok a => body
  | Raise e => mkM (trace body) (Raise (handler e))
  end.

(** ** Collaborators that are not part of these sources *)

(** A [mathesar.models.Table]: the methods the views call on it. *)
Record Table : Type := {
  (** [table.id] *)
  Table_id : Z;
  sa_num_records : json → json → bool → result Z;
  (** [limit=None] is no limit *)
  get_records :
    option Z → Z → json → json → option GroupBy → json → json → bool →
    result (list record);
  get_dj_column_id_to_name_mapping : gmap Z string;
  create_record_or_records : json → result row;
}.

Record Env : Type := {
  (** [Table.objects], keyed by primary key *)
  tables : gmap Z Table;
  (** the [GroupBy] constructor applied to the entries of [grouping] *)
  GroupBy_init : json → result GroupBy;
  (** [mathesar.api.utils.process_annotated_records] *)
  process_annotated_records :
    list record → list row * option (list group);
  (** [mathesar.functions.operations.convert] *)
  rewrite_db_function_spec_column_ids_to_names :
    gmap Z string → json → result json;
}.

(** [mathesar.api.utils.get_table_or_404]. *)
Definition get_table_or_404 (env : Env) (pk : Z) : M Table :=
  call (get_table_or_404_called pk)
    (match tables env !! pk with
     | Some t => Ok t
     | None => Raise NotFound
     end).

(** ** [mathesar/api/pagination.py] *)

(** What [int(request.query_params[name])] can do: [KeyError] when the
    parameter is absent, [ValueError] when it is not an integer literal,
    or the integer. *)
Inductive query_param : Type :=
| Absent
| NotAnInteger
| Integer (n : Z).

(** [serializer.validated_data] of [RecordListParameterSerializer]: JSON
    fields, [None] (or the field's default) when the parameter is absent. *)
Record validated_data : Type := {
  vd_filter : json;
  vd_db_function : json;
  vd_deduplicate : bool;
  vd_order_by : json;
  vd_grouping : json;
  vd_duplicate_only : json;
}.

Record Request : Type := {
  query_limit : query_param;
  query_offset : query_param;
  GET : validated_data;
}.

(** The [grouping] entry of the response. *)
Record grouping_dict : Type := {
  gd_columns : list string;
  gd_mode : string;
  gd_num_groups : option Z;
  gd_ranged : bool;
  gd_groups : option (list group);
}.

(** The attributes a paginator instance accumulates ([self.limit], ...);
    [None] before they are assigned. *)
Record paginator : Type := {
  self_limit : option Z;
  self_offset : option Z;
  self_count : option Z;
  self_grouping : option grouping_dict;
}.

Definition new_paginator : paginator :=
  {| self_limit := None; self_offset := None;
     self_count := None; self_grouping := None |}.

(** The body of a list response, an [OrderedDict] of [count], [grouping]
    and [results]. *)
Record Page : Type := {
  page_count : option Z;
  page_grouping : option grouping_dict;
  page_results : list row;
}.

(** The body of the response of a paginator that does not group, an
    [OrderedDict] of [count] and [results]. *)
Record CountedPage (A : Type) : Type := {
  counted_count : option Z;
  counted_results : list A;
}.
Arguments counted_count {A} c.
Arguments counted_results {A} c.

(** A [rest_framework.response.Response]. *)
Record Response (A : Type) : Type := {
  status : Z;
  body : A;
}.
Arguments status {A} r.
Arguments body {A} r.

Module LimitOffsetPagination.

(** Modelled from the spec: the base class
    [rest_framework.pagination.LimitOffsetPagination] is not among the
    sources. Section 4.4 gives [limit] a default and a ceiling and
    [offset] a default of 0 and a floor of 0, "out-of-range values clamp
    rather than error"; the base class does that with [_positive_int],
    which rejects a negative number (and 0 when [strict]) and cuts off at
    [cutoff], and the caller falls back to the default on rejection. *)
Definition _positive_int (p : query_param) (strict : bool)
    (cutoff : option Z) : option Z :=
  match p with
  | Integer ret =>
      if (ret <? 0) || ((ret =? 0) && strict) then None
      else match cutoff with
           | Some c => if negb (c =? 0) then Some (Z.min ret c) else Some ret
           | None => Some ret
           end
  | Absent | NotAnInteger => None
  end.

(** Modelled from the spec: [LimitOffsetPagination.get_limit], not among
    the sources: the limit parameter when it is a positive integer, cut
    off at the ceiling, and the default otherwise (section 4.4). *)
Definition get_limit (default_limit max_limit : option Z)
    (request : Request) : option Z :=
  match _positive_int (query_limit request) true max_limit with
  | Some n => Some n
  | None => default_limit
  end.

(** Modelled from the spec: [LimitOffsetPagination.get_offset], not among
    the sources: the offset parameter when it is a non-negative integer,
    and 0 otherwise (section 4.4). *)
Definition get_offset (request : Request) : Z :=
  match _positive_int (query_offset request) false None with
  | Some n => n
  | None => 0
  end.

End LimitOffsetPagination.

Module DefaultLimitOffsetPagination.

Definition default_limit : option Z := Some 50.
Definition max_limit : option Z := Some 500.

Definition get_limit : Request → option Z :=
  LimitOffsetPagination.get_limit default_limit max_limit.
Definition get_offset : Request → Z := LimitOffsetPagination.get_offset.

(** A [Response] without a status has status 200. *)
Definition get_paginated_response {A : Type} (self : paginator)
    (data : list A) : Response (CountedPage A) :=
  {| status := 200;
     body := {| counted_count := self_count self;
                counted_results := data |} |}.

End DefaultLimitOffsetPagination.

(** Python's [l[start:stop]]: a negative bound counts from the end, and
    both bounds are cut to the length of the list. *)
Definition py_bound (len i : Z) : Z :=
  if i <? 0 then Z.max (i + len) 0 else Z.min i len.

Definition py_slice {A : Type} (l : list A) (start stop : Z) : list A :=
  let len := Z.of_nat (length l) in
  let a := py_bound len start in
  let b := py_bound len stop in
  take (Z.to_nat (b - a)) (drop (Z.to_nat a) l).

Module ColumnLimitOffsetPagination.
Import DefaultLimitOffsetPagination.

(** [table.sa_columns] is an attribute of the table model that the record
    views do not read; it is given as [sa_columns]. [self.limit] is an
    integer here, because [default_limit] is one: the branch for [None],
    where [self.offset + self.limit] would be a [TypeError], is never
    taken. *)
Definition paginate_queryset {Column : Type}
    (sa_columns : Table → list Column) (env : Env) (self : paginator)
    (request : Request) (table_id : Z) : M (list Column * paginator) :=
  let limit := get_limit request in
  let limit := match limit with None => default_limit | Some _ => limit end in
  let offset := get_offset request in
  table ← get_table_or_404 env table_id;
  let count := Z.of_nat (length (sa_columns table)) in
  let self := {| self_limit := limit; self_offset := Some offset;
                 self_count := Some count;
                 self_grouping := self_grouping self |} in
  match limit with
  | Some limit =>
      mret (py_slice (sa_columns table) offset (offset + limit), self)
  | None => raise AssertionError
  end.

End ColumnLimitOffsetPagination.

Module TableLimitOffsetPagination.
Import DefaultLimitOffsetPagination.

(** [queryset] is not used by the method and is left out, and so is
    [self.request], which nothing reads. *)
Definition paginate_queryset (env : Env) (self : paginator)
    (request : Request) (table_id : Z)
    (filter order_by : json) (group_by : option GroupBy)
    (duplicate_only db_function : json) (deduplicate : bool)
    : M (list record * paginator) :=
  let limit := get_limit request in
  let limit := match limit with None => default_limit | Some _ => limit end in
  let offset := get_offset request in
  table ← get_table_or_404 env table_id;
  count ← call (sa_num_records_called (Table_id table) filter db_function
                  deduplicate)
            (sa_num_records table filter db_function deduplicate);
  let self := {| self_limit := limit; self_offset := Some offset;
                 self_count := Some count;
                 self_grouping := self_grouping self |} in
  records ← call (get_records_called (Table_id table) limit offset filter
                    order_by group_by duplicate_only db_function deduplicate)
              (get_records table limit offset filter order_by group_by
                 duplicate_only db_function deduplicate);
  mret (records, self).

End TableLimitOffsetPagination.

Module TableLimitOffsetGroupPagination.

(** A [Response] without a status has status 200. *)
Definition get_paginated_response (self : paginator) (data : list row)
    : Response Page :=
  {| status := 200;
     body := {| page_count := self_count self;
                page_grouping := self_grouping self;
                page_results := data |} |}.

(** The double star of the constructor call unpacks a mapping into keyword
    arguments: for a truthy [grouping] that is not a mapping (a list, a
    string, a number, [True]) it raises [TypeError] before the
    constructor is called. With a mapping the constructor is called on
    its entries; what it raises, the [TypeError] of a keyword it does not
    take included, is for [GroupBy_init] to say. [if records:] is the
    test for a non-empty list, and [if group_by:] the test for an
    instance as opposed to [None]. The attributes of [self] are handed
    back with the records; what stays in [self] when the method raises is
    traced in [Method] below. *)
Definition paginate_queryset (env : Env) (self : paginator)
    (request : Request) (table_id : Z)
    (filter order_by grouping duplicate_only db_function : json)
    (deduplicate : bool)
    : M (option (list row) * paginator) :=
  group_by ← (if truthy grouping
              then match grouping with
                   | JDict _ =>
                       g ← call (GroupBy_called grouping)
                             (GroupBy_init env grouping);
                       mret (Some g)
                   | _ => raise TypeError
                   end
              else mret None);
  '(records, self) ← TableLimitOffsetPagination.paginate_queryset env self
      request table_id filter order_by group_by duplicate_only db_function
      deduplicate;
  '(processed_records, groups) ←
     match records with
     | _ :: _ =>
         '(processed_records, groups) ←
            call (process_annotated_records_called records)
              (Ok (process_annotated_records env records));
         mret (Some processed_records, groups)
     | [] => mret (None, None)
     end;
  let self :=
    match group_by with
    | Some group_by =>
        {| self_limit := self_limit self; self_offset := self_offset self;
           self_count := self_count self;
           self_grouping := Some {|
             gd_columns := columns group_by;
             gd_mode := mode group_by;
             gd_num_groups := num_groups group_by;
             gd_ranged := ranged group_by;
             gd_groups := groups |} |}
    | None =>
        {| self_limit := self_limit self; self_offset := self_offset self;
           self_count := self_count self;
           self_grouping := None |}
    end in
  mret (processed_records, self).

End TableLimitOffsetGroupPagination.

(** *** The attributes of a paginator across a call *)

(** [paginate_queryset] above hands the attributes of [self] back with
    the records it returns. The methods assign them one at a time, and
    an assignment that was made stays when a later step raises. Here a
    method is a function of the attributes of [self]: the calls it made,
    the attributes it leaves behind, and how it ended. *)
Record Run (A : Type) : Type := mkRun {
  made : list event;
  attributes : paginator;
  ended : result A;
}.
Arguments mkRun {A} made attributes ended.
Arguments made {A} r.
Arguments attributes {A} r.
Arguments ended {A} r.

Definition method (A : Type) : Type := paginator → Run A.

#[global] Instance method_ret : MRet method :=
  λ A a self, mkRun [] self (Ok a).

#[global] Instance method_bind : MBind method := λ A B f m self,
  let r := m self in
  match ended r with
  | Ok a =>
      let r' := f a (attributes r) in
      mkRun (made r ++ made r') (attributes r') (ended r')
  | Raise e => mkRun (made r) (attributes r) (Raise e)
  end.

(** [self.attribute = value] *)
Definition assign (set : paginator → paginator) : method unit :=
  λ self, mkRun [] (set self) (Ok ()).

(** A step that leaves [self] alone. *)
Definition perform {A : Type} (m : M A) : method A :=
  λ self, mkRun (trace m) self (outcome m).

Definition set_limit (limit : option Z) (self : paginator) : paginator :=
  {| self_limit := limit; self_offset := self_offset self;
     self_count := self_count self; self_grouping := self_grouping self |}.

Definition set_offset (offset : Z) (self : paginator) : paginator :=
  {| self_limit := self_limit self; self_offset := Some offset;
     self_count := self_count self; self_grouping := self_grouping self |}.

Definition set_count (count : Z) (self : paginator) : paginator :=
  {| self_limit := self_limit self; self_offset := self_offset self;
     self_count := Some count; self_grouping := self_grouping self |}.

Definition set_grouping (grouping : option grouping_dict) (self : paginator)
    : paginator :=
  {| self_limit := self_limit self; self_offset := self_offset self;
     self_count := self_count self; self_grouping := grouping |}.

Module Method.

Module TableLimitOffsetPagination.
Import DefaultLimitOffsetPagination.

(** The statements of the method in their order: the limit and the
    offset are assigned before the table is looked up, the count after
    the count query has answered. *)
Definition paginate_queryset (env : Env) (request : Request) (table_id : Z)
    (filter order_by : json) (group_by : option GroupBy)
    (duplicate_only db_function : json) (deduplicate : bool)
    : method (list record) :=
  let limit := get_limit request in
  _ ← assign (set_limit limit);
  let limit := match limit with None => default_limit | Some _ => limit end in
  _ ← assign (set_limit limit);
  let offset := get_offset request in
  _ ← assign (set_offset offset);
  table ← perform (get_table_or_404 env table_id);
  count ← perform (call (sa_num_records_called (Table_id table) filter
                           db_function deduplicate)
                     (sa_num_records table filter db_function deduplicate));
  _ ← assign (set_count count);
  perform (call (get_records_called (Table_id table) limit offset filter
                   order_by group_by duplicate_only db_function deduplicate)
             (get_records table limit offset filter order_by group_by
                duplicate_only db_function deduplicate)).

End TableLimitOffsetPagination.

Module TableLimitOffsetGroupPagination.

(** [self.grouping] is assigned last, after the call of the method it
    overrides and after the post-processing. *)
Definition paginate_queryset (env : Env) (request : Request) (table_id : Z)
    (filter order_by grouping duplicate_only db_function : json)
    (deduplicate : bool) : method (option (list row)) :=
  group_by ← perform (if truthy grouping
                      then match grouping with
                           | JDict _ =>
                               g ← call (GroupBy_called grouping)
                                     (GroupBy_init env grouping);
                               mret (Some g)
                           | _ => raise TypeError
                           end
                      else mret None);
  records ← TableLimitOffsetPagination.paginate_queryset env request
              table_id filter order_by group_by duplicate_only db_function
              deduplicate;
  '(processed_records, groups) ←
     perform (match records with
              | _ :: _ =>
                  '(processed_records, groups) ←
                     call (process_annotated_records_called records)
                       (Ok (process_annotated_records env records));
                  mret (Some processed_records, groups)
              | [] => mret (None, None)
              end);
  _ ← assign (set_grouping
                match group_by with
                | Some group_by =>
                    Some {| gd_columns := columns group_by;
                            gd_mode := mode group_by;
                            gd_num_groups := num_groups group_by;
                            gd_ranged := ranged group_by;
                            gd_groups := groups |}
                | None => None
                end);
  mret processed_records.

End TableLimitOffsetGroupPagination.

End Method.

(** ** [mathesar/api/db/viewsets/records.py] *)

Definition _rewrite_db_function_specs (env : Env) (table_pk : Z)
    (filter_unprocessed db_function_unprocessed : json) : M (json * json) :=
  if truthy filter_unprocessed || truthy db_function_unprocessed then
    table ← get_table_or_404 env table_pk;
    column_ids_to_names ←
      call (get_dj_column_id_to_name_mapping_called (Table_id table))
        (Ok (get_dj_column_id_to_name_mapping table));
    filter_processed ←
      (if truthy filter_unprocessed
       then call (rewrite_called column_ids_to_names filter_unprocessed)
              (rewrite_db_function_spec_column_ids_to_names env
                 column_ids_to_names filter_unprocessed)
       else mret JNull);
    db_function_processed ←
      (if truthy db_function_unprocessed
       then call (rewrite_called column_ids_to_names db_function_unprocessed)
              (rewrite_db_function_spec_column_ids_to_names env
                 column_ids_to_names db_function_unprocessed)
       else mret JNull);
    mret (filter_processed, db_function_processed)
  else mret (JNull, JNull).

(** Modelled from the spec: [RecordSerializer] (in
    [mathesar/api/serializers/records.py]) is not among the sources;
    section 1 puts "the presentation/serialization of individual field
    values" out of scope, so a record is rendered as it is, and a list
    serializer without an instance renders the empty list. *)
Definition RecordSerializer_many (records : option (list row)) : list row :=
  match records with
  | Some rows => rows
  | None => []
  end.

(** *** Calls of the views that read or write one record *)

(** [retrieve], [partial_update] and [destroy] call three more methods of
    the table model. *)
Record RecordOps : Type := {
  (** [table.get_record(pk)]: the record, or [None] *)
  get_record : Z → result (option row);
  (** [table.update_record(pk, data)] *)
  update_record : Z → json → result row;
  (** [table.delete_record(pk)] *)
  delete_record : Z → result unit;
}.

Inductive view_event : Type :=
| table_event (ev : event)
| get_record_called (table_id : Z) (pk : Z)
| update_record_called (table_id : Z) (pk : Z) (data : json)
| delete_record_called (table_id : Z) (pk : Z).

(** A computation of such a view: its calls, in order, and how it ended. *)
Record V (A : Type) : Type := mkV {
  calls : list view_event;
  ending : result A;
}.
Arguments mkV {A} calls ending.
Arguments calls {A} v.
Arguments ending {A} v.

#[global] Instance V_ret : MRet V := λ A a, mkV [] (Ok a).

#[global] Instance V_bind : MBind V := λ A B f v,
  match ending v with
  | Ok a => mkV (calls v ++ calls (f a)) (ending (f a))
  | Raise e => mkV (calls v) (Raise e)
  end.

Definition lift {A : Type} (m : M A) : V A :=
  mkV (table_event <$> trace m) (outcome m).

Definition invoke {A : Type} (ev : view_event) (r : result A) : V A :=
  mkV [ev] r.

Definition HTTP_200_OK : Z := 200.
Definition HTTP_204_NO_CONTENT : Z := 204.

Module RecordViewSet.

(** The three [except] clauses of [list], in order; any other exception
    propagates unchanged. *)
Definition list_except (e : exn) : exn :=
  match e with
  | BadDBFunctionFormat | UnknownDBFunctionID | ReferencedColumnsDontExist =>
      APIException BadFilterAPIException e (Some "filters")
        HTTP_400_BAD_REQUEST None
  | BadSortFormat | SortFieldNotFound =>
      APIException BadSortAPIException e (Some "order_by")
        HTTP_400_BAD_REQUEST None
  | BadGroupFormat | GroupFieldNotFound | InvalidGroupType =>
      APIException BadGroupAPIException e (Some "grouping")
        HTTP_400_BAD_REQUEST None
  | _ => e
  end.

(** The [except IntegrityError] clause of [create]. *)
Definition create_except (table : Table) (e : exn) : exn :=
  match e with
  | IntegrityError orig =>
      match orig with
      | NotNullViolation _ =>
          APIException NotNullViolationAPIException e None
            HTTP_400_BAD_REQUEST (Some (Table_id table))
      | _ =>
          APIException MathesarAPIException e None
            HTTP_400_BAD_REQUEST None
      end
  | _ => e
  end.

Definition create (env : Env) (request_data : json) (table_pk : Z)
    : M (Response row) :=
  table ← get_table_or_404 env table_pk;
  _ ← (match request_data with
       | JDict _ => mret ()
       | _ => raise AssertionError
       end);
  record ← try_except
    (call (create_record_or_records_called (Table_id table) request_data)
       (create_record_or_records table request_data))
    (create_except table);
  mret {| status := HTTP_201_CREATED; body := record |}.

(** [if not record:] holds of [None] and of a record without cells. A
    single record is rendered as it is, as in [RecordSerializer_many]. *)
Definition retrieve (ops : Table → RecordOps) (env : Env) (pk table_pk : Z)
    : V (Response row) :=
  table ← lift (get_table_or_404 env table_pk);
  record ← invoke (get_record_called (Table_id table) pk)
             (get_record (ops table) pk);
  match record with
  | Some (cell :: cells) =>
      mret {| status := HTTP_200_OK; body := cell :: cells |}
  | Some [] | None => mkV [] (Raise NotFound)
  end.

Definition partial_update (ops : Table → RecordOps) (env : Env)
    (request_data : json) (pk table_pk : Z) : V (Response row) :=
  table ← lift (get_table_or_404 env table_pk);
  record ← invoke (update_record_called (Table_id table) pk request_data)
             (update_record (ops table) pk request_data);
  mret {| status := HTTP_200_OK; body := record |}.

Definition destroy (ops : Table → RecordOps) (env : Env) (pk table_pk : Z)
    : V (Response unit) :=
  table ← lift (get_table_or_404 env table_pk);
  _ ← invoke (delete_record_called (Table_id table) pk)
        (delete_record (ops table) pk);
  mret {| status := HTTP_204_NO_CONTENT; body := () |}.

(** [request.GET] is taken after [serializer.is_valid]: the request
    carries the validated data. *)
Definition list (env : Env) (request : Request) (table_pk : Z)
    : M (Response Page) :=
  let paginator := new_paginator in
  let filter_unprocessed := vd_filter (GET request) in
  let db_function_unprocessed := vd_db_function (GET request) in
  '(records, paginator) ← try_except
    ('(filter_processed, db_function_processed) ←
        _rewrite_db_function_specs env table_pk
          filter_unprocessed db_function_unprocessed;
     TableLimitOffsetGroupPagination.paginate_queryset env paginator
       request table_pk
       filter_processed
       (vd_order_by (GET request))
       (vd_grouping (GET request))
       (vd_duplicate_only (GET request))
       db_function_processed
       (vd_deduplicate (GET request)))
    list_except;
  mret (TableLimitOffsetGroupPagination.get_paginated_response paginator
          (RecordSerializer_many records)).

End RecordViewSet.

(** ** [mathesar/tests/api/test_record_api.py] *)

(** A [models.Column]: the attributes the tests read. *)
Record dj_column : Type := {
  col_id : Z;
  col_name : string;
}.

#[global] Instance dj_column_eq_dec : EqDecision dj_column.
Proof. solve_decision. Defined.

(** The [KeyError] of a dictionary lookup, with the missing key. *)
Inductive key_error : Type :=
| KeyError (key : string).

(** The dictionary comprehension: columns are entered in turn under their
    name, those whose name is not asked for are skipped, and a later
    column replaces an earlier one of the same name. *)
Definition columns_by_name_dict (table_columns : list dj_column)
    (name_list : list string) : gmap string dj_column :=
  foldl (λ d col, if bool_decide (col_name col ∈ name_list)
                  then <[col_name col := col]> d else d)
    ∅ table_columns.

(** The list comprehension: the first missing name raises. *)
Fixpoint lookup_all (d : gmap string dj_column) (name_list : list string)
    : key_error + list dj_column :=
  match name_list with
  | [] => inr []
  | name :: name_list' =>
      match d !! name with
      | None => inl (KeyError name)
      | Some col =>
          match lookup_all d name_list' with
          | inl e => inl e
          | inr cols => inr (col :: cols)
          end
      end
  end.

(** [table_columns] is [models.Column.objects.filter(table=table)]. *)
Definition _get_columns_by_name (table_columns : list dj_column)
    (name_list : list string) : key_error + list dj_column :=
  lookup_all (columns_by_name_dict table_columns name_list) name_list.

(** ** A table model for the collaborators *)

(** The views run against any [Env]. This module gives one, built from the
    rows a table holds, for the code of the repository that is not among
    the sources: the function language, the query that selects, orders,
    annotates and windows, the grouping post-processing and the write. *)

Module Model.

(** *** The function language *)

Definition value_of_json (j : json) : option value :=
  match j with
  | JNull => Some VNull
  | JBool b => Some (VBool b)
  | JNum n => Some (VInt n)
  | JStr s => Some (VStr s)
  | JList _ | JDict _ => None
  end.

(** [row[name]] *)
Fixpoint get_column (name : string) (r : row) : option value :=
  match r with
  | [] => None
  | (k, v) :: r' => if String.eqb name k then Some v else get_column name r'
  end.

Fixpoint sequence {A : Type} (l : list (result A)) : result (list A) :=
  match l with
  | [] => Ok []
  | Ok a :: l' =>
      match sequence l' with
      | Ok l'' => Ok (a :: l'')
      | Raise e => Raise e
      end
  | Raise e :: _ => Raise e
  end.

(** Modelled from the spec: the registry of operators of [db/functions]
    is not among the sources. Section 3 names equality, negation, boolean
    and/or, the emptiness test and the identity; they follow the storage
    engine's
    three-valued logic on [VNull] (test_filter_with_added_columns counts
    two rows for [not (equal (column, true))] where one cell is null). *)
Definition apply_db_function (op : string) (args : list value)
    : result value :=
  match op, args with
  | "equal", [a; b] =>
      match a, b with
      | VNull, _ | _, VNull => Ok VNull
      | _, _ => Ok (VBool (bool_decide (a = b)))
      end
  | "not", [a] =>
      match a with
      | VBool b => Ok (VBool (negb b))
      | VNull => Ok VNull
      | _ => Raise BadDBFunctionFormat
      end
  | "and", [a; b] =>
      match a, b with
      | VBool false, (VBool _ | VNull) | VNull, VBool false => Ok (VBool false)
      | VBool true, VBool true => Ok (VBool true)
      | VBool true, VNull | VNull, VBool true | VNull, VNull => Ok VNull
      | _, _ => Raise BadDBFunctionFormat
      end
  | "or", [a; b] =>
      match a, b with
      | VBool true, (VBool _ | VNull) | VNull, VBool true => Ok (VBool true)
      | VBool false, VBool false => Ok (VBool false)
      | VBool false, VNull | VNull, VBool false | VNull, VNull => Ok VNull
      | _, _ => Raise BadDBFunctionFormat
      end
  | "empty", [a] => Ok (VBool (bool_decide (a = VNull)))
  | "identity", [a] => Ok a
  | ("equal" | "not" | "and" | "or" | "empty" | "identity"), _ =>
      Raise BadDBFunctionFormat
  | _, _ => Raise UnknownDBFunctionID
  end.

(** Modelled from the spec: the function language of [db/functions] is
    not among the sources. Section 3 has a node be a literal, a column
    reference or a call of a registered operator on ordered arguments;
    the JSON form is the one of the test fixtures, a one-entry object
    from the operator id to the parameter list. An unknown id is
    [UnknownDBFunctionID], a column the row lacks is
    [ReferencedColumnsDontExist], any other shape is
    [BadDBFunctionFormat]. *)
Fixpoint eval (spec : json) (r : row) {struct spec} : result value :=
  match spec with
  | JDict [(op, JList parameters)] =>
      if String.eqb op "literal" then
        match parameters with
        | [p] => match value_of_json p with
                 | Some v => Ok v
                 | None => Raise BadDBFunctionFormat
                 end
        | _ => Raise BadDBFunctionFormat
        end
      else if String.eqb op "column_name" then
        match parameters with
        | [JStr name] => match get_column name r with
                         | Some v => Ok v
                         | None => Raise ReferencedColumnsDontExist
                         end
        | _ => Raise BadDBFunctionFormat
        end
      else
        match sequence (map (λ p, eval p r) parameters) with
        | Ok args => apply_db_function op args
        | Raise e => Raise e
        end
  | JDict _ | JList _ => Raise BadDBFunctionFormat
  | JNull => Ok VNull
  | JBool b => Ok (VBool b)
  | JNum n => Ok (VInt n)
  | JStr s => Ok (VStr s)
  end.

(** Modelled from the spec: [rewrite_db_function_spec_column_ids_to_names]
    (in [mathesar/functions/operations/convert.py]) is not among the
    sources. Section 4.1: every column reference holding an external
    identifier is replaced by one holding the resolved name, every other
    node is copied unchanged, and an identifier absent from the mapping
    is an error (section 7 lists it with [ReferencedColumnsDontExist]). *)
Fixpoint rewrite (column_ids_to_names : gmap Z string) (spec : json)
    {struct spec} : result json :=
  match spec with
  | JDict [(op, JList parameters)] =>
      if String.eqb op "column_id" then
        match parameters with
        | [JNum column_id] =>
            match column_ids_to_names !! column_id with
            | Some name => Ok (JDict [("column_name", JList [JStr name])])
            | None => Raise ReferencedColumnsDontExist
            end
        | _ => Raise BadDBFunctionFormat
        end
      else
        match sequence (map (rewrite column_ids_to_names) parameters) with
        | Ok parameters' => Ok (JDict [(op, JList parameters')])
        | Raise e => Raise e
        end
  | _ => Ok spec
  end.

(** The number of arguments the registry fixes for an operator. *)
Definition arity (op : string) : option nat :=
  match op with
  | "equal" | "and" | "or" => Some 2%nat
  | "not" | "empty" | "identity" => Some 1%nat
  | _ => None
  end.

(** Modelled from the spec: the validation of a function specification
    (in [db/functions]) is not among the sources. Section 4.2, first item:
    operator ids are looked up in the registry, parameter counts are
    compared with it, and column references with the table's columns,
    before any row is read. *)
Fixpoint check (column_names : list string) (spec : json) {struct spec}
    : result unit :=
  match spec with
  | JDict [(op, JList parameters)] =>
      if String.eqb op "literal" then
        match parameters with
        | [p] => match value_of_json p with
                 | Some _ => Ok ()
                 | None => Raise BadDBFunctionFormat
                 end
        | _ => Raise BadDBFunctionFormat
        end
      else if String.eqb op "column_name" then
        match parameters with
        | [JStr name] =>
            if bool_decide (name ∈ column_names) then Ok ()
            else Raise ReferencedColumnsDontExist
        | _ => Raise BadDBFunctionFormat
        end
      else
        match arity op with
        | None => Raise UnknownDBFunctionID
        | Some n =>
            if bool_decide (length parameters = n) then
              match sequence (map (check column_names) parameters) with
              | Ok _ => Ok ()
              | Raise e => Raise e
              end
            else Raise BadDBFunctionFormat
        end
  | JDict _ | JList _ => Raise BadDBFunctionFormat
  | _ => Ok ()
  end.

(** *** Tables *)

Record column : Type := {
  c_id : Z;
  c_name : string;
  c_nullable : bool;
  c_unique : bool;
}.

(** The state of one table in the storage engine. Section 9 leaves the
    bucket boundaries of percentile grouping open, so the engine's
    assignment of a record to its bucket is part of the table: from the
    grouped columns, the number of groups and the records grouped, the
    annotation of one record (or [InvalidGroupType]). *)
Record table_data : Type := {
  t_id : Z;
  t_columns : list column;
  t_rows : list row;
  (** the count that the query reports under distinct grouping for the
      group of a row, given the grouped columns and the rows the query
      selected *)
  t_distinct_count : list string → list row → row → Z;
  t_percentile :
    list string → option Z → list row → row → result group_metadata;
}.

Definition column_names (t : table_data) : list string :=
  map c_name (t_columns t).

(** The label of the column a standalone function produces. *)
Definition db_function_column : string := "db_function".

Definition satisfies (spec : json) (r : row) : result bool :=
  v ← eval spec r;
  mret (bool_decide (v = VBool true)).

Fixpoint filter_rows (spec : json) (rows : list row) : result (list row) :=
  match rows with
  | [] => Ok []
  | r :: rows' =>
      keep ← satisfies spec r;
      rest ← filter_rows spec rows';
      mret (if keep : bool then r :: rest else rest)
  end.

Definition apply_filter (t : table_data) (spec : json) (rows : list row)
    : result (list row) :=
  match spec with
  | JNull => Ok rows
  | _ => _ ← check (column_names t) spec; filter_rows spec rows
  end.

Definition apply_db_function_spec (t : table_data) (spec : json)
    (rows : list row) : result (list row) :=
  match spec with
  | JNull => Ok rows
  | _ =>
      _ ← check (column_names t) spec;
      sequence (map (λ r, v ← eval spec r;
                          mret [(db_function_column, v)]) rows)
  end.

(** Modelled from the spec: deduplication is part of the query, which is
    not among the sources. Section 4.2: rows identical across all columns
    collapse into one representative row, here the first of them. *)
Fixpoint dedupe (rows : list row) : list row :=
  match rows with
  | [] => []
  | r :: rows' =>
      r :: List.filter (λ r', negb (bool_decide (r' = r))) (dedupe rows')
  end.

(** The rows a specification selects, before any window: filter, then
    function, then deduplication (section 4.2). *)
Definition selected (t : table_data) (filter db_function : json)
    (deduplicate : bool) : result (list row) :=
  rows ← apply_filter t filter (t_rows t);
  rows ← apply_db_function_spec t db_function rows;
  mret (if deduplicate then dedupe rows else rows).

(** Modelled from the spec: [Table.sa_num_records] (in
    [mathesar/models.py]) is not among the sources. Section 4.2: the
    total count reflects filter, function and deduplication but not the
    window; it is exact. *)
Definition sa_num_records (t : table_data) (filter db_function : json)
    (deduplicate : bool) : result Z :=
  rows ← selected t filter db_function deduplicate;
  mret (Z.of_nat (length rows)).

(** *** Duplicate-only restriction *)

Fixpoint string_list (items : list json) : option (list string) :=
  match items with
  | [] => Some []
  | JStr c :: items' => cs ← string_list items'; Some (c :: cs)
  | _ :: _ => None
  end.

(** The tuple of a row's values on some columns. *)
Definition key_of (cols : list string) (r : row) : list (option value) :=
  map (λ c, get_column c r) cols.

Definition occurrences (k : list (option value))
    (keys : list (list (option value))) : nat :=
  length (List.filter (λ k', bool_decide (k' = k)) keys).

(** Modelled from the spec: the duplicate-only restriction is part of the
    query, which is not among the sources. Section 4.2: only rows whose
    tuple of values on [cols] is not unique among [rows] are kept. *)
Definition duplicates_only (cols : list string) (rows : list row)
    : list row :=
  let keys := map (key_of cols) rows in
  List.filter (λ r, bool_decide (2 ≤ occurrences (key_of cols r) keys)%nat)
    rows.

Definition apply_duplicate_only (duplicate_only : json) (rows : list row)
    : list row :=
  match duplicate_only with
  | JList items =>
      match string_list items with
      | Some (c :: cs) => duplicates_only (c :: cs) rows
      | _ => rows
      end
  | _ => rows
  end.

(** *** Ordering *)

Definition value_compare (a b : value) : comparison :=
  match a, b with
  | VBool x, VBool y => Bool.compare x y
  | VInt x, VInt y => Z.compare x y
  | VStr x, VStr y => String.compare x y
  | VNull, VNull => Eq
  | VBool _, _ => Lt
  | _, VBool _ => Gt
  | VInt _, _ => Lt
  | _, VInt _ => Gt
  | VStr _, _ => Lt
  | _, VStr _ => Gt
  end.

(** One sort directive: the field and whether the direction is [desc]. *)
Definition directive : Type := string * bool.

Fixpoint dict_get (key : string) (entries : list (string * json))
    : option json :=
  match entries with
  | [] => None
  | (k, v) :: entries' =>
      if String.eqb key k then Some v else dict_get key entries'
  end.

Definition parse_directive (column_names : list string) (item : json)
    : result directive :=
  match item with
  | JDict entries =>
      match dict_get "field" entries, dict_get "direction" entries with
      | Some (JStr field), Some (JStr direction) =>
          if bool_decide (field ∈ column_names) then
            if String.eqb direction "asc" then Ok (field, false)
            else if String.eqb direction "desc" then Ok (field, true)
            else Raise BadSortFormat
          else Raise SortFieldNotFound
      | _, _ => Raise BadSortFormat
      end
  | _ => Raise BadSortFormat
  end.

Definition parse_order_by (column_names : list string) (order_by : json)
    : result (list directive) :=
  match order_by with
  | JList items => sequence (map (parse_directive column_names) items)
  | JNull => Ok []
  | _ => Raise BadSortFormat
  end.

Definition option_compare (a b : option value) : comparison :=
  match a, b with
  | Some x, Some y => value_compare x y
  | Some _, None => Lt
  | None, Some _ => Gt
  | None, None => Eq
  end.

(** Multi-key comparison: the first directive that tells two rows apart
    decides. *)
Fixpoint row_compare (directives : list directive) (r1 r2 : row)
    : comparison :=
  match directives with
  | [] => Eq
  | (field, descending) :: directives' =>
      let c := option_compare (get_column field r1) (get_column field r2) in
      match (if descending : bool then CompOpp c else c) with
      | Eq => row_compare directives' r1 r2
      | c' => c'
      end
  end.

Definition record_le (directives : list directive) (r1 r2 : record) : Prop :=
  row_compare directives (data r1) (data r2) ≠ Gt.

#[global] Instance record_le_dec directives r1 r2 :
  Decision (record_le directives r1 r2).
Proof. unfold record_le. apply _. Defined.

(** Modelled from the spec: ordering is part of the query, which is not
    among the sources. Section 3: a stable multi-key sort. A record goes in
    front of the first one it does not exceed, so records that compare
    equal keep their order. *)
Fixpoint insert_record (directives : list directive) (r : record)
    (sorted : list record) : list record :=
  match sorted with
  | [] => [r]
  | r' :: sorted' =>
      if decide (record_le directives r r') then r :: sorted
      else r' :: insert_record directives r sorted'
  end.

Fixpoint sort_records (directives : list directive)
    (records : list record) : list record :=
  match records with
  | [] => []
  | r :: records' =>
      insert_record directives r (sort_records directives records')
  end.

(** *** Group annotation *)

(** Position of the first occurrence. *)
Fixpoint index_of (k : list (option value))
    (keys : list (list (option value))) : nat :=
  match keys with
  | [] => 0
  | k' :: keys' => if bool_decide (k = k') then 0 else S (index_of k keys')
  end.

Definition project (cols : list string) (r : row) : row :=
  flat_map (λ c, match get_column c r with
                 | Some v => [(c, v)]
                 | None => []
                 end) cols.

(** Modelled from the spec: the group annotation is part of the query,
    which is not among the sources. Section 4.3, distinct mode: the group
    of [r] is its tuple of values on [cols], and first and last value are
    that tuple. Groups are numbered by the position of the first row that
    has the tuple. What the count of a group counts is not settled by
    what is at hand: section 4.4 calls the group statistics page-local,
    and the fixtures of test_record_list_groups expect counts of 87, 138
    and 21 for groups with 1, 98 and 1 positions in a page of 100. The
    count is therefore what the table reports, [t_distinct_count]. *)
Definition distinct_metadata (t : table_data) (cols : list string)
    (rows : list row) (r : row) : group_metadata :=
  let keys := map (key_of cols) rows in
  {| group_id := Z.of_nat (index_of (key_of cols r) keys) + 1;
     count := t_distinct_count t cols rows r;
     first_value := project cols r;
     last_value := project cols r |}.

Definition annotate (t : table_data) (group_by : option GroupBy)
    (rows : list row) : result (list record) :=
  match group_by with
  | None => Ok (map (λ r, {| data := r; metadata := None |}) rows)
  | Some group_by =>
      if forallb (λ c, bool_decide (c ∈ column_names t)) (columns group_by)
      then
        if String.eqb (mode group_by) "distinct" then
          Ok (map (λ r, {| data := r;
                           metadata := Some (distinct_metadata t
                                               (columns group_by) rows r) |})
                rows)
        else
          sequence
            (map (λ r, m ← t_percentile t (columns group_by)
                             (num_groups group_by) rows r;
                       mret {| data := r; metadata := Some m |}) rows)
      else Raise GroupFieldNotFound
  end.

(** *** Window *)

(** Modelled from the spec: limit and offset are part of the query, which
    is not among the sources. Section 4.2: they apply last; no limit is
    the whole rest. (The paginator passes a limit of at least 1 and an
    offset of at least 0.) *)
Definition window {A : Type} (limit : option Z) (offset : Z) (l : list A)
    : list A :=
  let l := drop (Z.to_nat offset) l in
  match limit with
  | Some n => take (Z.to_nat n) l
  | None => l
  end.

(** Modelled from the spec: [Table.get_records] (in [mathesar/models.py],
    over [db/records/operations/select.py]) is not among the sources.
    Section 4.2: one query that filters, applies the function,
    deduplicates, restricts to duplicates when [duplicate_only] names
    columns, orders, and applies limit and offset last. With a [group_by]
    every record carries its group annotation, the same for all records
    of a group; the count in it is the table's (see
    [distinct_metadata]). *)
Definition get_records (t : table_data) (limit : option Z) (offset : Z)
    (filter order_by : json) (group_by : option GroupBy)
    (duplicate_only db_function : json) (deduplicate : bool)
    : result (list record) :=
  rows ← selected t filter db_function deduplicate;
  directives ← parse_order_by (column_names t) order_by;
  records ← annotate t group_by (apply_duplicate_only duplicate_only rows);
  mret (window limit offset (sort_records directives records)).

(** *** Grouping *)

(** The parameters of the constructor: the fields of the Group
    Specification of section 3. *)
Definition GroupBy_parameters : list string :=
  ["columns"; "mode"; "num_groups"].

(** Modelled from the spec: the [GroupBy] class (in
    [db/records/operations/group.py]) is not among the sources.
    Section 3: a non-empty ordered sequence of columns, a mode that is
    [distinct] (the default) or [percentile], and a number of groups
    that percentile mode needs (5 when absent); section 4.3: a
    structurally invalid specification is [BadGroupFormat], and [ranged]
    is true for percentile mode only. The entries of [grouping] arrive
    as keyword arguments, which Python binds before the constructor
    runs: a keyword that is no parameter, or no [columns], is a
    [TypeError]. *)
Definition GroupBy_init (grouping : json) : result GroupBy :=
  match grouping with
  | JDict entries =>
      if negb (forallb (λ entry, bool_decide (entry.1 ∈ GroupBy_parameters))
                 entries)
      then Raise TypeError else
      match dict_get "columns" entries with
      | None => Raise TypeError
      | Some (JList items) =>
          match string_list items with
          | Some (c :: cs) =>
              group_mode ←
                match dict_get "mode" entries with
                | None => Ok "distinct"
                | Some (JStr m) =>
                    if String.eqb m "distinct" || String.eqb m "percentile"
                    then Ok m else Raise BadGroupFormat
                | Some _ => Raise BadGroupFormat
                end;
              n ←
                match dict_get "num_groups" entries with
                | None =>
                    Ok (if String.eqb group_mode "percentile"
                        then Some 5 else None)
                | Some (JNum n) =>
                    if 0 <? n then Ok (Some n) else Raise BadGroupFormat
                | Some _ => Raise BadGroupFormat
                end;
              mret {| columns := c :: cs;
                      mode := group_mode;
                      num_groups := n;
                      ranged := negb (String.eqb group_mode "distinct") |}
          | _ => Raise BadGroupFormat
          end
      | Some _ => Raise BadGroupFormat
      end
  | _ => Raise TypeError
  end.

Definition new_group (m : group_metadata) (i : nat) : group :=
  {| g_count := count m;
     g_first_value := first_value m;
     g_last_value := last_value m;
     result_indices := [i] |}.

Definition add_index (g : group) (i : nat) : group :=
  {| g_count := g_count g;
     g_first_value := g_first_value g;
     g_last_value := g_last_value g;
     result_indices := result_indices g ++ [i] |}.

(** The lookup from group to its entry, kept in order of first
    appearance. *)
Fixpoint add_to_groups (m : group_metadata) (i : nat)
    (groups : list (Z * group)) : list (Z * group) :=
  match groups with
  | [] => [(group_id m, new_group m i)]
  | (gid, g) :: groups' =>
      if bool_decide (gid = group_id m)
      then (gid, add_index g i) :: groups'
      else (gid, g) :: add_to_groups m i groups'
  end.

(** The single pass over the page, [i] being the position of the head
    of [records]. *)
Fixpoint collect_groups (i : nat) (records : list record)
    (groups : list (Z * group)) : list (Z * group) :=
  match records with
  | [] => groups
  | r :: records' =>
      collect_groups (S i) records'
        (match metadata r with
         | Some m => add_to_groups m i groups
         | None => groups
         end)
  end.

(** Modelled from the spec: [process_annotated_records] (in
    [mathesar/api/utils.py]) is not among the sources. Section 4.3: the
    rows come back unchanged (without their annotation) next to the
    groups; records are assigned to groups in a single pass with a
    lookup, in the order each group first appears; [result_indices]
    lists the positions in the page, ascending. Without annotations
    there are no groups. *)
Definition process_annotated_records (records : list record)
    : list row * option (list group) :=
  (map data records,
   if existsb (λ r, bool_decide (is_Some (metadata r))) records
   then Some (map snd (collect_groups 0 records []))
   else None).

(** *** Writing *)

Definition column_values (name : string) (rows : list row) : list value :=
  flat_map (λ r, match get_column name r with
                 | Some v => [v]
                 | None => []
                 end) rows.

(** The cells of the new record, column by column, or the constraint
    that refuses it. *)
Fixpoint build_record (cols : list column) (rows : list row)
    (entries : list (string * json)) : result row :=
  match cols with
  | [] => Ok []
  | c :: cols' =>
      let v := match dict_get (c_name c) entries with
               | Some j => default VNull (value_of_json j)
               | None => VNull
               end in
      if bool_decide (v = VNull) && negb (c_nullable c)
      then Raise (IntegrityError (NotNullViolation (c_name c)))
      else if c_unique c && negb (bool_decide (v = VNull))
              && bool_decide (v ∈ column_values (c_name c) rows)
      then Raise (IntegrityError (UniqueViolation (c_name c)))
      else rest ← build_record cols' rows entries;
           mret ((c_name c, v) :: rest)
  end.

(** Modelled from the spec: [Table.create_record_or_records] (in
    [mathesar/models.py]) is not among the sources. Section 7: a write
    that violates a column constraint fails in the storage engine with
    an error naming the column; the view passes a single record. *)
Definition create_record_or_records (t : table_data) (record_data : json)
    : result row :=
  match record_data with
  | JDict entries => build_record (t_columns t) (t_rows t) entries
  | _ => Raise AssertionError
  end.

(** *** The collaborators over a set of tables *)

Definition table (t : table_data) : Table :=
  Build_Table (t_id t) (sa_num_records t) (get_records t)
    (list_to_map (map (λ c, (c_id c, c_name c)) (t_columns t)))
    (create_record_or_records t).

Definition env (ts : list table_data) : Env :=
  Build_Env (list_to_map (map (λ t, (t_id t, table t)) ts))
    GroupBy_init process_annotated_records rewrite.

End Model.

(** ** Fixtures *)

Module Fixtures.

(** No percentile buckets are set up on the fixture tables. *)
Definition no_percentile
    : list string → option Z → list row → row → result group_metadata :=
  λ _ _ _ _, Raise InvalidGroupType.

(** The fixture tables report, as the count of a group, the number of
    selected rows with the tuple of the group. *)
Definition rows_of_the_group : list string → list row → row → Z :=
  λ cols rows r,
    Z.of_nat (Model.occurrences (Model.key_of cols r)
                (map (Model.key_of cols) rows)).

(** Three records whose [Center] is Kennedy, Ames, Ames (section 8). *)
Definition centers : Model.table_data :=
  {| Model.t_id := 1;
     Model.t_columns :=
       [ {| Model.c_id := 10; Model.c_name := "id";
            Model.c_nullable := false; Model.c_unique := true |};
         {| Model.c_id := 11; Model.c_name := "Center";
            Model.c_nullable := true; Model.c_unique := false |} ];
     Model.t_rows :=
       [ [("id", VInt 1); ("Center", VStr "Kennedy")];
         [("id", VInt 2); ("Center", VStr "Ames")];
         [("id", VInt 3); ("Center", VStr "Ames")] ];
     Model.t_distinct_count := rows_of_the_group;
     Model.t_percentile := no_percentile |}.

Definition env : Env := Model.env [centers].

Definition by_center : json := JDict [("columns", JList [JStr "Center"])].

Definition center_is (name : string) : json :=
  JDict [("equal", JList [JDict [("column_id", JList [JNum 11])];
                          JDict [("literal", JList [JStr name])]])].

Definition params (filter grouping duplicate_only : json) : validated_data :=
  {| vd_filter := filter; vd_db_function := JNull; vd_deduplicate := false;
     vd_order_by := JList []; vd_grouping := grouping;
     vd_duplicate_only := duplicate_only |}.

Definition request (limit offset : query_param) (vd : validated_data)
    : Request :=
  {| query_limit := limit; query_offset := offset; GET := vd |}.

(** Six records that are A, A, B, C, C, C by full-row equality
    (section 8, deduplicate before window). *)
Definition letters : Model.table_data :=
  {| Model.t_id := 2;
     Model.t_columns :=
       [ {| Model.c_id := 20; Model.c_name := "letter";
            Model.c_nullable := true; Model.c_unique := false |} ];
     Model.t_rows :=
       map (λ s, [("letter", VStr s)]) ["A"; "A"; "B"; "C"; "C"; "C"];
     Model.t_distinct_count := rows_of_the_group;
     Model.t_percentile := no_percentile |}.

(** The page of test_record_list_groups for [{'columns': ['Center']}] and
    a limit of 100, as the query annotates it: the record at position 0 is
    of the Kennedy center (87 records in the table), the one at position
    30 of the Armstrong center (21 records), all others of the Ames center
    (138 records). *)
Definition nasa_record (center : string) (gid k : Z) : record :=
  {| data := [("Center", VStr center)];
     metadata := Some {| group_id := gid; count := k;
                         first_value := [("Center", VStr center)];
                         last_value := [("Center", VStr center)] |} |}.

Definition nasa_page : list record :=
  map (λ i, if (i =? 0)%nat
            then nasa_record "NASA Kennedy Space Center" 1 87
            else if (i =? 30)%nat
            then nasa_record "NASA Armstrong Flight Research Center" 3 21
            else nasa_record "NASA Ames Research Center" 2 138)
    (seq 0 100).

(** The groups the test expects for that page. *)
Definition nasa_expected_groups : list group :=
  let group_of center k indices :=
    {| g_count := k;
       g_first_value := [("Center", VStr center)];
       g_last_value := [("Center", VStr center)];
       result_indices := indices |} in
  [ group_of "NASA Kennedy Space Center" 87 [0%nat];
    group_of "NASA Ames Research Center" 138 (seq 1 29 ++ seq 31 69);
    group_of "NASA Armstrong Flight Research Center" 21 [30%nat] ].

(** The table of test_record_list_groups as the test sees it: 1393
    records, and [nasa_page] as the first hundred by [id] when they are
    grouped on [Center]. It takes no writes. *)
Definition nasa_table : Table :=
  Build_Table 1 (λ _ _ _, Ok 1393)
    (λ limit offset _ _ group_by _ _ _,
       Ok (Model.window limit offset
             match group_by with
             | Some _ => nasa_page
             | None =>
                 map (λ r, {| data := data r; metadata := None |}) nasa_page
             end))
    ∅ (λ _, Raise AssertionError).

Definition nasa_env : Env :=
  Build_Env {[1 := nasa_table]} Model.GroupBy_init
    Model.process_annotated_records Model.rewrite.

(** The request of the test: [grouping], [order_by] and [limit=100]. *)
Definition nasa_request : Request :=
  {| query_limit := Integer 100; query_offset := Absent;
     GET := {| vd_filter := JNull; vd_db_function := JNull;
               vd_deduplicate := false;
               vd_order_by := JList [JDict [("field", JStr "id");
                                            ("direction", JStr "asc")]];
               vd_grouping := by_center; vd_duplicate_only := JNull |} |}.

End Fixtures.

(** ** Notions used in the statements *)

Import DefaultLimitOffsetPagination.

(** What [GroupBy(...) if grouping else None] evaluates to. *)
Definition requested_group_by (env : Env) (grouping : json)
    : result (option GroupBy) :=
  if truthy grouping then
    match grouping with
    | JDict _ => g ← GroupBy_init env grouping; mret (Some g)
    | _ => Raise TypeError
    end
  else mret None.

(** The records handed back for a retrieved window. *)
Definition processed_of (env : Env) (records : list record)
    : option (list row) :=
  match records with
  | [] => None
  | _ => Some (fst (process_annotated_records env records))
  end.

(** The groups computed for a retrieved window. *)
Definition groups_of (env : Env) (records : list record)
    : option (list group) :=
  match records with
  | [] => None
  | _ => snd (process_annotated_records env records)
  end.

(** The grouping entry for a retrieved window. *)
Definition grouping_of (env : Env) (group_by : option GroupBy)
    (records : list record) : option grouping_dict :=
  match group_by with
  | Some g =>
      Some {| gd_columns := columns g; gd_mode := mode g;
              gd_num_groups := num_groups g; gd_ranged := ranged g;
              gd_groups := groups_of env records |}
  | None => None
  end.

(** The calls of the grouping paginator when every collaborator answers:
    the [GroupBy] constructor if grouping is requested, the table lookup,
    the count query, the retrieval, and the post-processing if the window
    is not empty. *)
Definition paginate_events (t : Table) (request : Request) (table_id : Z)
    (filter order_by grouping : json) (group_by : option GroupBy)
    (duplicate_only db_function : json) (deduplicate : bool)
    (records : list record) : list event :=
  ((if truthy grouping then [GroupBy_called grouping] else []) ++
   [get_table_or_404_called table_id;
    sa_num_records_called (Table_id t) filter db_function deduplicate;
    get_records_called (Table_id t) (get_limit request) (get_offset request)
      filter order_by group_by duplicate_only db_function deduplicate] ++
   match records with
   | [] => []
   | _ => [process_annotated_records_called records]
   end)%list.

(** The groups in the page a run of [list] answers with. *)
Definition groups_in (run : M (Response Page)) : option (list group) :=
  match outcome run with
  | Ok response =>
      match page_grouping (body response) with
      | Some grouping => gd_groups grouping
      | None => None
      end
  | Raise _ => None
  end.

(** The group of the record at a position of the page. *)
Definition gid_at (page : list record) (j : nat) : option Z :=
  r ← page !! j; m ← metadata r; Some (group_id m).

(** The positions below [i] whose record is in group [gid], ascending. *)
Definition positions (page : list record) (gid : Z) (i : nat) : list nat :=
  filter (λ j, gid_at page j = Some gid) (seq 0 i).

(** A group entry takes its statistics from the annotation of the record
    at its first position. *)
Definition described (page : list record) (gid : Z) (g : group) : Prop :=
  ∃ j r m,
    head (result_indices g) = Some j ∧ page !! j = Some r ∧
    metadata r = Some m ∧ group_id m = gid ∧
    g_count g = count m ∧ g_first_value g = first_value m ∧
    g_last_value g = last_value m.

(** The first position of each group. *)
Definition firsts (groups : list (Z * group)) : list nat :=
  (λ e, default 0%nat (head (result_indices e.2))) <$> groups.

(** What holds of the lookup once the first [i] records are processed. *)
Record pass_inv (page : list record) (i : nat) (groups : list (Z * group))
    : Prop := {
  inv_keys : NoDup groups.*1;
  inv_indices : ∀ gid g, (gid, g) ∈ groups →
    result_indices g = positions page gid i ∧ described page gid g;
  inv_found : ∀ j gid, (j < i)%nat → gid_at page j = Some gid →
    gid ∈ groups.*1;
  inv_order : StronglySorted lt (firsts groups);
}.

(** The groups of a page, as [process_annotated_records] lists them. *)
Definition groups_of_page (page : list record) : list group :=
  (Model.collect_groups 0 page []).*2.

(** Two positions of the page are in one group. *)
Definition same_group (groups : list group) (i j : nat) : Prop :=
  ∃ g, g ∈ groups ∧ i ∈ result_indices g ∧ j ∈ result_indices g.

(** The eight errors that the [except] clauses of [list] name. *)
Definition is_specification_error (e : exn) : bool :=
  match e with
  | BadDBFunctionFormat | UnknownDBFunctionID | ReferencedColumnsDontExist
  | BadSortFormat | SortFieldNotFound
  | BadGroupFormat | GroupFieldNotFound | InvalidGroupType => true
  | _ => false
  end.

(** The queries a run sends to the table: the count and the retrieval. *)
Definition is_table_query (ev : event) : bool :=
  match ev with
  | sa_num_records_called _ _ _ _
  | get_records_called _ _ _ _ _ _ _ _ _ => true
  | _ => false
  end.

(** The lookups of a table by its primary key. *)
Definition is_table_lookup (ev : event) : bool :=
  match ev with
  | get_table_or_404_called _ => true
  | _ => false
  end.

(** The response to a request for the columns of a table: the page of
    [ColumnLimitOffsetPagination], handed to [get_paginated_response]. *)
Definition column_response {Column : Type} (sa_columns : Table → list Column)
    (env : Env) (request : Request) (table_id : Z)
    : M (Response (CountedPage Column)) :=
  '(page, self) ← ColumnLimitOffsetPagination.paginate_queryset sa_columns
                    env new_paginator request table_id;
  mret (get_paginated_response self page).

(** The columns in the response to a request with the given limit and
    offset; none when the request fails. *)
Definition column_page {Column : Type} (sa_columns : Table → list Column)
    (env : Env) (vd : validated_data) (table_id : Z) (limit offset : Z)
    : list Column :=
  match outcome (column_response sa_columns env
                   {| query_limit := Integer limit;
                      query_offset := Integer offset; GET := vd |}
                   table_id) with
  | Ok response => counted_results (body response)
  | Raise _ => []
  end.

(** The calls of the grouping paginator before the table is looked up. *)
Definition grouping_events (grouping : json) : list event :=
  if truthy grouping then
    match grouping with
    | JDict _ => [GroupBy_called grouping]
    | _ => []
    end
  else [].

(** The calls of a view on the records of a table, as opposed to the
    lookup of the table. *)
Definition is_record_call (ev : view_event) : bool :=
  match ev with
  | table_event _ => false
  | _ => true
  end.

(** The columns of a table that carry a name, in the order of the table. *)
Definition named (name : string) (table_columns : list dj_column)
    : list dj_column :=
  filter (λ col, col_name col = name) table_columns.

(** ** Tactics *)

(** Reduce a run that has stopped on an exception. *)
Ltac raised H := cbn [mbind M_bind mret M_ret trace outcome] in H.

(** Decide membership of an event in a trace that is written out. *)
Ltac in_trace :=
  repeat match goal with
         | H : _ ∈ [] |- _ => by apply elem_of_nil in H
         | H : _ ∈ _ :: _ |- _ => apply elem_of_cons in H as [H|H]; [try done|]
         | H : _ ∈ (_ ++ _)%list |- _ => apply elem_of_app in H as [H|H]
         end.

(** ** Running the paginators *)

Lemma bind_mk {A B : Type} (t : list event) (a : A) (f : A → M B) :
  (mkM t (Ok a) ≫= f) = mkM (t ++ trace (f a)) (outcome (f a)).
Proof. done. Qed.

Lemma bind_ret {A B : Type} (a : A) (f : A → M B) : (mret a ≫= f) = f a.
Proof. unfold mret, M_ret. rewrite bind_mk. by destruct (f a). Qed.

Lemma bind_raise {A B : Type} (t : list event) (e : exn) (f : A → M B) :
  (mkM t (Raise e) ≫= f) = mkM t (Raise e).
Proof. done. Qed.

Lemma get_limit_value request :
  get_limit request =
  Some (match query_limit request with
        | Integer n => if 0 <? n then Z.min n 500 else 50
        | _ => 50
        end).
Proof.
  unfold get_limit, LimitOffsetPagination.get_limit,
    LimitOffsetPagination._positive_int, default_limit, max_limit.
  destruct (query_limit request) as [| |n]; try done.
  destruct (Z.ltb_spec 0 n), (Z.ltb_spec n 0), (Z.eqb_spec n 0);
    simpl; try lia; done.
Qed.

Lemma get_offset_value request :
  get_offset request =
  match query_offset request with
  | Integer n => Z.max 0 n
  | _ => 0
  end.
Proof.
  unfold get_offset, LimitOffsetPagination.get_offset,
    LimitOffsetPagination._positive_int.
  destruct (query_offset request) as [| |n]; try done.
  destruct (Z.ltb_spec n 0), (Z.eqb_spec n 0); simpl; lia.
Qed.

(** The base paginator, step by step: the table is looked up, counted with
    filter, function and deduplication, then queried with everything. *)
Lemma table_paginate_run env self request table_id filter order_by group_by
    duplicate_only db_function deduplicate :
  TableLimitOffsetPagination.paginate_queryset env self request table_id
    filter order_by group_by duplicate_only db_function deduplicate =
  match tables env !! table_id with
  | None => mkM [get_table_or_404_called table_id] (Raise NotFound)
  | Some t =>
      match sa_num_records t filter db_function deduplicate with
      | Raise e =>
          mkM [get_table_or_404_called table_id;
               sa_num_records_called (Table_id t) filter db_function deduplicate]
            (Raise e)
      | Ok n =>
          mkM [get_table_or_404_called table_id;
               sa_num_records_called (Table_id t) filter db_function deduplicate;
               get_records_called (Table_id t) (get_limit request)
                 (get_offset request) filter order_by group_by
                 duplicate_only db_function deduplicate]
            match get_records t (get_limit request) (get_offset request)
                    filter order_by group_by duplicate_only db_function
                    deduplicate with
            | Raise e => Raise e
            | Ok records =>
                Ok (records,
                    {| self_limit := get_limit request;
                       self_offset := Some (get_offset request);
                       self_count := Some n;
                       self_grouping := self_grouping self |})
            end
      end
  end.
Proof.
  unfold TableLimitOffsetPagination.paginate_queryset, get_table_or_404.
  assert (Hl : match get_limit request with
               | Some _ => get_limit request | None => default_limit end
               = get_limit request) by (by rewrite get_limit_value).
  rewrite Hl. unfold call.
  destruct (tables env !! table_id) as [t|]; [|done].
  rewrite bind_mk.
  destruct (sa_num_records t filter db_function deduplicate) as [n|e];
    [|done].
  rewrite bind_mk.
  by destruct (get_records t _ _ _ _ _ _ _ _).
Qed.

Lemma table_paginate_ok env self request table_id filter order_by group_by
    duplicate_only db_function deduplicate t n records :
  tables env !! table_id = Some t →
  sa_num_records t filter db_function deduplicate = Ok n →
  get_records t (get_limit request) (get_offset request) filter order_by
    group_by duplicate_only db_function deduplicate = Ok records →
  TableLimitOffsetPagination.paginate_queryset env self request table_id
    filter order_by group_by duplicate_only db_function deduplicate =
  mkM [get_table_or_404_called table_id;
       sa_num_records_called (Table_id t) filter db_function deduplicate;
       get_records_called (Table_id t) (get_limit request) (get_offset request)
         filter order_by group_by duplicate_only db_function deduplicate]
      (Ok (records,
           {| self_limit := get_limit request;
              self_offset := Some (get_offset request);
              self_count := Some n;
              self_grouping := self_grouping self |})).
Proof.
  intros Ht Hn Hr. rewrite table_paginate_run, Ht, Hn, Hr. done.
Qed.

(** The first step of the grouping paginator. *)
Lemma group_by_run env grouping :
  (if truthy grouping
   then match grouping with
        | JDict _ =>
            g ← call (GroupBy_called grouping) (GroupBy_init env grouping);
            mret (Some g)
        | _ => raise TypeError
        end
   else mret None)
  = mkM (grouping_events grouping) (requested_group_by env grouping).
Proof.
  unfold grouping_events, requested_group_by, call, raise.
  destruct (truthy grouping); [|done].
  destruct grouping; try done.
  by destruct (GroupBy_init env _).
Qed.

(** A grouping that is built is a mapping or falsy. *)
Lemma grouping_events_built env grouping group_by :
  requested_group_by env grouping = Ok group_by →
  grouping_events grouping
    = if truthy grouping then [GroupBy_called grouping] else [].
Proof.
  unfold grouping_events, requested_group_by.
  destruct (truthy grouping); [|done]. by destruct grouping.
Qed.

Lemma grouping_events_no_query grouping :
  filter is_table_query (grouping_events grouping) = [].
Proof.
  unfold grouping_events. destruct (truthy grouping); [|done].
  by destruct grouping.
Qed.

Lemma group_paginate_ok env self request table_id filter order_by grouping
    duplicate_only db_function deduplicate t n group_by records :
  requested_group_by env grouping = Ok group_by →
  tables env !! table_id = Some t →
  sa_num_records t filter db_function deduplicate = Ok n →
  get_records t (get_limit request) (get_offset request) filter order_by
    group_by duplicate_only db_function deduplicate = Ok records →
  TableLimitOffsetGroupPagination.paginate_queryset env self request table_id
    filter order_by grouping duplicate_only db_function deduplicate =
  mkM (paginate_events t request table_id filter order_by grouping group_by
         duplicate_only db_function deduplicate records)
      (Ok (processed_of env records,
           {| self_limit := get_limit request;
              self_offset := Some (get_offset request);
              self_count := Some n;
              self_grouping := grouping_of env group_by records |})).
Proof.
  intros Hg Ht Hn Hr.
  unfold TableLimitOffsetGroupPagination.paginate_queryset, paginate_events.
  rewrite group_by_run, Hg, <- (grouping_events_built _ _ _ Hg), bind_mk.
  rewrite (table_paginate_ok _ self _ _ _ _ _ _ _ _ _ _ _ Ht Hn Hr).
  cbn [mbind M_bind mret M_ret trace outcome].
  destruct group_by, records; simpl; try done;
    by destruct (process_annotated_records env _).
Qed.

Lemma group_paginate_inv env self request table_id filter order_by grouping
    duplicate_only db_function deduplicate processed self' :
  outcome (TableLimitOffsetGroupPagination.paginate_queryset env self request
             table_id filter order_by grouping duplicate_only db_function
             deduplicate) = Ok (processed, self') →
  ∃ group_by t n records,
    requested_group_by env grouping = Ok group_by ∧
    tables env !! table_id = Some t ∧
    sa_num_records t filter db_function deduplicate = Ok n ∧
    get_records t (get_limit request) (get_offset request) filter order_by
      group_by duplicate_only db_function deduplicate = Ok records.
Proof.
  unfold TableLimitOffsetGroupPagination.paginate_queryset.
  rewrite group_by_run. intros H.
  destruct (requested_group_by env grouping) as [group_by|e];
    [|by raised H].
  rewrite bind_mk, table_paginate_run in H.
  destruct (tables env !! table_id) as [t|] eqn:Ht; [|by raised H].
  destruct (sa_num_records t filter db_function deduplicate) as [n|] eqn:Hn;
    [|by raised H].
  destruct (get_records t (get_limit request) (get_offset request) filter
              order_by group_by duplicate_only db_function deduplicate)
    as [records|] eqn:Hr; [|by raised H].
  exists group_by, t, n, records. by split_and!.
Qed.

(** The page [list] answers with when every collaborator answers. *)
Lemma list_ok env request table_pk fp dp group_by t n records :
  outcome (_rewrite_db_function_specs env table_pk (vd_filter (GET request))
             (vd_db_function (GET request))) = Ok (fp, dp) →
  requested_group_by env (vd_grouping (GET request)) = Ok group_by →
  tables env !! table_pk = Some t →
  sa_num_records t fp dp (vd_deduplicate (GET request)) = Ok n →
  get_records t (get_limit request) (get_offset request) fp
    (vd_order_by (GET request)) group_by (vd_duplicate_only (GET request))
    dp (vd_deduplicate (GET request)) = Ok records →
  RecordViewSet.list env request table_pk =
  mkM (trace (_rewrite_db_function_specs env table_pk
                (vd_filter (GET request)) (vd_db_function (GET request))) ++
       paginate_events t request table_pk fp (vd_order_by (GET request))
         (vd_grouping (GET request)) group_by
         (vd_duplicate_only (GET request)) dp
         (vd_deduplicate (GET request)) records)
      (Ok {| status := 200;
             body := {| page_count := Some n;
                        page_grouping := grouping_of env group_by records;
                        page_results :=
                          RecordSerializer_many (processed_of env records) |}
          |}).
Proof.
  intros Hw Hg Ht Hn Hr. unfold RecordViewSet.list.
  destruct (_rewrite_db_function_specs env table_pk _ _) as [tr o].
  simpl in Hw. subst o.
  rewrite bind_mk.
  rewrite (group_paginate_ok _ _ _ _ _ _ _ _ _ _ _ _ _ _ Hg Ht Hn Hr).
  unfold try_except. cbn [mbind M_bind mret M_ret trace outcome].
  by rewrite app_nil_r.
Qed.

Lemma list_inv env request table_pk response :
  outcome (RecordViewSet.list env request table_pk) = Ok response →
  ∃ fp dp group_by t n records,
    outcome (_rewrite_db_function_specs env table_pk (vd_filter (GET request))
               (vd_db_function (GET request))) = Ok (fp, dp) ∧
    requested_group_by env (vd_grouping (GET request)) = Ok group_by ∧
    tables env !! table_pk = Some t ∧
    sa_num_records t fp dp (vd_deduplicate (GET request)) = Ok n ∧
    get_records t (get_limit request) (get_offset request) fp
      (vd_order_by (GET request)) group_by (vd_duplicate_only (GET request))
      dp (vd_deduplicate (GET request)) = Ok records.
Proof.
  unfold RecordViewSet.list. intros H.
  destruct (_rewrite_db_function_specs env table_pk _ _) as [tr [[fp dp]|e]];
    [|by raised H].
  rewrite bind_mk in H.
  destruct (outcome (TableLimitOffsetGroupPagination.paginate_queryset env
                       new_paginator request table_pk fp _ _ _ dp _))
    as [[processed self']|e] eqn:Hp.
  - apply group_paginate_inv in Hp as (group_by & t & n & records & ?).
    by exists fp, dp, group_by, t, n, records.
  - unfold try_except in H. by raised H.
Qed.

(** The calls of [_rewrite_db_function_specs], case by case. *)
Lemma rewrite_specs_run env table_pk f d :
  _rewrite_db_function_specs env table_pk f d =
  if truthy f || truthy d then
    match tables env !! table_pk with
    | None => mkM [get_table_or_404_called table_pk] (Raise NotFound)
    | Some t =>
        let m := get_dj_column_id_to_name_mapping t in
        let lookups := [get_table_or_404_called table_pk;
                        get_dj_column_id_to_name_mapping_called (Table_id t)] in
        let on_filter := if truthy f then [rewrite_called m f] else [] in
        let on_function := if truthy d then [rewrite_called m d] else [] in
        match (if truthy f
               then rewrite_db_function_spec_column_ids_to_names env m f
               else Ok JNull) with
        | Raise e => mkM (lookups ++ on_filter) (Raise e)
        | Ok f' =>
            match (if truthy d
                   then rewrite_db_function_spec_column_ids_to_names env m d
                   else Ok JNull) with
            | Raise e => mkM (lookups ++ on_filter ++ on_function) (Raise e)
            | Ok d' => mkM (lookups ++ on_filter ++ on_function) (Ok (f', d'))
            end
        end
    end
  else mkM [] (Ok (JNull, JNull)).
Proof.
  unfold _rewrite_db_function_specs, get_table_or_404, call.
  destruct (truthy f || truthy d); [|done].
  destruct (tables env !! table_pk) as [t|]; [|done].
  rewrite !bind_mk. cbn [trace outcome].
  destruct (truthy f), (truthy d);
    repeat match goal with
           | |- context [rewrite_db_function_spec_column_ids_to_names ?e ?m ?s] =>
               destruct (rewrite_db_function_spec_column_ids_to_names e m s)
           end; done.
Qed.

Lemma rewrite_specs_trace env table_pk f d records :
  process_annotated_records_called records ∉
    trace (_rewrite_db_function_specs env table_pk f d).
Proof.
  rewrite rewrite_specs_run. intros H.
  destruct (truthy f || truthy d); [|cbn [trace] in H; by in_trace].
  destruct (tables env !! table_pk) as [t|]; [|cbn [trace] in H; by in_trace].
  cbn zeta in H.
  destruct (truthy f), (truthy d);
    repeat match type of H with
           | context [rewrite_db_function_spec_column_ids_to_names ?e ?m ?s] =>
               destruct (rewrite_db_function_spec_column_ids_to_names e m s)
           end; cbn [trace app] in H; by in_trace.
Qed.

Lemma paginate_events_process t request table_id filter order_by grouping
    group_by duplicate_only db_function deduplicate records rs :
  process_annotated_records_called rs ∈
    paginate_events t request table_id filter order_by grouping group_by
      duplicate_only db_function deduplicate records
  ↔ records ≠ [] ∧ rs = records.
Proof.
  unfold paginate_events. split.
  - intros H. destruct (truthy grouping), records; in_trace; simplify_eq; by split.
  - intros [? ->]. destruct (truthy grouping), records; try done;
      cbn [app]; repeat constructor.
Qed.

(** ** Limit and offset *)

(** C4. The parsed limit is 50 when the parameter is absent (or is not a
    positive integer) and never exceeds 500; the parsed offset is 0 when
    the parameter is absent and never negative; a value out of range is
    replaced by the bound, and the paginator stores both without an error
    of its own: when it raises, a collaborator raised. *)
Theorem limit_and_offset_are_clamped env self request table_id filter
    order_by group_by duplicate_only db_function deduplicate :
  get_limit request =
    Some (match query_limit request with
          | Integer n => if 0 <? n then Z.min n 500 else 50
          | _ => 50
          end) ∧
  get_offset request =
    match query_offset request with
    | Integer n => Z.max 0 n
    | _ => 0
    end ∧
  (∃ n, get_limit request = Some n ∧ 1 ≤ n ≤ 500) ∧
  0 ≤ get_offset request ∧
  match outcome (TableLimitOffsetPagination.paginate_queryset env self
                   request table_id filter order_by group_by duplicate_only
                   db_function deduplicate) with
  | Ok (_, self') =>
      self_limit self' = get_limit request ∧
      self_offset self' = Some (get_offset request)
  | Raise e =>
      (tables env !! table_id = None ∧ e = NotFound) ∨
      ∃ t, tables env !! table_id = Some t ∧
           (sa_num_records t filter db_function deduplicate = Raise e ∨
            get_records t (get_limit request) (get_offset request) filter
              order_by group_by duplicate_only db_function deduplicate
            = Raise e)
  end.
Proof.
  split_and!.
  - apply get_limit_value.
  - apply get_offset_value.
  - rewrite get_limit_value. eexists; split; [done|].
    destruct (query_limit request) as [| |n]; try lia.
    destruct (Z.ltb_spec 0 n); lia.
  - rewrite get_offset_value. destruct (query_offset request); lia.
  - rewrite table_paginate_run.
    destruct (tables env !! table_id) as [t|]; [|by left].
    destruct (sa_num_records t _ _ _) eqn:Hn; [|right; eauto].
    cbn [outcome].
    destruct (get_records t _ _ _ _ _ _ _ _) eqn:Hr; [done|right; eauto].
Qed.

(** ** The window and what is handed back *)

(** C10. When the retrieved window is empty the grouping paginator hands
    back [None], not an empty sequence, and the post-processing of
    records is not called at all. *)
Theorem empty_window_returns_None env self request table_id filter order_by
    grouping duplicate_only db_function deduplicate t n group_by :
  requested_group_by env grouping = Ok group_by →
  tables env !! table_id = Some t →
  sa_num_records t filter db_function deduplicate = Ok n →
  get_records t (get_limit request) (get_offset request) filter order_by
    group_by duplicate_only db_function deduplicate = Ok [] →
  let run :=
    TableLimitOffsetGroupPagination.paginate_queryset env self request
      table_id filter order_by grouping duplicate_only db_function
      deduplicate in
  (∃ self', outcome run = Ok (None, self')) ∧
  ∀ records, process_annotated_records_called records ∉ trace run.
Proof.
  intros Hg Ht Hn Hr run. subst run.
  rewrite (group_paginate_ok _ _ _ _ _ _ _ _ _ _ _ _ _ _ Hg Ht Hn Hr).
  split; [by eexists|].
  intros records H. cbn [trace] in H.
  apply paginate_events_process in H as [? _]. done.
Qed.

Lemma empty_window_returns_None_witness :
  let request :=
    Fixtures.request Absent (Integer 10)
      (Fixtures.params JNull Fixtures.by_center JNull) in
  let t := Model.table Fixtures.centers in
  let group_by :=
    Some {| columns := ["Center"]; mode := "distinct";
            num_groups := None; ranged := false |} in
  let run :=
    TableLimitOffsetGroupPagination.paginate_queryset Fixtures.env
      new_paginator request 1 JNull (JList []) Fixtures.by_center JNull JNull
      false in
  (requested_group_by Fixtures.env Fixtures.by_center = Ok group_by ∧
   tables Fixtures.env !! 1 = Some t ∧
   sa_num_records t JNull JNull false = Ok 3 ∧
   get_records t (get_limit request) (get_offset request) JNull (JList [])
     group_by JNull JNull false = Ok []) ∧
  (∃ self', outcome run = Ok (None, self')) ∧
  ∀ records, process_annotated_records_called records ∉ trace run.
Proof.
  split; [by split_and!|].
  apply (empty_window_returns_None Fixtures.env new_paginator _ 1 JNull
           (JList []) Fixtures.by_center JNull JNull false
           (Model.table Fixtures.centers) 3
           (Some {| columns := ["Center"]; mode := "distinct";
                    num_groups := None; ranged := false |}));
    reflexivity.
Defined.

(** ** Grouping metadata *)

(** The claim C2 as it is written fails: with grouping requested and a
    window that is empty (offset 10 on three records) the page carries a
    grouping object, whose group list is null. *)
Lemma empty_window_keeps_grouping_object :
  let request :=
    Fixtures.request Absent (Integer 10)
      (Fixtures.params JNull Fixtures.by_center JNull) in
  outcome (RecordViewSet.list Fixtures.env request 1) =
    Ok {| status := 200;
          body := {| page_count := Some 3;
                     page_grouping :=
                       Some {| gd_columns := ["Center"];
                               gd_mode := "distinct";
                               gd_num_groups := None;
                               gd_ranged := false;
                               gd_groups := None |};
                     page_results := [] |} |} ∧
  ¬ (∀ response,
       outcome (RecordViewSet.list Fixtures.env request 1) = Ok response →
       page_grouping (body response) = None).
Proof.
  split; [reflexivity|].
  intros H. by specialize (H _ eq_refl).
Qed.

(** C2, amended. When grouping is requested the page carries a grouping
    object with the columns, mode, number of groups and ranged flag of
    the specification; its group list is null when the window is empty
    and is what the post-processing of the window computes otherwise; the
    post-processing is called only for a non-empty window, on that
    window. *)
Theorem grouping_object_with_null_groups env request table_pk fp dp t n g
    records :
  outcome (_rewrite_db_function_specs env table_pk (vd_filter (GET request))
             (vd_db_function (GET request))) = Ok (fp, dp) →
  requested_group_by env (vd_grouping (GET request)) = Ok (Some g) →
  tables env !! table_pk = Some t →
  sa_num_records t fp dp (vd_deduplicate (GET request)) = Ok n →
  get_records t (get_limit request) (get_offset request) fp
    (vd_order_by (GET request)) (Some g) (vd_duplicate_only (GET request))
    dp (vd_deduplicate (GET request)) = Ok records →
  let run := RecordViewSet.list env request table_pk in
  (∃ response,
     outcome run = Ok response ∧
     page_grouping (body response) =
       Some {| gd_columns := columns g; gd_mode := mode g;
               gd_num_groups := num_groups g; gd_ranged := ranged g;
               gd_groups :=
                 match records with
                 | [] => None
                 | _ => snd (process_annotated_records env records)
                 end |}) ∧
  (∀ rs, process_annotated_records_called rs ∈ trace run
         ↔ records ≠ [] ∧ rs = records).
Proof.
  intros Hw Hg Ht Hn Hr run. subst run.
  rewrite (list_ok _ _ _ _ _ _ _ _ _ Hw Hg Ht Hn Hr).
  split; [by eexists|].
  intros rs. cbn [trace]. rewrite elem_of_app, paginate_events_process.
  split; [|by right].
  intros [H|H]; [|done]. by apply rewrite_specs_trace in H.
Qed.

Lemma grouping_object_with_null_groups_witness :
  let request :=
    Fixtures.request Absent (Integer 10)
      (Fixtures.params JNull Fixtures.by_center JNull) in
  let t := Model.table Fixtures.centers in
  let g := {| columns := ["Center"]; mode := "distinct";
              num_groups := None; ranged := false |} in
  let run := RecordViewSet.list Fixtures.env request 1 in
  (outcome (_rewrite_db_function_specs Fixtures.env 1 JNull JNull)
     = Ok (JNull, JNull) ∧
   requested_group_by Fixtures.env Fixtures.by_center = Ok (Some g) ∧
   tables Fixtures.env !! 1 = Some t ∧
   sa_num_records t JNull JNull false = Ok 3 ∧
   get_records t (get_limit request) (get_offset request) JNull (JList [])
     (Some g) JNull JNull false = Ok []) ∧
  (∃ response,
     outcome run = Ok response ∧
     page_grouping (body response) =
       Some {| gd_columns := ["Center"]; gd_mode := "distinct";
               gd_num_groups := None; gd_ranged := false;
               gd_groups := None |}) ∧
  (∀ rs, process_annotated_records_called rs ∈ trace run
         ↔ @nil record ≠ [] ∧ rs = []).
Proof.
  split; [by split_and!|].
  apply (grouping_object_with_null_groups Fixtures.env
           (Fixtures.request Absent (Integer 10)
              (Fixtures.params JNull Fixtures.by_center JNull))
           1 JNull JNull (Model.table Fixtures.centers) 3
           {| columns := ["Center"]; mode := "distinct";
              num_groups := None; ranged := false |} []);
    reflexivity.
Defined.

(** ** Rewriting of column identifiers *)

(** The claim C5 as it is written fails: a request that supplies the
    filter [{}] supplies a value other than [None], yet nothing is looked
    up or rewritten and the processed filter is absent. *)
Lemma empty_filter_is_not_rewritten :
  let supplied := JDict [] in
  supplied ≠ JNull ∧
  tables Fixtures.env !! 1 = Some (Model.table Fixtures.centers) ∧
  _rewrite_db_function_specs Fixtures.env 1 supplied JNull =
    mkM [] (Ok (JNull, JNull)).
Proof. by split_and!. Qed.

(** C5, amended. The rewriting pass runs exactly when the filter
    specification or the function specification is truthy (supplied and
    not empty): with neither, nothing is looked up or rewritten and both
    processed specifications are absent; with one, the table and its
    mapping are looked up once and only that one is rewritten; with both,
    each is rewritten against the same mapping. A supplied but empty
    specification counts as absent. *)
Theorem rewriting_runs_for_truthy_specs env table_pk f d :
  (truthy f = false → truthy d = false →
   _rewrite_db_function_specs env table_pk f d = mkM [] (Ok (JNull, JNull))) ∧
  (∀ t f' d',
     tables env !! table_pk = Some t →
     let m := get_dj_column_id_to_name_mapping t in
     let rewrite := rewrite_db_function_spec_column_ids_to_names env m in
     (truthy f = true → truthy d = false → rewrite f = Ok f' →
      _rewrite_db_function_specs env table_pk f d =
        mkM [get_table_or_404_called table_pk;
             get_dj_column_id_to_name_mapping_called (Table_id t);
             rewrite_called m f]
            (Ok (f', JNull))) ∧
     (truthy f = false → truthy d = true → rewrite d = Ok d' →
      _rewrite_db_function_specs env table_pk f d =
        mkM [get_table_or_404_called table_pk;
             get_dj_column_id_to_name_mapping_called (Table_id t);
             rewrite_called m d]
            (Ok (JNull, d'))) ∧
     (truthy f = true → truthy d = true →
      rewrite f = Ok f' → rewrite d = Ok d' →
      _rewrite_db_function_specs env table_pk f d =
        mkM [get_table_or_404_called table_pk;
             get_dj_column_id_to_name_mapping_called (Table_id t);
             rewrite_called m f;
             rewrite_called m d]
            (Ok (f', d')))).
Proof.
  split.
  - intros Hf Hd. by rewrite rewrite_specs_run, Hf, Hd.
  - intros t f' d' Ht m rw. subst m rw. split_and!.
    + intros Hf Hd Hr. by rewrite rewrite_specs_run, Hf, Hd, Ht; cbn; rewrite Hr.
    + intros Hf Hd Hr. by rewrite rewrite_specs_run, Hf, Hd, Ht; cbn; rewrite Hr.
    + intros Hf Hd Hr Hr'.
      by rewrite rewrite_specs_run, Hf, Hd, Ht; cbn; rewrite Hr, Hr'.
Qed.

Lemma rewriting_runs_for_truthy_specs_witness :
  let f := Fixtures.center_is "Ames" in
  let d := JDict [("identity", JList [JDict [("column_id", JList [JNum 10])]])] in
  let t := Model.table Fixtures.centers in
  let m := get_dj_column_id_to_name_mapping t in
  let f' := JDict [("equal",
                    JList [JDict [("column_name", JList [JStr "Center"])];
                           JDict [("literal", JList [JStr "Ames"])]])] in
  let d' := JDict [("identity",
                    JList [JDict [("column_name", JList [JStr "id"])]])] in
  (tables Fixtures.env !! 1 = Some t ∧ truthy f = true ∧ truthy d = true ∧
   rewrite_db_function_spec_column_ids_to_names Fixtures.env m f = Ok f' ∧
   rewrite_db_function_spec_column_ids_to_names Fixtures.env m d = Ok d') ∧
  _rewrite_db_function_specs Fixtures.env 1 f d =
    mkM [get_table_or_404_called 1;
         get_dj_column_id_to_name_mapping_called 1;
         rewrite_called m f;
         rewrite_called m d]
        (Ok (f', d')).
Proof.
  split; [by split_and!|].
  by apply (proj2 (rewriting_runs_for_truthy_specs Fixtures.env 1
                     (Fixtures.center_is "Ames")
                     (JDict [("identity",
                              JList [JDict [("column_id", JList [JNum 10])]])]))
              (Model.table Fixtures.centers)).
Defined.

(** ** Errors *)

(** C3, evaluated on the code. An unknown operator in the filter, an
    unknown sort field and an unknown group column each surface as one
    error with status 400; the sort and group errors carry the name of
    their parameter, the filter error carries [filters], which is not the
    name of the parameter [filter]. *)
Theorem list_errors_and_their_tags :
  let list_with vd :=
    outcome (RecordViewSet.list Fixtures.env
               (Fixtures.request Absent Absent vd) 1) in
  list_with (Fixtures.params (JDict [("bogus_op", JList [])]) (JDict []) JNull)
    = Raise (APIException BadFilterAPIException UnknownDBFunctionID
               (Some "filters") 400 None) ∧
  list_with {| vd_filter := JNull; vd_db_function := JNull;
               vd_deduplicate := false;
               vd_order_by := JList [JDict [("field", JStr "Centre");
                                            ("direction", JStr "asc")]];
               vd_grouping := JDict []; vd_duplicate_only := JNull |}
    = Raise (APIException BadSortAPIException SortFieldNotFound
               (Some "order_by") 400 None) ∧
  list_with (Fixtures.params JNull
               (JDict [("columns", JList [JStr "Centre"])]) JNull)
    = Raise (APIException BadGroupAPIException GroupFieldNotFound
               (Some "grouping") 400 None) ∧
  "filters" ≠ "filter".
Proof. by split_and!. Qed.

(** C8. When the write fails with an integrity error whose original error
    is a not-null violation, [create] raises the not-null-violation API
    error with status 400, carrying the error (which names the column)
    and the table; any other integrity error is raised as the generic API
    error with status 400, carrying the error and nothing else. *)
Theorem create_passes_integrity_errors env entries table_pk t orig :
  tables env !! table_pk = Some t →
  create_record_or_records t (JDict entries) = Raise (IntegrityError orig) →
  outcome (RecordViewSet.create env (JDict entries) table_pk) =
    Raise (match orig with
           | NotNullViolation _ =>
               APIException NotNullViolationAPIException
                 (IntegrityError orig) None 400 (Some (Table_id t))
           | _ =>
               APIException MathesarAPIException
                 (IntegrityError orig) None 400 None
           end).
Proof.
  intros Ht Hc. unfold RecordViewSet.create, get_table_or_404, call.
  rewrite Ht, bind_mk, bind_ret. unfold try_except. cbn [outcome trace].
  rewrite Hc. by destruct orig.
Qed.

Lemma create_passes_integrity_errors_witness :
  let t := Model.table Fixtures.centers in
  let no_id := [("Center", JStr "NASA Example Space Center")] in
  let taken_id := [("id", JNum 1)] in
  (tables Fixtures.env !! 1 = Some t ∧
   create_record_or_records t (JDict no_id)
     = Raise (IntegrityError (NotNullViolation "id")) ∧
   create_record_or_records t (JDict taken_id)
     = Raise (IntegrityError (UniqueViolation "id"))) ∧
  outcome (RecordViewSet.create Fixtures.env (JDict no_id) 1) =
    Raise (APIException NotNullViolationAPIException
             (IntegrityError (NotNullViolation "id")) None 400 (Some 1)) ∧
  outcome (RecordViewSet.create Fixtures.env (JDict taken_id) 1) =
    Raise (APIException MathesarAPIException
             (IntegrityError (UniqueViolation "id")) None 400 None).
Proof.
  split; [by split_and!|]. split.
  - by apply (create_passes_integrity_errors Fixtures.env
                [("Center", JStr "NASA Example Space Center")] 1
                (Model.table Fixtures.centers) (NotNullViolation "id")).
  - by apply (create_passes_integrity_errors Fixtures.env
                [("id", JNum 1)] 1
                (Model.table Fixtures.centers) (UniqueViolation "id")).
Defined.

(** ** The table model *)

Section model_facts.
Import Model.

Lemma sequence_Ok {A : Type} (l : list (result A)) (l' : list A) :
  sequence l = Ok l' → Forall2 (λ r a, r = Ok a) l l'.
Proof.
  revert l'. induction l as [|[a|e] l IH]; intros l' H; simpl in H.
  - injection H as <-. constructor.
  - destruct (sequence l) as [l''|]; [|done].
    injection H as <-. constructor; auto.
  - done.
Qed.

Lemma sequence_annotation (f : row → result group_metadata) rows records :
  sequence (map (λ r, m ← f r; mret {| data := r; metadata := Some m |}) rows)
    = Ok records →
  map data records = rows.
Proof.
  intros H%sequence_Ok. revert records H.
  induction rows as [|r rows IH]; intros records H.
  - by inv H.
  - inv H. simpl. f_equal; [|by apply IH].
    destruct (f r); unfold mbind, result_bind, mret, result_ret in *;
      by simplify_eq/=.
Qed.

Lemma annotate_data t group_by rows records :
  annotate t group_by rows = Ok records → map data records = rows.
Proof.
  unfold annotate. destruct group_by as [gb|].
  - destruct (forallb _ _); [|done].
    destruct (String.eqb _ _).
    + intros [= <-]. rewrite map_map. simpl. apply map_id.
    + apply sequence_annotation.
  - intros [= <-]. rewrite map_map. simpl. apply map_id.
Qed.

Lemma insert_record_Permutation directives r records :
  insert_record directives r records ≡ₚ r :: records.
Proof.
  induction records as [|r' records IH]; simpl; [done|].
  case_decide; [done|]. rewrite IH. apply Permutation_swap.
Qed.

Lemma sort_records_Permutation directives records :
  sort_records directives records ≡ₚ records.
Proof.
  induction records as [|r records IH]; simpl; [done|].
  by rewrite insert_record_Permutation, IH.
Qed.

Lemma window_all {A : Type} (l : list A) : window None 0 l = l.
Proof. done. Qed.

Lemma window_sublist {A : Type} limit offset (l : list A) :
  window limit offset l `sublist_of` l.
Proof.
  unfold window. destruct limit.
  - etrans; [apply sublist_take|apply sublist_drop].
  - apply sublist_drop.
Qed.

Lemma duplicates_only_sublist cols rows :
  duplicates_only cols rows `sublist_of` rows.
Proof.
  unfold duplicates_only. generalize (map (key_of cols) rows). intros keys.
  induction rows as [|r rows IH]; simpl; [done|].
  destruct (bool_decide _); by constructor.
Qed.

Lemma apply_duplicate_only_sublist duplicate_only rows :
  apply_duplicate_only duplicate_only rows `sublist_of` rows.
Proof.
  unfold apply_duplicate_only.
  destruct duplicate_only as [| | | |items|]; try done.
  destruct (string_list items) as [[|c cs]|]; try done.
  apply duplicates_only_sublist.
Qed.

(** What a successful retrieval is made of. *)
Lemma get_records_Ok t limit offset filter order_by group_by duplicate_only
    db_function deduplicate page :
  get_records t limit offset filter order_by group_by duplicate_only
    db_function deduplicate = Ok page →
  ∃ rows directives records,
    selected t filter db_function deduplicate = Ok rows ∧
    parse_order_by (column_names t) order_by = Ok directives ∧
    annotate t group_by (apply_duplicate_only duplicate_only rows)
      = Ok records ∧
    page = window limit offset (sort_records directives records).
Proof.
  unfold get_records. intros H.
  destruct (selected t filter db_function deduplicate) as [rows|]; [|done].
  destruct (parse_order_by (column_names t) order_by) as [ds|]; [|done].
  cbn in H.
  destruct (annotate t group_by _) as [records|] eqn:Ha; [|done].
  cbn in H. injection H as <-. by exists rows, ds, records.
Qed.

Lemma get_records_length t limit offset filter order_by group_by
    duplicate_only db_function deduplicate page rows :
  get_records t limit offset filter order_by group_by duplicate_only
    db_function deduplicate = Ok page →
  selected t filter db_function deduplicate = Ok rows →
  (length page ≤ length rows)%nat.
Proof.
  intros (rows' & ds & records & Hs & _ & Ha & ->)%get_records_Ok Hrows.
  rewrite Hrows in Hs. injection Hs as <-.
  etrans; [apply sublist_length, window_sublist|].
  rewrite (Permutation_length (sort_records_Permutation _ _)).
  apply annotate_data in Ha. rewrite <- (length_map data), Ha.
  apply sublist_length, apply_duplicate_only_sublist.
Qed.

(** Without a window, a grouping or a duplicate-only restriction the
    retrieval returns as many records as the count query counts. *)
Lemma get_records_unrestricted t filter order_by db_function deduplicate
    directives rows :
  selected t filter db_function deduplicate = Ok rows →
  parse_order_by (column_names t) order_by = Ok directives →
  ∃ everything,
    get_records t None 0 filter order_by None JNull db_function deduplicate
      = Ok everything ∧
    length everything = length rows.
Proof.
  intros Hs Hd. unfold get_records. rewrite Hs, Hd.
  exists (window None 0
            (sort_records directives
               (map (λ r, {| data := r; metadata := None |}) rows))).
  split; [done|].
  rewrite window_all, (Permutation_length (sort_records_Permutation _ _)).
  by rewrite length_map.
Qed.

Lemma sa_num_records_Ok t filter db_function deduplicate n :
  sa_num_records t filter db_function deduplicate = Ok n →
  ∃ rows, selected t filter db_function deduplicate = Ok rows ∧
          n = Z.of_nat (length rows).
Proof.
  unfold sa_num_records.
  destruct (selected t filter db_function deduplicate) as [rows|]; [|done].
  intros [= <-]. by exists rows.
Qed.

Lemma env_lookup ts pk T :
  tables (env ts) !! pk = Some T →
  ∃ t, t ∈ ts ∧ t_id t = pk ∧ T = table t.
Proof.
  intros H%elem_of_list_to_map_2.
  apply list_elem_of_fmap in H as (t & [= -> ->] & ?). eauto.
Qed.

End model_facts.

(** ** The total count *)

(** The count of a page is what the count query of the table answers for
    the processed filter, the processed function and the deduplication
    flag. *)
Lemma list_count env request table_pk response :
  outcome (RecordViewSet.list env request table_pk) = Ok response →
  ∃ fp dp group_by t n page,
    outcome (_rewrite_db_function_specs env table_pk (vd_filter (GET request))
               (vd_db_function (GET request))) = Ok (fp, dp) ∧
    requested_group_by env (vd_grouping (GET request)) = Ok group_by ∧
    tables env !! table_pk = Some t ∧
    sa_num_records t fp dp (vd_deduplicate (GET request)) = Ok n ∧
    get_records t (get_limit request) (get_offset request) fp
      (vd_order_by (GET request)) group_by (vd_duplicate_only (GET request))
      dp (vd_deduplicate (GET request)) = Ok page ∧
    page_count (body response) = Some n ∧
    sa_num_records_called (Table_id t) fp dp (vd_deduplicate (GET request))
      ∈ trace (RecordViewSet.list env request table_pk) ∧
    get_records_called (Table_id t) (get_limit request) (get_offset request) fp
      (vd_order_by (GET request)) group_by (vd_duplicate_only (GET request))
      dp (vd_deduplicate (GET request))
      ∈ trace (RecordViewSet.list env request table_pk).
Proof.
  intros H.
  destruct (list_inv _ _ _ _ H)
    as (fp & dp & group_by & t & n & page & Hw & Hg & Ht & Hn & Hr).
  exists fp, dp, group_by, t, n, page. split_and!; try done.
  - rewrite (list_ok _ _ _ _ _ _ _ _ _ Hw Hg Ht Hn Hr) in H.
    by injection H as <-.
  - rewrite (list_ok _ _ _ _ _ _ _ _ _ Hw Hg Ht Hn Hr). cbn [trace].
    apply elem_of_app; right. unfold paginate_events.
    apply elem_of_app; right. repeat constructor.
  - rewrite (list_ok _ _ _ _ _ _ _ _ _ Hw Hg Ht Hn Hr). cbn [trace].
    apply elem_of_app; right. unfold paginate_events.
    apply elem_of_app; right. repeat constructor.
Qed.

(** C1. The count of a returned page is answered by the count query, which
    is given the filter, the function and the deduplication flag and
    nothing of the window. It is the number of records the retrieval
    returns for the same filter, function and deduplication flag when no
    limit, offset, grouping or duplicate-only restriction is applied, and
    it is the same for every other choice of limit and offset. *)
Theorem count_ignores_the_window ts request table_pk response :
  outcome (RecordViewSet.list (Model.env ts) request table_pk) = Ok response →
  (∃ t fp dp everything,
     tables (Model.env ts) !! table_pk = Some (Model.table t) ∧
     outcome (_rewrite_db_function_specs (Model.env ts) table_pk
                (vd_filter (GET request)) (vd_db_function (GET request)))
       = Ok (fp, dp) ∧
     sa_num_records_called (Model.t_id t) fp dp (vd_deduplicate (GET request))
       ∈ trace (RecordViewSet.list (Model.env ts) request table_pk) ∧
     Model.get_records t None 0 fp (vd_order_by (GET request)) None JNull dp
       (vd_deduplicate (GET request)) = Ok everything ∧
     page_count (body response) = Some (Z.of_nat (length everything))) ∧
  (∀ limit offset response',
     outcome (RecordViewSet.list (Model.env ts)
                {| query_limit := limit; query_offset := offset;
                   GET := GET request |} table_pk) = Ok response' →
     page_count (body response') = page_count (body response)).
Proof.
  intros H.
  destruct (list_count _ _ _ _ H)
    as (fp & dp & group_by & T & n & page & Hw & Hg & HT & Hn & Hr & Hc & Htr & _).
  destruct (env_lookup _ _ _ HT) as (t & _ & _ & ->).
  split.
  - cbn in Hn, Hr.
    apply sa_num_records_Ok in Hn as (rows & Hs & ->).
    apply get_records_Ok in Hr as (? & ds & _ & _ & Hd & _).
    destruct (get_records_unrestricted _ _ _ _ _ _ _ Hs Hd)
      as (everything & He & Hl).
    exists t, fp, dp, everything. split_and!; try done.
    by rewrite Hl.
  - intros limit offset response' H'.
    destruct (list_count _ _ _ _ H')
      as (fp' & dp' & ? & T' & n' & ? & Hw' & _ & HT' & Hn' & _ & Hc' & _).
    cbn [GET] in *. rewrite Hw in Hw'. injection Hw' as <- <-.
    rewrite HT in HT'. injection HT' as <-.
    rewrite Hn in Hn'. injection Hn' as <-. by rewrite Hc, Hc'.
Qed.

Lemma count_ignores_the_window_witness :
  let request limit offset :=
    Fixtures.request limit offset
      (Fixtures.params (Fixtures.center_is "Ames") JNull JNull) in
  let page :=
    {| page_count := Some 2; page_grouping := None;
       page_results := [[("id", VInt 3); ("Center", VStr "Ames")]] |} in
  outcome (RecordViewSet.list Fixtures.env (request (Integer 1) (Integer 1)) 1)
    = Ok {| status := 200; body := page |} ∧
  (∃ t fp dp everything,
     tables Fixtures.env !! 1 = Some (Model.table t) ∧
     outcome (_rewrite_db_function_specs Fixtures.env 1
                (Fixtures.center_is "Ames") JNull) = Ok (fp, dp) ∧
     sa_num_records_called (Model.t_id t) fp dp false
       ∈ trace (RecordViewSet.list Fixtures.env
                  (request (Integer 1) (Integer 1)) 1) ∧
     Model.get_records t None 0 fp (JList []) None JNull dp false
       = Ok everything ∧
     Some 2 = Some (Z.of_nat (length everything))) ∧
  (∀ limit offset response',
     outcome (RecordViewSet.list Fixtures.env (request limit offset) 1)
       = Ok response' →
     page_count (body response') = Some 2).
Proof.
  split; [reflexivity|].
  exact (count_ignores_the_window [Fixtures.centers]
           (Fixtures.request (Integer 1) (Integer 1)
              (Fixtures.params (Fixtures.center_is "Ames") JNull JNull))
           1 _ eq_refl).
Defined.

(** C9. The count query is called with the filter, the function and the
    deduplication flag; [duplicate_only] goes to the retrieval only. So
    the count of a page is the number of records selected without the
    duplicate-only restriction, the records retrievable under the
    restriction (over all windows) are never more than that, and they
    can be fewer: restricted to duplicated [Center] values, two of the
    three fixture records are retrievable while the count is 3. Whatever
    the collaborators do, two requests that differ in [duplicate_only]
    alone report the same count. *)
Theorem count_ignores_duplicate_only :
  (∀ ts request table_pk response,
     outcome (RecordViewSet.list (Model.env ts) request table_pk)
       = Ok response →
     ∃ t fp dp group_by everything,
       tables (Model.env ts) !! table_pk = Some (Model.table t) ∧
       sa_num_records_called (Model.t_id t) fp dp
         (vd_deduplicate (GET request))
         ∈ trace (RecordViewSet.list (Model.env ts) request table_pk) ∧
       get_records_called (Model.t_id t) (get_limit request)
         (get_offset request) fp (vd_order_by (GET request)) group_by
         (vd_duplicate_only (GET request)) dp (vd_deduplicate (GET request))
         ∈ trace (RecordViewSet.list (Model.env ts) request table_pk) ∧
       Model.get_records t None 0 fp (vd_order_by (GET request)) None JNull
         dp (vd_deduplicate (GET request)) = Ok everything ∧
       page_count (body response) = Some (Z.of_nat (length everything)) ∧
       ∀ retrievable,
         Model.get_records t None 0 fp (vd_order_by (GET request)) group_by
           (vd_duplicate_only (GET request)) dp
           (vd_deduplicate (GET request)) = Ok retrievable →
         (length retrievable ≤ length everything)%nat) ∧
  (∃ response retrievable,
     outcome (RecordViewSet.list Fixtures.env
                (Fixtures.request Absent Absent
                   (Fixtures.params JNull JNull (JList [JStr "Center"]))) 1)
       = Ok response ∧
     Model.get_records Fixtures.centers None 0 JNull (JList []) None
       (JList [JStr "Center"]) JNull false = Ok retrievable ∧
     page_count (body response) = Some 3 ∧
     length retrievable = 2%nat) ∧
  (∀ env request duplicate_only table_pk response response',
     outcome (RecordViewSet.list env request table_pk) = Ok response →
     outcome (RecordViewSet.list env
                {| query_limit := query_limit request;
                   query_offset := query_offset request;
                   GET := {| vd_filter := vd_filter (GET request);
                             vd_db_function := vd_db_function (GET request);
                             vd_deduplicate := vd_deduplicate (GET request);
                             vd_order_by := vd_order_by (GET request);
                             vd_grouping := vd_grouping (GET request);
                             vd_duplicate_only := duplicate_only |} |}
                table_pk) = Ok response' →
     page_count (body response') = page_count (body response)).
Proof.
  split_and!.
  - intros ts request table_pk response H.
    destruct (list_count _ _ _ _ H)
      as (fp & dp & group_by & T & n & page & Hw & Hg & HT & Hn & Hr & Hc
          & Hcount & Hget).
    destruct (env_lookup _ _ _ HT) as (t & _ & _ & ->).
    cbn in Hn, Hr.
    apply sa_num_records_Ok in Hn as (rows & Hs & ->).
    apply get_records_Ok in Hr as (? & ds & _ & _ & Hd & _).
    destruct (get_records_unrestricted _ _ _ _ _ _ _ Hs Hd)
      as (everything & He & Hl).
    exists t, fp, dp, group_by, everything. split_and!; try done.
    + by rewrite Hl.
    + intros retrievable Hret. rewrite Hl.
      by eapply get_records_length.
  - by eexists _, _.
  - intros env request duplicate_only table_pk response response' H H'.
    destruct (list_count _ _ _ _ H)
      as (fp & dp & ? & T & n & ? & Hw & _ & HT & Hn & _ & Hc & _).
    destruct (list_count _ _ _ _ H')
      as (fp' & dp' & ? & T' & n' & ? & Hw' & _ & HT' & Hn' & _ & Hc' & _).
    cbn [GET vd_filter vd_db_function vd_deduplicate] in *.
    rewrite Hw in Hw'. injection Hw' as <- <-.
    rewrite HT in HT'. injection HT' as <-.
    rewrite Hn in Hn'. injection Hn' as <-. by rewrite Hc, Hc'.
Qed.

Lemma count_ignores_duplicate_only_witness :
  let request :=
    Fixtures.request Absent Absent
      (Fixtures.params JNull JNull (JList [JStr "Center"])) in
  let run := RecordViewSet.list Fixtures.env request 1 in
  outcome run =
    Ok {| status := 200;
          body := {| page_count := Some 3; page_grouping := None;
                     page_results := [[("id", VInt 2); ("Center", VStr "Ames")];
                                      [("id", VInt 3); ("Center", VStr "Ames")]]
                  |} |} ∧
  ∃ t fp dp group_by everything,
    tables Fixtures.env !! 1 = Some (Model.table t) ∧
    sa_num_records_called (Model.t_id t) fp dp false ∈ trace run ∧
    get_records_called (Model.t_id t) (Some 50) 0 fp (JList []) group_by
      (JList [JStr "Center"]) dp false ∈ trace run ∧
    Model.get_records t None 0 fp (JList []) None JNull dp false
      = Ok everything ∧
    Some 3 = Some (Z.of_nat (length everything)) ∧
    ∀ retrievable,
      Model.get_records t None 0 fp (JList []) group_by
        (JList [JStr "Center"]) dp false = Ok retrievable →
      (length retrievable ≤ length everything)%nat.
Proof.
  split; [reflexivity|].
  exact (proj1 count_ignores_duplicate_only [Fixtures.centers]
           (Fixtures.request Absent Absent
              (Fixtures.params JNull JNull (JList [JStr "Center"])))
           1 _ eq_refl).
Defined.

(** ** The single pass that collects the groups *)

Section group_pass.
Import Model.

Lemma positions_S page gid i :
  positions page gid (S i) =
  (positions page gid i ++
   if decide (gid_at page i = Some gid) then [i] else [])%list.
Proof.
  unfold positions. by rewrite seq_S, filter_app.
Qed.

Lemma positions_lt page gid i j : j ∈ positions page gid i → (j < i)%nat.
Proof.
  unfold positions. rewrite list_elem_of_filter, elem_of_seq. lia.
Qed.

Lemma positions_gid page gid i j :
  j ∈ positions page gid i ↔ (j < i)%nat ∧ gid_at page j = Some gid.
Proof.
  unfold positions. rewrite list_elem_of_filter, elem_of_seq.
  split; intros []; split; (done || lia).
Qed.

Lemma positions_none page gid i :
  (∀ j, (j < i)%nat → gid_at page j ≠ Some gid) → positions page gid i = [].
Proof.
  intros H. destruct (positions page gid i) as [|j l] eqn:E; [done|].
  assert (Hj : j ∈ positions page gid i) by (rewrite E; constructor).
  apply positions_gid in Hj as [? ?]. by destruct (H j).
Qed.

Lemma add_to_groups_spec m i groups :
  ((group_id m ∉ groups.*1) ∧
   add_to_groups m i groups = groups ++ [(group_id m, new_group m i)]) ∨
  (∃ l1 g l2,
     groups = l1 ++ (group_id m, g) :: l2 ∧ (group_id m ∉ l1.*1) ∧
     add_to_groups m i groups = l1 ++ (group_id m, add_index g i) :: l2).
Proof.
  induction groups as [|[gid g] groups IH]; simpl.
  - left. split; [apply not_elem_of_nil|done].
  - case_bool_decide as Hgid.
    + subst gid. right. exists [], g, groups. split_and!; try done.
      apply not_elem_of_nil.
    + destruct IH as [[Hn ->]|(l1 & g' & l2 & -> & Hn & ->)].
      * left. split; [|done]. rewrite not_elem_of_cons. by split.
      * right. exists ((gid, g) :: l1), g', l2. split_and!; try done.
        simpl. rewrite not_elem_of_cons. by split.
Qed.

Lemma gid_at_lookup page i r :
  page !! i = Some r → gid_at page i = group_id <$> metadata r.
Proof. unfold gid_at. intros ->. simpl. by destruct (metadata r). Qed.

Lemma pass_inv_nil page : pass_inv page 0 [].
Proof.
  split; simpl.
  - constructor.
  - intros ?? H. by apply elem_of_nil in H.
  - lia.
  - constructor.
Qed.

Lemma pass_inv_skip page i groups r :
  page !! i = Some r → metadata r = None →
  pass_inv page i groups → pass_inv page (S i) groups.
Proof.
  intros Hr Hm [Hk Hi Hf Ho].
  assert (Hg : gid_at page i = None) by (by rewrite (gid_at_lookup _ _ _ Hr), Hm).
  split; try done.
  - intros gid g Hin. destruct (Hi _ _ Hin) as [-> ?]. split; [|done].
    rewrite positions_S, Hg. case_decide; [done|]. by rewrite app_nil_r.
  - intros j gid Hj Hgid. destruct (decide (j = i)) as [->|];
      [congruence|]. apply (Hf j); [lia|done].
Qed.

Lemma firsts_lt page i groups x :
  pass_inv page i groups → x ∈ firsts groups → (x < i)%nat.
Proof.
  intros [_ Hi _ _] ([gid g] & -> & Hin)%list_elem_of_fmap.
  destruct (Hi _ _ Hin) as [Hri (j & _ & _ & Hh & _)]. simpl.
  rewrite Hh. simpl. apply (positions_lt page gid).
  rewrite <- Hri. by apply head_Some_elem_of.
Qed.

Lemma pass_inv_add page i groups r m :
  page !! i = Some r → metadata r = Some m →
  pass_inv page i groups → pass_inv page (S i) (add_to_groups m i groups).
Proof.
  intros Hr Hm Hinv.
  assert (Hg : gid_at page i = Some (group_id m))
    by (by rewrite (gid_at_lookup _ _ _ Hr), Hm).
  pose proof Hinv as [Hk Hi Hf Ho].
  destruct (add_to_groups_spec m i groups)
    as [[Hn ->]|(l1 & g & l2 & -> & Hn & ->)].
  - (* a group not seen before *)
    split.
    + rewrite fmap_app. apply NoDup_app. split_and!; [done| |].
      * intros x Hx [->|[]%elem_of_nil]%elem_of_cons. done.
      * apply NoDup_singleton.
    + intros gid g [Hin|[[= -> ->]|[]%elem_of_nil]%elem_of_cons]%elem_of_app.
      * destruct (Hi _ _ Hin) as [-> ?]. split; [|done].
        rewrite positions_S, Hg. case_decide as E; [|by rewrite app_nil_r].
        injection E as <-. destruct Hn.
        apply list_elem_of_fmap. by exists (group_id m, g).
      * split.
        -- rewrite positions_S, Hg, decide_True by done.
           rewrite positions_none; [done|].
           intros j Hj E. by destruct Hn; apply (Hf j).
        -- by exists i, r, m.
    + intros j gid Hj Hgid. rewrite fmap_app, elem_of_app.
      destruct (decide (j = i)) as [->|].
      * right. rewrite Hg in Hgid. injection Hgid as <-. constructor.
      * left. apply (Hf j); [lia|done].
    + unfold firsts. rewrite fmap_app. apply StronglySorted_app_2; [|done|].
      * intros x1 x2 Hx1 [->|[]%elem_of_nil]%elem_of_cons. simpl.
        by apply (firsts_lt page i (groups)).
      * repeat constructor.
  - (* a group seen before *)
    assert (Hgin : (group_id m, g) ∈ l1 ++ (group_id m, g) :: l2)
      by (apply elem_of_app; right; constructor).
    destruct (Hi _ _ Hgin) as [Hri (j0 & r0 & m0 & Hh & Hd)].
    assert (Hhead : head (result_indices (add_index g i)) = Some j0)
      by (simpl; rewrite head_app; by rewrite Hh).
    assert (Hother : ∀ gid g', (gid, g') ∈ l1 ∨ (gid, g') ∈ l2 →
                     gid ≠ group_id m).
    { rewrite fmap_app, fmap_cons in Hk. simpl in Hk.
      apply NoDup_app in Hk as (_ & Hk1 & [Hk2 _]%NoDup_cons).
      intros gid g' [Hin|Hin] ->.
      - apply (Hk1 (group_id m)); [|constructor].
        apply list_elem_of_fmap. by exists (group_id m, g').
      - apply Hk2. apply list_elem_of_fmap. by exists (group_id m, g'). }
    split.
    + by rewrite fmap_app, fmap_cons in *.
    + intros gid g' [Hin|[[= -> ->]|Hin]%elem_of_cons]%elem_of_app.
      * assert (Hin' : (gid, g') ∈ l1 ++ (group_id m, g) :: l2)
          by (apply elem_of_app; by left).
        destruct (Hi _ _ Hin') as [-> ?]. split; [|done].
        rewrite positions_S, Hg. case_decide as E; [|by rewrite app_nil_r].
        injection E as <-. by destruct (Hother _ _ (or_introl Hin)).
      * split.
        -- simpl. by rewrite Hri, positions_S, Hg, decide_True.
        -- exists j0, r0, m0. by rewrite Hhead.
      * assert (Hin' : (gid, g') ∈ l1 ++ (group_id m, g) :: l2)
          by (apply elem_of_app; right; by constructor).
        destruct (Hi _ _ Hin') as [-> ?]. split; [|done].
        rewrite positions_S, Hg. case_decide as E; [|by rewrite app_nil_r].
        injection E as <-. by destruct (Hother _ _ (or_intror Hin)).
    + intros j gid Hj Hgid. rewrite fmap_app, fmap_cons in *. simpl in *.
      destruct (decide (j = i)) as [->|].
      * rewrite Hg in Hgid. injection Hgid as <-.
        apply elem_of_app; right; constructor.
      * apply (Hf j); [lia|done].
    + unfold firsts in *. rewrite fmap_app, fmap_cons in *. simpl in *.
      by rewrite Hhead, <- Hh.
Qed.

Lemma collect_groups_inv page rest :
  ∀ i groups,
    drop i page = rest → pass_inv page i groups →
    pass_inv page (i + length rest) (collect_groups i rest groups).
Proof.
  induction rest as [|r rest IH]; intros i groups Hd Hinv; simpl.
  - by rewrite Nat.add_0_r.
  - assert (Hr : page !! i = Some r).
    { rewrite <- (Nat.add_0_r i), <- lookup_drop, Hd. done. }
    assert (Hd' : drop (S i) page = rest).
    { rewrite (drop_S _ _ _ Hr) in Hd. by injection Hd. }
    rewrite <- Nat.add_succ_comm. apply IH; [done|].
    destruct (metadata r) as [m|] eqn:Hm.
    + by eapply pass_inv_add.
    + by eapply pass_inv_skip.
Qed.

Lemma collected page :
  pass_inv page (length page) (collect_groups 0 page []).
Proof.
  apply (collect_groups_inv page page 0 []); [done|apply pass_inv_nil].
Qed.

Lemma group_entry page g :
  g ∈ groups_of_page page →
  ∃ gid, result_indices g = positions page gid (length page) ∧
         described page gid g.
Proof.
  intros ([gid g'] & -> & Hin)%list_elem_of_fmap.
  exists gid. by apply (inv_indices _ _ _ (collected page)).
Qed.

Lemma group_of_position page i gid :
  (i < length page)%nat → gid_at page i = Some gid →
  ∃ g, g ∈ groups_of_page page ∧
       result_indices g = positions page gid (length page).
Proof.
  intros Hi Hg.
  pose proof (inv_found _ _ _ (collected page) i gid Hi Hg) as Hin.
  apply list_elem_of_fmap in Hin as ([gid' g] & -> & Hin).
  exists g. split.
  - apply list_elem_of_fmap. by exists (gid', g).
  - by apply (inv_indices _ _ _ (collected page)).
Qed.

Lemma StronglySorted_lt_seq j n : StronglySorted lt (seq j n).
Proof.
  revert j. induction n as [|n IH]; intros j; simpl; constructor; [done|].
  apply Forall_forall. intros x Hx%list_elem_of_In%in_seq. lia.
Qed.

Lemma StronglySorted_filter {A : Type} (R : relation A) (P : A → Prop)
    `{∀ x, Decision (P x)} (l : list A) :
  StronglySorted R l → StronglySorted R (filter P l).
Proof.
  induction 1 as [|x l Hl IH Hx]; [constructor|].
  rewrite filter_cons. case_decide; [|done].
  constructor; [done|].
  apply Forall_forall. intros y [_ Hy]%list_elem_of_filter.
  by eapply Forall_forall.
Qed.

Lemma positions_sorted page gid i : StronglySorted lt (positions page gid i).
Proof. apply StronglySorted_filter, StronglySorted_lt_seq. Qed.

Lemma positions_NoDup page gid i : NoDup (positions page gid i).
Proof. apply NoDup_filter, NoDup_seq. Qed.

Lemma indices_NoDup page n (acc : list (Z * group)) :
  NoDup acc.*1 →
  (∀ gid g, (gid, g) ∈ acc → result_indices g = positions page gid n) →
  NoDup (mjoin (result_indices <$> acc.*2)).
Proof.
  induction acc as [|[gid g] acc IH]; simpl; intros Hk Hi; [constructor|].
  apply NoDup_cons in Hk as [Hgid Hk].
  apply NoDup_app. split_and!.
  - rewrite (Hi gid g) by constructor. apply positions_NoDup.
  - intros j Hj (l & Hl & Hin)%list_elem_of_join.
    apply list_elem_of_fmap in Hin as (g' & -> & Hin).
    apply list_elem_of_fmap in Hin as ([gid' g''] & -> & Hin). simpl in *.
    rewrite (Hi gid g) in Hj by constructor.
    rewrite (Hi gid' g'') in Hl by (by constructor).
    apply positions_gid in Hj as [_ Hj]. apply positions_gid in Hl as [_ Hl].
    rewrite Hj in Hl. injection Hl as <-.
    apply Hgid. apply list_elem_of_fmap. by exists (gid, g'').
  - apply IH; [done|]. intros gid' g' Hin. apply Hi. by constructor.
Qed.

(** Every position of an annotated page is in the group of its record, and
    in no other. *)
Lemma groups_Permutation page :
  (∀ r, r ∈ page → is_Some (metadata r)) →
  mjoin (result_indices <$> groups_of_page page) ≡ₚ seq 0 (length page).
Proof.
  intros Hall. pose proof (collected page) as [Hk Hi Hf _].
  apply NoDup_Permutation.
  - apply (indices_NoDup page (length page)); [done|].
    intros gid g Hin. by apply Hi.
  - apply NoDup_seq.
  - intros j. rewrite elem_of_seq, list_elem_of_join. split.
    + intros (l & Hl & Hin).
      apply list_elem_of_fmap in Hin as (g & -> & Hin).
      apply list_elem_of_fmap in Hin as ([gid g'] & -> & Hin). simpl in *.
      destruct (Hi _ _ Hin) as [E _]. rewrite E in Hl.
      apply positions_lt in Hl. lia.
    + intros [_ Hj]. simpl in Hj.
      destruct (lookup_lt_is_Some_2 page j Hj) as [r Hr].
      destruct (Hall r) as [m Hm]; [by eapply list_elem_of_lookup_2|].
      assert (Hg : gid_at page j = Some (group_id m))
        by (by rewrite (gid_at_lookup _ _ _ Hr), Hm).
      destruct (group_of_position page j _ Hj Hg) as (g & Hin & E).
      exists (result_indices g). split.
      * rewrite E. by apply positions_gid.
      * by apply list_elem_of_fmap_2.
Qed.

(** Two positions are in one group exactly when their records carry the
    same group id. *)
Lemma same_group_gid page i j gi gj :
  (i < length page)%nat → (j < length page)%nat →
  gid_at page i = Some gi → gid_at page j = Some gj →
  same_group (groups_of_page page) i j ↔ gi = gj.
Proof.
  intros Hi Hj Hgi Hgj. split.
  - intros (g & Hin & Hig & Hjg).
    destruct (group_entry _ _ Hin) as (gid & E & _). rewrite E in Hig, Hjg.
    apply positions_gid in Hig as [_ Hig]. apply positions_gid in Hjg as [_ Hjg].
    congruence.
  - intros <-. destruct (group_of_position page i gi Hi Hgi) as (g & Hin & E).
    exists g. split; [done|]. rewrite E. split; by apply positions_gid.
Qed.

Lemma groups_order page :
  StronglySorted lt
    ((λ g, default 0%nat (head (result_indices g))) <$> groups_of_page page).
Proof.
  pose proof (inv_order _ _ _ (collected page)) as H.
  unfold firsts, groups_of_page in *. by rewrite <- list_fmap_compose.
Qed.

End group_pass.

(** ** Distinct grouping on the table model *)

Section distinct_grouping.
Import Model.

Lemma process_groups page :
  (∃ r, r ∈ page ∧ is_Some (metadata r)) →
  snd (process_annotated_records page) = Some (groups_of_page page).
Proof.
  intros (r & Hin & Hm). unfold process_annotated_records. simpl.
  assert (existsb (λ r, bool_decide (is_Some (metadata r))) page = true)
    as ->; [|done].
  apply existsb_exists. exists r. split; [by apply list_elem_of_In|].
  by apply bool_decide_eq_true.
Qed.

Lemma index_of_inj k1 k2 keys :
  k1 ∈ keys → k2 ∈ keys → index_of k1 keys = index_of k2 keys → k1 = k2.
Proof.
  induction keys as [|k keys IH]; simpl; [by intros []%elem_of_nil|].
  intros H1 H2. repeat case_bool_decide; try congruence.
  intros [=]. apply IH; [| |done].
  - by apply elem_of_cons in H1 as [|].
  - by apply elem_of_cons in H2 as [|].
Qed.

(** The records of a page retrieved under distinct grouping: each is a
    selected row with its annotation. *)
Lemma distinct_page t limit offset filter order_by gb duplicate_only
    db_function deduplicate page :
  mode gb = "distinct" →
  get_records t limit offset filter order_by (Some gb) duplicate_only
    db_function deduplicate = Ok page →
  ∃ rows,
    selected t filter db_function deduplicate = Ok rows ∧
    ∀ r, r ∈ page →
      ∃ x, x ∈ apply_duplicate_only duplicate_only rows ∧
           r = {| data := x;
                  metadata := Some (distinct_metadata t (columns gb)
                                      (apply_duplicate_only duplicate_only
                                         rows) x) |}.
Proof.
  intros Hmode (rows & ds & records & Hs & _ & Ha & ->)%get_records_Ok.
  exists rows. split; [done|]. intros r Hr.
  apply (sublist_subseteq _ _ (window_sublist _ _ _)) in Hr.
  rewrite sort_records_Permutation in Hr.
  unfold annotate in Ha. destruct (forallb _ _); [|done].
  rewrite Hmode in Ha. simpl in Ha. injection Ha as <-.
  apply list_elem_of_fmap in Hr as (x & -> & Hx). by exists x.
Qed.

Lemma distinct_gid_key t cols rows x y :
  x ∈ rows → y ∈ rows →
  group_id (distinct_metadata t cols rows x)
    = group_id (distinct_metadata t cols rows y)
  ↔ key_of cols x = key_of cols y.
Proof.
  intros Hx Hy. simpl. split; [|by intros ->].
  intros H. apply (index_of_inj _ _ (map (key_of cols) rows)).
  - by apply (list_elem_of_fmap_2 (key_of cols)).
  - by apply (list_elem_of_fmap_2 (key_of cols)).
  - lia.
Qed.

End distinct_grouping.

(** C7. For a non-empty page retrieved under distinct grouping, the
    [result_indices] of the groups, put together, are the positions
    [0 .. page size - 1], each exactly once; the indices of a group are
    ascending; two positions are in one group exactly when their records
    have the same tuple of values on the grouped columns; and the groups
    come in the order of their first members. *)
Theorem distinct_groups_partition_the_page t limit offset filter order_by gb
    duplicate_only db_function deduplicate page :
  mode gb = "distinct" →
  Model.get_records t limit offset filter order_by (Some gb) duplicate_only
    db_function deduplicate = Ok page →
  page ≠ [] →
  ∃ groups,
    snd (Model.process_annotated_records page) = Some groups ∧
    mjoin (result_indices <$> groups) ≡ₚ seq 0 (length page) ∧
    (∀ g, g ∈ groups →
       result_indices g ≠ [] ∧ StronglySorted lt (result_indices g)) ∧
    (∀ i j ri rj,
       page !! i = Some ri → page !! j = Some rj →
       same_group groups i j
       ↔ Model.key_of (columns gb) (data ri)
         = Model.key_of (columns gb) (data rj)) ∧
    StronglySorted lt
      ((λ g, default 0%nat (head (result_indices g))) <$> groups).
Proof.
  intros Hmode Hget Hne.
  destruct (distinct_page _ _ _ _ _ _ _ _ _ _ Hmode Hget) as (rows & _ & Hpage).
  assert (Hall : ∀ r, r ∈ page → is_Some (metadata r)).
  { intros r (x & _ & ->)%Hpage. by eexists. }
  exists (groups_of_page page). split_and!.
  - apply process_groups. destruct page as [|r page]; [done|].
    exists r. split; [constructor|]. apply Hall. constructor.
  - by apply groups_Permutation.
  - intros g (gid & E & (j & _ & _ & Hh & _))%group_entry. split.
    + intros Hnil. by rewrite Hnil in Hh.
    + rewrite E. apply positions_sorted.
  - intros i j ri rj Hi Hj.
    destruct (Hpage ri) as (x & Hx & Ex); [by eapply list_elem_of_lookup_2|].
    destruct (Hpage rj) as (y & Hy & Ey); [by eapply list_elem_of_lookup_2|].
    subst ri rj. simpl.
    rewrite <- (distinct_gid_key t _ _ _ _ Hx Hy).
    apply same_group_gid.
    + apply lookup_lt_is_Some. eauto.
    + apply lookup_lt_is_Some. eauto.
    + by rewrite (gid_at_lookup _ _ _ Hi).
    + by rewrite (gid_at_lookup _ _ _ Hj).
  - apply groups_order.
Qed.

Lemma distinct_groups_partition_the_page_witness :
  let gb := {| columns := ["Center"]; mode := "distinct";
               num_groups := None; ranged := false |} in
  let record n name gid k :=
    {| data := [("id", VInt n); ("Center", VStr name)];
       metadata := Some {| group_id := gid; count := k;
                           first_value := [("Center", VStr name)];
                           last_value := [("Center", VStr name)] |} |} in
  let page := [record 1 "Kennedy" 1 1; record 2 "Ames" 2 2;
               record 3 "Ames" 2 2] in
  (mode gb = "distinct" ∧
   Model.get_records Fixtures.centers (Some 50) 0 JNull (JList []) (Some gb)
     JNull JNull false = Ok page ∧
   page ≠ []) ∧
  ∃ groups,
    snd (Model.process_annotated_records page) = Some groups ∧
    mjoin (result_indices <$> groups) ≡ₚ seq 0 (length page) ∧
    (∀ g, g ∈ groups →
       result_indices g ≠ [] ∧ StronglySorted lt (result_indices g)) ∧
    (∀ i j ri rj,
       page !! i = Some ri → page !! j = Some rj →
       same_group groups i j
       ↔ Model.key_of (columns gb) (data ri)
         = Model.key_of (columns gb) (data rj)) ∧
    StronglySorted lt
      ((λ g, default 0%nat (head (result_indices g))) <$> groups).
Proof.
  split; [by split_and!|].
  by apply (distinct_groups_partition_the_page Fixtures.centers (Some 50) 0
              JNull (JList [])
              {| columns := ["Center"]; mode := "distinct";
                 num_groups := None; ranged := false |} JNull JNull false).
Defined.

(** The scenario of section 8: Kennedy, Ames, Ames grouped on [Center]
    gives a group at position 0 and a group at positions 1 and 2. *)
Example distinct_grouping_scenario :
  map (λ g, (g_count g, result_indices g)) <$>
    groups_in (RecordViewSet.list Fixtures.env
                 (Fixtures.request Absent Absent
                    (Fixtures.params JNull Fixtures.by_center JNull)) 1)
  = Some [(1, [0%nat]); (2, [1%nat; 2%nat])].
Proof. reflexivity. Qed.

(** The grouping post-processing turns the annotated page of
    test_record_list_groups into the groups the test expects: in the order
    of their first members, with the counts of the annotation, which are
    not the numbers of members in the page. *)
Example fixture_groups_of_the_test :
  snd (Model.process_annotated_records Fixtures.nasa_page)
    = Some Fixtures.nasa_expected_groups ∧
  map (λ g, (g_count g, length (result_indices g)))
    Fixtures.nasa_expected_groups
    = [(87, 1%nat); (138, 98%nat); (21, 1%nat)].
Proof. split; vm_compute; reflexivity. Qed.

(** The scenario of section 8 for deduplication: A, A, B, C, C, C with
    [deduplicate] and a limit of 2 gives A, B and a count of 3. *)
Example deduplicate_before_window :
  outcome (RecordViewSet.list (Model.env [Fixtures.letters])
             {| query_limit := Integer 2; query_offset := Integer 0;
                GET := {| vd_filter := JNull; vd_db_function := JNull;
                          vd_deduplicate := true; vd_order_by := JList [];
                          vd_grouping := JDict [];
                          vd_duplicate_only := JNull |} |} 2)
  = Ok {| status := 200;
          body := {| page_count := Some 3; page_grouping := None;
                     page_results := [[("letter", VStr "A")];
                                      [("letter", VStr "B")]] |} |}.
Proof. reflexivity. Qed.

(** The claim C6 as it is written fails on the request of
    test_record_list_groups (a page of 100 grouped on [Center], lines
    430-452 of the test file) with the groups that the test expects
    (lines 266-294): the first group has a count of 87 and the single
    page position 0, and the counts add up to 246 on a page of 100. *)
Lemma group_count_is_not_page_local :
  let run := RecordViewSet.list Fixtures.nasa_env Fixtures.nasa_request 1 in
  (∃ response,
     outcome run = Ok response ∧ status response = 200 ∧
     page_count (body response) = Some 1393 ∧
     length (page_results (body response)) = 100%nat) ∧
  groups_in run = Some Fixtures.nasa_expected_groups ∧
  map (λ g, (g_count g, length (result_indices g)))
    Fixtures.nasa_expected_groups
    = [(87, 1%nat); (138, 98%nat); (21, 1%nat)] ∧
  ¬ (∀ groups g,
       groups_in run = Some groups → g ∈ groups →
       g_count g = Z.of_nat (length (result_indices g))).
Proof.
  assert (Hg : groups_in (RecordViewSet.list Fixtures.nasa_env
                            Fixtures.nasa_request 1)
               = Some Fixtures.nasa_expected_groups)
    by (vm_compute; reflexivity).
  split_and!.
  - eexists. split; [vm_compute; reflexivity|]. by split_and!.
  - exact Hg.
  - vm_compute; reflexivity.
  - intros H. specialize (H _ _ Hg (list_elem_of_here _ _)). done.
Qed.

(** C6, amended. When grouping is requested and the window is not empty,
    the group post-processing is called once, on the records of the
    returned window and on nothing else, and the groups of the page are
    what it returns for them. With the post-processing of section 4.3,
    the groups and their [result_indices] are page-local: every index is
    a position in the page. The count, first value and last value of a
    group are copied from the annotation that the retrieval attached to
    the record at the first position of the group; they are not computed
    from the page, and a count need not be the number of positions of the
    group. *)
Theorem groups_come_from_the_window env request table_pk fp dp t gb n page :
  outcome (_rewrite_db_function_specs env table_pk
             (vd_filter (GET request)) (vd_db_function (GET request)))
    = Ok (fp, dp) →
  requested_group_by env (vd_grouping (GET request)) = Ok (Some gb) →
  tables env !! table_pk = Some t →
  sa_num_records t fp dp (vd_deduplicate (GET request)) = Ok n →
  get_records t (get_limit request) (get_offset request) fp
    (vd_order_by (GET request)) (Some gb) (vd_duplicate_only (GET request))
    dp (vd_deduplicate (GET request)) = Ok page →
  page ≠ [] →
  let run := RecordViewSet.list env request table_pk in
  (∀ rs, process_annotated_records_called rs ∈ trace run ↔ rs = page) ∧
  get_records_called (Table_id t) (get_limit request) (get_offset request)
    fp (vd_order_by (GET request)) (Some gb)
    (vd_duplicate_only (GET request)) dp (vd_deduplicate (GET request))
    ∈ trace run ∧
  groups_in run = snd (process_annotated_records env page) ∧
  (process_annotated_records env = Model.process_annotated_records →
   ∀ groups g,
     groups_in run = Some groups → g ∈ groups →
     (∀ i, i ∈ result_indices g → (i < length page)%nat) ∧
     ∃ j r m,
       head (result_indices g) = Some j ∧ page !! j = Some r ∧
       metadata r = Some m ∧
       g_count g = count m ∧ g_first_value g = first_value m ∧
       g_last_value g = last_value m).
Proof.
  intros Hw Hg Ht Hn Hr Hne run.
  pose proof (list_ok env request table_pk fp dp (Some gb) t n page
                Hw Hg Ht Hn Hr) as Hrun.
  fold run in Hrun.
  assert (Hgroups : groups_in run = snd (process_annotated_records env page)).
  { unfold groups_in. rewrite Hrun. cbn [outcome body page_grouping].
    unfold grouping_of, groups_of. cbn [gd_groups]. by destruct page. }
  split_and!; [| |done|].
  - intros rs. rewrite Hrun. cbn [trace].
    rewrite elem_of_app, paginate_events_process. split.
    + intros [H|[_ ->]]; [|done]. by apply rewrite_specs_trace in H.
    + intros ->. by right.
  - rewrite Hrun. cbn [trace]. apply elem_of_app; right.
    unfold paginate_events. apply elem_of_app; right. repeat constructor.
  - intros Hp groups g Hgs Hin. rewrite Hgroups, Hp in Hgs.
    unfold Model.process_annotated_records in Hgs. cbn [snd] in Hgs.
    destruct (existsb _ page); [|done]. injection Hgs as <-.
    apply group_entry in Hin
      as (gid & E & (j & r & m & Hh & Hj & Hm & _ & Hc & Hf & Hl)).
    split.
    + intros i Hi. rewrite E in Hi. by apply positions_gid in Hi as [? _].
    + by exists j, r, m.
Qed.

Lemma groups_come_from_the_window_witness :
  let request :=
    Fixtures.request (Integer 1) (Integer 1)
      (Fixtures.params JNull Fixtures.by_center JNull) in
  let gb := {| columns := ["Center"]; mode := "distinct";
               num_groups := None; ranged := false |} in
  let ames := {| group_id := 2; count := 2;
                 first_value := [("Center", VStr "Ames")];
                 last_value := [("Center", VStr "Ames")] |} in
  let page := [{| data := [("id", VInt 2); ("Center", VStr "Ames")];
                  metadata := Some ames |}] in
  let t := Model.table Fixtures.centers in
  let run := RecordViewSet.list Fixtures.env request 1 in
  (outcome (_rewrite_db_function_specs Fixtures.env 1 JNull JNull)
     = Ok (JNull, JNull) ∧
   requested_group_by Fixtures.env Fixtures.by_center = Ok (Some gb) ∧
   tables Fixtures.env !! 1 = Some t ∧
   sa_num_records t JNull JNull false = Ok 3 ∧
   get_records t (Some 1) 1 JNull (JList []) (Some gb) JNull JNull false
     = Ok page ∧
   page ≠ [] ∧
   process_annotated_records Fixtures.env = Model.process_annotated_records) ∧
  (∀ rs, process_annotated_records_called rs ∈ trace run ↔ rs = page) ∧
  groups_in run = snd (Model.process_annotated_records page) ∧
  ∀ groups g,
    groups_in run = Some groups → g ∈ groups →
    (∀ i, i ∈ result_indices g → (i < length page)%nat) ∧
    ∃ j r m,
      head (result_indices g) = Some j ∧ page !! j = Some r ∧
      metadata r = Some m ∧
      g_count g = count m ∧ g_first_value g = first_value m ∧
      g_last_value g = last_value m.
Proof.
  split; [by split_and!|].
  pose proof (groups_come_from_the_window Fixtures.env
                (Fixtures.request (Integer 1) (Integer 1)
                   (Fixtures.params JNull Fixtures.by_center JNull))
                1 JNull JNull (Model.table Fixtures.centers)
                {| columns := ["Center"]; mode := "distinct";
                   num_groups := None; ranged := false |} 3
                [{| data := [("id", VInt 2); ("Center", VStr "Ames")];
                    metadata :=
                      Some {| group_id := 2; count := 2;
                              first_value := [("Center", VStr "Ames")];
                              last_value := [("Center", VStr "Ames")] |} |}]
                eq_refl eq_refl eq_refl eq_refl eq_refl ltac:(done))
    as (Hcalls & _ & Hgroups & Hstats).
  split_and!; [exact Hcalls|exact Hgroups|exact (Hstats eq_refl)].
Defined.

(** ** More on [RecordViewSet.list] *)

(** A request enters [list] through its parsed limit and offset and its
    validated data only. *)
Lemma list_window_congruence env request request' table_pk :
  get_limit request = get_limit request' →
  get_offset request = get_offset request' →
  GET request = GET request' →
  RecordViewSet.list env request table_pk
    = RecordViewSet.list env request' table_pk.
Proof.
  intros Hl Ho HG.
  unfold RecordViewSet.list, TableLimitOffsetGroupPagination.paginate_queryset,
    TableLimitOffsetPagination.paginate_queryset.
  by rewrite Hl, Ho, HG.
Qed.

(** X1. A limit above the ceiling gives the run of the ceiling itself; a
    limit that is zero, negative or not an integer gives the run of an
    absent limit; an offset that is negative or not an integer gives the
    run of an absent offset, which is that of offset 0: the same calls
    with the same arguments, and the same response or error. *)
Theorem list_sees_the_parsed_window env vd table_pk limit offset n :
  (500 ≤ n →
   RecordViewSet.list env
     {| query_limit := Integer n; query_offset := offset; GET := vd |} table_pk
   = RecordViewSet.list env
       {| query_limit := Integer 500; query_offset := offset; GET := vd |}
       table_pk) ∧
  (n ≤ 0 →
   RecordViewSet.list env
     {| query_limit := Integer n; query_offset := offset; GET := vd |} table_pk
   = RecordViewSet.list env
       {| query_limit := Absent; query_offset := offset; GET := vd |}
       table_pk) ∧
  RecordViewSet.list env
    {| query_limit := NotAnInteger; query_offset := offset; GET := vd |}
    table_pk
  = RecordViewSet.list env
      {| query_limit := Absent; query_offset := offset; GET := vd |} table_pk ∧
  (n ≤ 0 →
   RecordViewSet.list env
     {| query_limit := limit; query_offset := Integer n; GET := vd |} table_pk
   = RecordViewSet.list env
       {| query_limit := limit; query_offset := Integer 0; GET := vd |}
       table_pk) ∧
  RecordViewSet.list env
    {| query_limit := limit; query_offset := NotAnInteger; GET := vd |}
    table_pk
  = RecordViewSet.list env
      {| query_limit := limit; query_offset := Absent; GET := vd |} table_pk ∧
  RecordViewSet.list env
    {| query_limit := limit; query_offset := Absent; GET := vd |} table_pk
  = RecordViewSet.list env
      {| query_limit := limit; query_offset := Integer 0; GET := vd |}
      table_pk.
Proof.
  split_and!; intros; apply list_window_congruence;
    rewrite ?get_limit_value, ?get_offset_value; cbn [query_limit query_offset GET];
    try done.
  all: destruct (Z.ltb_spec 0 n); try lia; try done.
  f_equal. change (0 <? 500) with true. cbn. lia.
Qed.

Lemma list_sees_the_parsed_window_witness :
  let run limit offset :=
    RecordViewSet.list Fixtures.env
      {| query_limit := limit; query_offset := offset;
         GET := Fixtures.params JNull Fixtures.by_center JNull |} 1 in
  (500 ≤ 1000 ∧ -3 ≤ 0) ∧
  run (Integer 1000) Absent = run (Integer 500) Absent ∧
  run (Integer (-3)) Absent = run Absent Absent ∧
  run Absent (Integer (-3)) = run Absent (Integer 0).
Proof.
  split; [lia|].
  pose proof (list_sees_the_parsed_window Fixtures.env
                (Fixtures.params JNull Fixtures.by_center JNull) 1
                Absent Absent) as H.
  split_and!.
  - by apply (H 1000).
  - by apply (H (-3)).
  - by apply (H (-3)).
Defined.

(** The grouping paginator, step by step. *)
Lemma group_paginate_run env self request table_id filter order_by grouping
    duplicate_only db_function deduplicate :
  TableLimitOffsetGroupPagination.paginate_queryset env self request table_id
    filter order_by grouping duplicate_only db_function deduplicate =
  match requested_group_by env grouping with
  | Raise e => mkM (grouping_events grouping) (Raise e)
  | Ok group_by =>
      match tables env !! table_id with
      | None =>
          mkM (grouping_events grouping ++ [get_table_or_404_called table_id])
            (Raise NotFound)
      | Some t =>
          match sa_num_records t filter db_function deduplicate with
          | Raise e =>
              mkM (grouping_events grouping ++
                   [get_table_or_404_called table_id;
                    sa_num_records_called (Table_id t) filter db_function
                      deduplicate])
                (Raise e)
          | Ok n =>
              match get_records t (get_limit request) (get_offset request)
                      filter order_by group_by duplicate_only db_function
                      deduplicate with
              | Raise e =>
                  mkM (grouping_events grouping ++
                       [get_table_or_404_called table_id;
                        sa_num_records_called (Table_id t) filter db_function
                          deduplicate;
                        get_records_called (Table_id t) (get_limit request)
                          (get_offset request) filter order_by group_by
                          duplicate_only db_function deduplicate])
                    (Raise e)
              | Ok records =>
                  mkM (paginate_events t request table_id filter order_by
                         grouping group_by duplicate_only db_function
                         deduplicate records)
                    (Ok (processed_of env records,
                         {| self_limit := get_limit request;
                            self_offset := Some (get_offset request);
                            self_count := Some n;
                            self_grouping :=
                              grouping_of env group_by records |}))
              end
          end
      end
  end.
Proof.
  destruct (requested_group_by env grouping) as [group_by|e] eqn:Hg.
  - destruct (tables env !! table_id) as [t|] eqn:Ht.
    + destruct (sa_num_records t filter db_function deduplicate) as [n|e]
        eqn:Hn.
      * destruct (get_records t (get_limit request) (get_offset request)
                    filter order_by group_by duplicate_only db_function
                    deduplicate) as [records|e] eqn:Hr.
        { by apply group_paginate_ok. }
        unfold TableLimitOffsetGroupPagination.paginate_queryset.
        rewrite group_by_run, Hg, bind_mk, table_paginate_run, Ht, Hn, Hr.
        done.
      * unfold TableLimitOffsetGroupPagination.paginate_queryset.
        rewrite group_by_run, Hg, bind_mk, table_paginate_run, Ht, Hn.
        done.
    + unfold TableLimitOffsetGroupPagination.paginate_queryset.
      rewrite group_by_run, Hg, bind_mk, table_paginate_run, Ht. done.
  - unfold TableLimitOffsetGroupPagination.paginate_queryset.
    by rewrite group_by_run, Hg.
Qed.

(** [list], step by step: the rewriting pass, then the paginator, with
    the [except] clauses around both. *)
Lemma list_run env request table_pk :
  RecordViewSet.list env request table_pk =
  let rewriting :=
    _rewrite_db_function_specs env table_pk (vd_filter (GET request))
      (vd_db_function (GET request)) in
  match outcome rewriting with
  | Raise e => mkM (trace rewriting) (Raise (RecordViewSet.list_except e))
  | Ok (fp, dp) =>
      let paginating :=
        TableLimitOffsetGroupPagination.paginate_queryset env new_paginator
          request table_pk fp (vd_order_by (GET request))
          (vd_grouping (GET request)) (vd_duplicate_only (GET request)) dp
          (vd_deduplicate (GET request)) in
      match outcome paginating with
      | Raise e =>
          mkM (trace rewriting ++ trace paginating)
            (Raise (RecordViewSet.list_except e))
      | Ok (records, paginator) =>
          mkM (trace rewriting ++ trace paginating)
            (Ok (TableLimitOffsetGroupPagination.get_paginated_response
                   paginator (RecordSerializer_many records)))
      end
  end.
Proof.
  unfold RecordViewSet.list. cbn zeta.
  destruct (_rewrite_db_function_specs env table_pk _ _) as [tr [[fp dp]|e]];
    [|done].
  rewrite bind_mk. cbn [trace outcome].
  destruct (TableLimitOffsetGroupPagination.paginate_queryset env
              new_paginator request table_pk fp _ _ _ dp _)
    as [tp [[records paginator]|e]]; unfold try_except;
    cbn [mbind M_bind mret M_ret trace outcome]; [|done].
  by rewrite app_nil_r.
Qed.

Lemma rewrite_specs_falsy_filter env table_pk f d :
  truthy f = false →
  _rewrite_db_function_specs env table_pk f d
    = _rewrite_db_function_specs env table_pk JNull d.
Proof. intros Hf. rewrite !rewrite_specs_run, Hf. done. Qed.

Lemma rewrite_specs_falsy_function env table_pk f d :
  truthy d = false →
  _rewrite_db_function_specs env table_pk f d
    = _rewrite_db_function_specs env table_pk f JNull.
Proof. intros Hd. rewrite !rewrite_specs_run, Hd. done. Qed.

(** X2. A filter or a function that is supplied but falsy (the empty
    object, the empty list, 0, false, the empty string) is handled in
    every respect as one that is absent: the run of [list] makes the same
    calls and ends in the same response or error as with [None] in its
    place. *)
Theorem falsy_specs_are_absent_specs env request table_pk :
  RecordViewSet.list env request table_pk =
  RecordViewSet.list env
    {| query_limit := query_limit request;
       query_offset := query_offset request;
       GET := {| vd_filter :=
                   if truthy (vd_filter (GET request))
                   then vd_filter (GET request) else JNull;
                 vd_db_function :=
                   if truthy (vd_db_function (GET request))
                   then vd_db_function (GET request) else JNull;
                 vd_deduplicate := vd_deduplicate (GET request);
                 vd_order_by := vd_order_by (GET request);
                 vd_grouping := vd_grouping (GET request);
                 vd_duplicate_only := vd_duplicate_only (GET request) |} |}
    table_pk.
Proof.
  unfold RecordViewSet.list, TableLimitOffsetGroupPagination.paginate_queryset,
    TableLimitOffsetPagination.paginate_queryset.
  cbn [GET vd_filter vd_db_function vd_deduplicate vd_order_by vd_grouping
         vd_duplicate_only].
  assert (_rewrite_db_function_specs env table_pk (vd_filter (GET request))
            (vd_db_function (GET request))
          = _rewrite_db_function_specs env table_pk
              (if truthy (vd_filter (GET request))
               then vd_filter (GET request) else JNull)
              (if truthy (vd_db_function (GET request))
               then vd_db_function (GET request) else JNull)) as ->; [|done].
  destruct (truthy (vd_filter (GET request))) eqn:Hf,
    (truthy (vd_db_function (GET request))) eqn:Hd; try done.
  - by apply rewrite_specs_falsy_function.
  - by apply rewrite_specs_falsy_filter.
  - rewrite rewrite_specs_falsy_filter by done.
    apply rewrite_specs_falsy_function; done.
Qed.

Lemma list_except_not_specification e :
  is_specification_error (RecordViewSet.list_except e) = false.
Proof. by destruct e. Qed.

(** X3. No specification error leaves [list] as it is. Whatever the
    collaborators do, an error that [list] raises is none of
    [BadDBFunctionFormat], [UnknownDBFunctionID],
    [ReferencedColumnsDontExist], [BadSortFormat], [SortFieldNotFound],
    [BadGroupFormat], [GroupFieldNotFound] and [InvalidGroupType]. *)
Theorem list_raises_no_raw_specification_error env request table_pk e :
  outcome (RecordViewSet.list env request table_pk) = Raise e →
  is_specification_error e = false.
Proof.
  rewrite list_run. cbn zeta.
  destruct (outcome (_rewrite_db_function_specs env table_pk _ _))
    as [[fp dp]|e0]; cbn [outcome].
  - destruct (outcome (TableLimitOffsetGroupPagination.paginate_queryset _ _
                         _ _ _ _ _ _ _ _)) as [[records paginator]|e0];
      cbn [outcome]; intros H; simplify_eq.
    apply list_except_not_specification.
  - intros H; simplify_eq. apply list_except_not_specification.
Qed.

Lemma list_raises_no_raw_specification_error_witness :
  let request :=
    Fixtures.request Absent Absent
      (Fixtures.params (JDict [("bogus_op", JList [])]) (JDict []) JNull) in
  let e := APIException BadFilterAPIException UnknownDBFunctionID
             (Some "filters") 400 None in
  outcome (RecordViewSet.list Fixtures.env request 1) = Raise e ∧
  is_specification_error e = false.
Proof.
  split; [done|].
  by apply (list_raises_no_raw_specification_error Fixtures.env
              (Fixtures.request Absent Absent
                 (Fixtures.params (JDict [("bogus_op", JList [])]) (JDict [])
                    JNull)) 1).
Defined.

(** X4. When the table does not exist, [list] sends no query to any
    table and raises. With a truthy filter or function the rewriting pass
    meets the missing table first and the error is [NotFound], whatever
    the grouping is. With neither, the grouping is looked at before the
    table: a truthy grouping that is not a mapping ends [list] with a raw
    [TypeError]; an error of the [GroupBy] constructor is raised as the
    [except] clauses leave it, with status 400 when it is one of the
    three grouping errors; and otherwise the error is [NotFound]. *)
Theorem list_of_a_missing_table env request table_pk :
  tables env !! table_pk = None →
  filter is_table_query (trace (RecordViewSet.list env request table_pk)) = []
  ∧
  outcome (RecordViewSet.list env request table_pk) =
    Raise (if truthy (vd_filter (GET request)) ||
              truthy (vd_db_function (GET request))
           then NotFound
           else if truthy (vd_grouping (GET request))
           then match vd_grouping (GET request) with
                | JDict _ =>
                    match GroupBy_init env (vd_grouping (GET request)) with
                    | Raise e => RecordViewSet.list_except e
                    | Ok _ => NotFound
                    end
                | _ => TypeError
                end
           else NotFound).
Proof.
  intros Ht. rewrite list_run, rewrite_specs_run, Ht. cbn zeta.
  destruct (truthy (vd_filter (GET request)) ||
            truthy (vd_db_function (GET request))); [done|].
  cbn [outcome trace]. rewrite group_paginate_run, Ht.
  pose proof (grouping_events_no_query (vd_grouping (GET request))) as Hq.
  assert (Hb : requested_group_by env (vd_grouping (GET request)) =
               if truthy (vd_grouping (GET request))
               then match vd_grouping (GET request) with
                    | JDict _ =>
                        match GroupBy_init env (vd_grouping (GET request)) with
                        | Raise e => Raise e
                        | Ok g => Ok (Some g)
                        end
                    | _ => Raise TypeError
                    end
               else Ok None).
  { unfold requested_group_by. destruct (truthy _); [|done].
    destruct (vd_grouping (GET request)); try done. }
  destruct (requested_group_by env _) as [gb|e]; cbn [outcome trace app].
  - rewrite filter_app, Hq. split; [done|].
    destruct (truthy _); [|done].
    destruct (vd_grouping (GET request)); try done.
    by destruct (GroupBy_init env _).
  - rewrite Hq. split; [done|].
    destruct (truthy _); [|done].
    destruct (vd_grouping (GET request)); try (by simplify_eq).
    destruct (GroupBy_init env _); by simplify_eq.
Qed.

Lemma list_of_a_missing_table_witness :
  let no_columns := JDict [("columns", JList [])] in
  let no_mapping := JList [JNum 1] in
  let request vd := Fixtures.request Absent Absent vd in
  tables Fixtures.env !! 7 = None ∧
  outcome (RecordViewSet.list Fixtures.env
             (request (Fixtures.params JNull no_columns JNull)) 7)
    = Raise (APIException BadGroupAPIException BadGroupFormat
               (Some "grouping") 400 None) ∧
  outcome (RecordViewSet.list Fixtures.env
             (request (Fixtures.params JNull no_mapping JNull)) 7)
    = Raise TypeError ∧
  outcome (RecordViewSet.list Fixtures.env
             (request (Fixtures.params (Fixtures.center_is "Ames") no_columns
                         JNull)) 7)
    = Raise NotFound.
Proof.
  split; [done|]. split_and!.
  - by apply (proj2 (list_of_a_missing_table Fixtures.env
                (Fixtures.request Absent Absent
                   (Fixtures.params JNull (JDict [("columns", JList [])])
                      JNull)) 7 eq_refl)).
  - by apply (proj2 (list_of_a_missing_table Fixtures.env
                (Fixtures.request Absent Absent
                   (Fixtures.params JNull (JList [JNum 1]) JNull))
                7 eq_refl)).
  - by apply (proj2 (list_of_a_missing_table Fixtures.env
                (Fixtures.request Absent Absent
                   (Fixtures.params (Fixtures.center_is "Ames")
                      (JDict [("columns", JList [])]) JNull)) 7 eq_refl)).
Defined.

(** The rewriting pass sends no query to the table and builds no
    [GroupBy]. *)
Lemma rewrite_specs_events env table_pk f d ev :
  ev ∈ trace (_rewrite_db_function_specs env table_pk f d) →
  ev = get_table_or_404_called table_pk ∨
  (∃ t, tables env !! table_pk = Some t ∧
        (ev = get_dj_column_id_to_name_mapping_called (Table_id t) ∨
         ∃ spec, ev = rewrite_called (get_dj_column_id_to_name_mapping t) spec)).
Proof.
  rewrite rewrite_specs_run. intros H.
  destruct (truthy f || truthy d); [|cbn [trace] in H; by in_trace].
  destruct (tables env !! table_pk) as [t|]; [|cbn [trace] in H; in_trace; by left].
  cbn zeta in H.
  destruct (truthy f), (truthy d);
    repeat match type of H with
           | context [rewrite_db_function_spec_column_ids_to_names ?e ?m ?s] =>
               destruct (rewrite_db_function_spec_column_ids_to_names e m s)
           end; cbn [trace app] in H; in_trace; subst;
    first [by left | right; exists t; split; [done|]; first [by left | right; by eexists]].
Qed.

Lemma rewrite_specs_no_query env table_pk f d :
  filter is_table_query (trace (_rewrite_db_function_specs env table_pk f d))
    = [].
Proof.
  rewrite rewrite_specs_run.
  destruct (truthy f || truthy d); [|done].
  destruct (tables env !! table_pk) as [t|]; [|done].
  cbn zeta.
  destruct (truthy f), (truthy d);
    repeat match goal with
           | |- context [rewrite_db_function_spec_column_ids_to_names ?e ?m ?s] =>
               destruct (rewrite_db_function_spec_column_ids_to_names e m s)
           end; done.
Qed.

(** The calls of [list]: those of the rewriting pass, then those of the
    paginator if the pass succeeded. *)
Lemma list_trace env request table_pk :
  trace (RecordViewSet.list env request table_pk) =
  (let rewriting :=
     _rewrite_db_function_specs env table_pk (vd_filter (GET request))
       (vd_db_function (GET request)) in
   trace rewriting ++
   match outcome rewriting with
   | Raise _ => []
   | Ok (fp, dp) =>
       trace (TableLimitOffsetGroupPagination.paginate_queryset env
                new_paginator request table_pk fp (vd_order_by (GET request))
                (vd_grouping (GET request)) (vd_duplicate_only (GET request))
                dp (vd_deduplicate (GET request)))
   end)%list.
Proof.
  rewrite list_run. cbn zeta.
  destruct (outcome (_rewrite_db_function_specs env table_pk _ _))
    as [[fp dp]|e0]; cbn [trace]; [|by rewrite app_nil_r].
  by destruct (outcome (TableLimitOffsetGroupPagination.paginate_queryset
                          _ _ _ _ _ _ _ _ _ _)) as [[??]|?].
Qed.

(** X5. [list] retrieves records only after a successful count. Whenever
    a retrieval is sent to a table, the table is the requested one, both
    specifications were rewritten and the grouping was built without
    error, the count query with the same filter, function and
    deduplication flag was sent before and answered, and the retrieval
    carries the parsed limit and offset and the ordering and
    duplicate-only restriction of the request; it is sent once. *)
Theorem retrieval_follows_a_successful_count env request table_pk
    tid limit offset f order_by gb duplicate_only df deduplicate :
  let run := RecordViewSet.list env request table_pk in
  let retrieval :=
    get_records_called tid limit offset f order_by gb duplicate_only df
      deduplicate in
  retrieval ∈ trace run →
  ∃ t n before after,
    tables env !! table_pk = Some t ∧ tid = Table_id t ∧
    outcome (_rewrite_db_function_specs env table_pk (vd_filter (GET request))
               (vd_db_function (GET request))) = Ok (f, df) ∧
    requested_group_by env (vd_grouping (GET request)) = Ok gb ∧
    sa_num_records t f df deduplicate = Ok n ∧
    limit = get_limit request ∧ offset = get_offset request ∧
    order_by = vd_order_by (GET request) ∧
    duplicate_only = vd_duplicate_only (GET request) ∧
    deduplicate = vd_deduplicate (GET request) ∧
    trace run =
      before ++ sa_num_records_called tid f df deduplicate :: retrieval :: after ∧
    filter is_table_query before = [] ∧ filter is_table_query after = [].
Proof.
  intros run retrieval. subst run retrieval. rewrite list_trace. cbn zeta.
  intros H. apply elem_of_app in H as [H|H].
  { apply rewrite_specs_events in H as [?|(t & _ & [?|[spec ?]])]; done. }
  destruct (outcome (_rewrite_db_function_specs env table_pk _ _))
    as [[fp dp]|e0] eqn:Hw; [|by in_trace].
  rewrite group_paginate_run in H |- *.
  pose proof (rewrite_specs_no_query env table_pk (vd_filter (GET request))
                (vd_db_function (GET request))) as Hnq.
  assert (Hge : filter is_table_query
                  (grouping_events (vd_grouping (GET request))) = []).
  { apply grouping_events_no_query. }
  destruct (requested_group_by env _) as [group_by|e] eqn:Hg; cbn [trace] in *.
  2:{ unfold grouping_events in H.
      destruct (truthy _); [destruct (vd_grouping _)|]; by in_trace. }
  destruct (tables env !! table_pk) as [t|] eqn:Ht; cbn [trace] in *.
  2:{ unfold grouping_events in H.
      destruct (truthy _); [destruct (vd_grouping _)|]; by in_trace. }
  destruct (sa_num_records t fp dp _) as [n|e] eqn:Hn; cbn [trace] in *.
  2:{ unfold grouping_events in H.
      destruct (truthy _); [destruct (vd_grouping _)|]; by in_trace. }
  assert (get_records_called tid limit offset f order_by gb duplicate_only
            df deduplicate =
          get_records_called (Table_id t) (get_limit request)
            (get_offset request) fp (vd_order_by (GET request)) group_by
            (vd_duplicate_only (GET request)) dp
            (vd_deduplicate (GET request))) as Heq.
  { destruct (get_records t _ _ _ _ _ _ _ _) as [records|e];
      cbn [trace] in H; unfold paginate_events, grouping_events in H;
      (destruct (truthy _); [try destruct (vd_grouping _)|]);
      try destruct records; by in_trace. }
  clear H. injection Heq as ? ? ? ? ? ? ? ? ?. subst.
  destruct (get_records t _ _ _ _ _ _ _ _) as [records|e] eqn:Hr;
    cbn [trace] in *.
  - unfold paginate_events.
    rewrite <- (grouping_events_built _ _ _ Hg).
    exists t, n,
      (trace (_rewrite_db_function_specs env table_pk
                (vd_filter (GET request)) (vd_db_function (GET request))) ++
       grouping_events (vd_grouping (GET request)) ++
       [get_table_or_404_called table_pk])%list,
      (match records with
       | [] => []
       | _ => [process_annotated_records_called records]
       end).
    split_and!; try done.
    + by rewrite <- ?app_assoc.
    + by rewrite !filter_app, Hnq, Hge.
    + by destruct records.
  - exists t, n,
      (trace (_rewrite_db_function_specs env table_pk
                (vd_filter (GET request)) (vd_db_function (GET request))) ++
       grouping_events (vd_grouping (GET request)) ++
       [get_table_or_404_called table_pk])%list, [].
    split_and!; try done.
    + by rewrite <- ?app_assoc.
    + by rewrite !filter_app, Hnq, Hge.
Qed.

Lemma retrieval_follows_a_successful_count_witness :
  let request :=
    Fixtures.request (Integer 2) (Integer 1)
      (Fixtures.params JNull Fixtures.by_center JNull) in
  let gb := {| columns := ["Center"]; mode := "distinct";
               num_groups := None; ranged := false |} in
  get_records_called 1 (Some 2) 1 JNull (JList []) (Some gb) JNull JNull false
    ∈ trace (RecordViewSet.list Fixtures.env request 1) ∧
  ∃ t n, tables Fixtures.env !! 1 = Some t ∧
         sa_num_records t JNull JNull false = Ok n.
Proof.
  assert (H : get_records_called 1 (Some 2) 1 JNull (JList [])
                (Some {| columns := ["Center"]; mode := "distinct";
                         num_groups := None; ranged := false |})
                JNull JNull false
              ∈ trace (RecordViewSet.list Fixtures.env
                         (Fixtures.request (Integer 2) (Integer 1)
                            (Fixtures.params JNull Fixtures.by_center JNull))
                         1)).
  { by apply (list_elem_of_lookup_2 _ 3). }
  split; [exact H|].
  destruct (retrieval_follows_a_successful_count _ _ _ _ _ _ _ _ _ _ _ _ H)
    as (t & n & _ & _ & Ht & _ & _ & _ & Hn & _).
  by exists t, n.
Defined.

(** X6. A query that fails ends [list]. If the count fails, no retrieval
    is sent; if the retrieval fails, the records are not post-processed.
    In both cases [list] raises what its [except] clauses make of the
    error of the table. *)
Theorem a_failed_query_ends_list env request table_pk t fp dp gb e :
  let run := RecordViewSet.list env request table_pk in
  let vd := GET request in
  tables env !! table_pk = Some t →
  outcome (_rewrite_db_function_specs env table_pk (vd_filter vd)
             (vd_db_function vd)) = Ok (fp, dp) →
  requested_group_by env (vd_grouping vd) = Ok gb →
  (sa_num_records t fp dp (vd_deduplicate vd) = Raise e →
   outcome run = Raise (RecordViewSet.list_except e) ∧
   filter is_table_query (trace run) =
     [sa_num_records_called (Table_id t) fp dp (vd_deduplicate vd)]) ∧
  (∀ n,
     sa_num_records t fp dp (vd_deduplicate vd) = Ok n →
     get_records t (get_limit request) (get_offset request) fp
       (vd_order_by vd) gb (vd_duplicate_only vd) dp (vd_deduplicate vd)
       = Raise e →
     outcome run = Raise (RecordViewSet.list_except e) ∧
     ∀ records, process_annotated_records_called records ∉ trace run).
Proof.
  intros run vd Ht Hw Hg. subst run vd.
  pose proof (rewrite_specs_no_query env table_pk (vd_filter (GET request))
                (vd_db_function (GET request))) as Hnq.
  assert (Hge : filter is_table_query
                  (grouping_events (vd_grouping (GET request))) = []).
  { apply grouping_events_no_query. }
  split.
  - intros Hn. rewrite list_run. cbn zeta.
    rewrite Hw, group_paginate_run, Hg, Ht, Hn. cbn [outcome trace].
    split; [done|]. by rewrite !filter_app, Hnq, Hge.
  - intros n Hn Hr. rewrite list_run. cbn zeta.
    rewrite Hw, group_paginate_run, Hg, Ht, Hn, Hr. cbn [outcome trace].
    split; [done|]. intros records H.
    apply elem_of_app in H as [H|H].
    + by apply rewrite_specs_trace in H.
    + unfold grouping_events in H.
      destruct (truthy _); [destruct (vd_grouping _)|]; by in_trace.
Qed.

Lemma a_failed_query_ends_list_witness :
  let t := Model.table Fixtures.centers in
  let bogus := JDict [("bogus_op", JList [])] in
  let by_centre :=
    JList [JDict [("field", JStr "Centre"); ("direction", JStr "asc")]] in
  let unknown_function :=
    Fixtures.request Absent Absent (Fixtures.params bogus JNull JNull) in
  let unknown_field :=
    Fixtures.request Absent Absent
      {| vd_filter := JNull; vd_db_function := JNull;
         vd_deduplicate := false; vd_order_by := by_centre;
         vd_grouping := JDict []; vd_duplicate_only := JNull |} in
  (tables Fixtures.env !! 1 = Some t ∧
   sa_num_records t bogus JNull false = Raise UnknownDBFunctionID ∧
   sa_num_records t JNull JNull false = Ok 3 ∧
   get_records t (Some 50) 0 JNull by_centre None JNull JNull false
     = Raise SortFieldNotFound) ∧
  filter is_table_query (trace (RecordViewSet.list Fixtures.env
                                  unknown_function 1))
    = [sa_num_records_called 1 bogus JNull false] ∧
  outcome (RecordViewSet.list Fixtures.env unknown_field 1)
    = Raise (APIException BadSortAPIException SortFieldNotFound
               (Some "order_by") 400 None).
Proof.
  split; [by split_and!|]. split.
  - by apply (proj1 (a_failed_query_ends_list Fixtures.env
                (Fixtures.request Absent Absent
                   (Fixtures.params (JDict [("bogus_op", JList [])]) JNull
                      JNull))
                1 (Model.table Fixtures.centers)
                (JDict [("bogus_op", JList [])]) JNull None
                UnknownDBFunctionID eq_refl eq_refl eq_refl)).
  - by apply (proj2 (a_failed_query_ends_list Fixtures.env
                (Fixtures.request Absent Absent
                   {| vd_filter := JNull; vd_db_function := JNull;
                      vd_deduplicate := false;
                      vd_order_by :=
                        JList [JDict [("field", JStr "Centre");
                                      ("direction", JStr "asc")]];
                      vd_grouping := JDict []; vd_duplicate_only := JNull |})
                1 (Model.table Fixtures.centers) JNull JNull None
                SortFieldNotFound eq_refl eq_refl eq_refl) 3).
Defined.

(** X7. The specifications are looked at in a fixed order, before any
    query is sent. An error of the rewriting pass ends [list] before the
    grouping is looked at. After the rewriting pass, a truthy grouping
    that is not a mapping ends [list] with a raw [TypeError], which no
    [except] clause of [list] catches, and the [GroupBy] constructor is
    not called. For a mapping the constructor is called, and an error of
    it ends [list] before the table is counted or read: the calls of the
    rewriting pass and the call of the constructor are the only calls
    made, and the error is raised as the [except] clauses leave it. *)
Theorem specification_errors_precede_the_queries env request table_pk e :
  let run := RecordViewSet.list env request table_pk in
  let vd := GET request in
  let rewriting :=
    _rewrite_db_function_specs env table_pk (vd_filter vd)
      (vd_db_function vd) in
  (outcome rewriting = Raise e →
   run = mkM (trace rewriting) (Raise (RecordViewSet.list_except e)) ∧
   (∀ grouping, GroupBy_called grouping ∉ trace run) ∧
   filter is_table_query (trace run) = []) ∧
  (∀ specs,
     outcome rewriting = Ok specs →
     truthy (vd_grouping vd) = true →
     (∀ entries, vd_grouping vd ≠ JDict entries) →
     run = mkM (trace rewriting) (Raise TypeError) ∧
     (∀ grouping, GroupBy_called grouping ∉ trace run) ∧
     filter is_table_query (trace run) = []) ∧
  (∀ specs entries,
     outcome rewriting = Ok specs →
     vd_grouping vd = JDict entries → entries ≠ [] →
     GroupBy_init env (JDict entries) = Raise e →
     run = mkM (trace rewriting ++ [GroupBy_called (JDict entries)])
             (Raise (RecordViewSet.list_except e)) ∧
     filter is_table_query (trace run) = []).
Proof.
  intros run vd rewriting. subst run vd rewriting.
  pose proof (rewrite_specs_no_query env table_pk (vd_filter (GET request))
                (vd_db_function (GET request))) as Hnq.
  assert (Hno : ∀ grouping,
            GroupBy_called grouping ∉
              trace (_rewrite_db_function_specs env table_pk
                       (vd_filter (GET request))
                       (vd_db_function (GET request)))).
  { intros grouping H.
    apply rewrite_specs_events in H as [?|(t & _ & [?|[spec ?]])]; done. }
  split_and!.
  - intros Hw. rewrite list_run. cbn zeta. rewrite Hw. cbn [trace].
    by split_and!.
  - intros [fp dp] Hw Ht Hd. rewrite list_run. cbn zeta.
    rewrite Hw, group_paginate_run.
    unfold requested_group_by, grouping_events. rewrite Ht.
    destruct (vd_grouping (GET request)) as [| | | | |entries];
      cbn [outcome trace]; rewrite ?app_nil_r; try by split_and!.
    by destruct (Hd entries).
  - intros [fp dp] entries Hw Hgr Hne Hg. rewrite list_run. cbn zeta.
    rewrite Hw, group_paginate_run.
    unfold requested_group_by, grouping_events. rewrite Hgr.
    assert (truthy (JDict entries) = true) as -> by (by destruct entries).
    rewrite Hg. cbn [outcome trace mbind result_bind].
    split; [done|]. by rewrite filter_app, Hnq.
Qed.

Lemma specification_errors_precede_the_queries_witness :
  let no_columns := [("columns", JList [])] in
  let no_mapping := JList [JNum 1] in
  let request grouping :=
    Fixtures.request Absent Absent (Fixtures.params JNull grouping JNull) in
  (outcome (_rewrite_db_function_specs Fixtures.env 1 JNull JNull)
     = Ok (JNull, JNull) ∧
   truthy no_mapping = true ∧ (∀ entries, no_mapping ≠ JDict entries) ∧
   no_columns ≠ [] ∧
   GroupBy_init Fixtures.env (JDict no_columns) = Raise BadGroupFormat) ∧
  RecordViewSet.list Fixtures.env (request no_mapping) 1
    = mkM [] (Raise TypeError) ∧
  RecordViewSet.list Fixtures.env (request (JDict no_columns)) 1
    = mkM [GroupBy_called (JDict no_columns)]
        (Raise (APIException BadGroupAPIException BadGroupFormat
                  (Some "grouping") 400 None)).
Proof.
  split; [by split_and!|]. split.
  - by apply (proj1 (proj2 (specification_errors_precede_the_queries
                              Fixtures.env
                              (Fixtures.request Absent Absent
                                 (Fixtures.params JNull (JList [JNum 1])
                                    JNull))
                              1 TypeError)) (JNull, JNull) eq_refl eq_refl).
  - by apply (proj2 (proj2 (specification_errors_precede_the_queries
                              Fixtures.env
                              (Fixtures.request Absent Absent
                                 (Fixtures.params JNull
                                    (JDict [("columns", JList [])]) JNull))
                              1 BadGroupFormat))
                (JNull, JNull) [("columns", JList [])] eq_refl eq_refl).
Defined.

(** X8. A page that [list] answers with has status 200 and a count, and
    its [grouping] entry is [None] exactly when the grouping of the
    request is falsy, in which case no [GroupBy] is built and the
    retrieval is sent without one. *)
Theorem grouping_is_absent_iff_not_requested env request table_pk response :
  let run := RecordViewSet.list env request table_pk in
  outcome run = Ok response →
  status response = 200 ∧
  (∃ n, page_count (body response) = Some n) ∧
  (page_grouping (body response) = None
   ↔ truthy (vd_grouping (GET request)) = false) ∧
  (truthy (vd_grouping (GET request)) = false →
   ∀ ev, ev ∈ trace run →
     match ev with
     | GroupBy_called _ => False
     | get_records_called _ _ _ _ _ group_by _ _ _ => group_by = None
     | _ => True
     end).
Proof.
  intros run H. subst run.
  destruct (list_inv _ _ _ _ H)
    as (fp & dp & group_by & t & n & records & Hw & Hg & Ht & Hn & Hr).
  rewrite (list_ok _ _ _ _ _ _ _ _ _ Hw Hg Ht Hn Hr) in H |- *.
  injection H as <-. cbn [status body page_count page_grouping trace].
  split_and!; [done|by exists n| |].
  - unfold requested_group_by in Hg.
    destruct (truthy (vd_grouping (GET request))).
    + destruct (vd_grouping (GET request)); try done.
      destruct (GroupBy_init env _); cbv in Hg; simplify_eq. done.
    + cbv in Hg. simplify_eq. done.
  - intros Hf ev Hin. unfold requested_group_by in Hg. rewrite Hf in Hg.
    cbv in Hg. simplify_eq.
    apply elem_of_app in Hin as [Hin|Hin].
    + apply rewrite_specs_events in Hin as [->|(t' & _ & [->|[spec ->]])];
        done.
    + unfold paginate_events in Hin. rewrite Hf in Hin.
      destruct records; in_trace; by subst.
Qed.

Lemma grouping_is_absent_iff_not_requested_witness :
  let request :=
    Fixtures.request Absent Absent (Fixtures.params JNull (JDict []) JNull) in
  let page :=
    {| page_count := Some 3; page_grouping := None;
       page_results := [[("id", VInt 1); ("Center", VStr "Kennedy")];
                        [("id", VInt 2); ("Center", VStr "Ames")];
                        [("id", VInt 3); ("Center", VStr "Ames")]] |} in
  outcome (RecordViewSet.list Fixtures.env request 1)
    = Ok {| status := 200; body := page |} ∧
  (page_grouping page = None ↔ truthy (JDict []) = false).
Proof.
  split; [reflexivity|].
  by apply (grouping_is_absent_iff_not_requested Fixtures.env
              (Fixtures.request Absent Absent
                 (Fixtures.params JNull (JDict []) JNull)) 1 _ eq_refl).
Defined.

(** ** More on [RecordViewSet.create] *)

(** [create], step by step. *)
Lemma create_run env request_data table_pk :
  RecordViewSet.create env request_data table_pk =
  match tables env !! table_pk with
  | None => mkM [get_table_or_404_called table_pk] (Raise NotFound)
  | Some t =>
      match request_data with
      | JDict _ =>
          mkM [get_table_or_404_called table_pk;
               create_record_or_records_called (Table_id t) request_data]
            match create_record_or_records t request_data with
            | Ok record => Ok {| status := 201; body := record |}
            | Raise e => Raise (RecordViewSet.create_except t e)
            end
      | _ => mkM [get_table_or_404_called table_pk] (Raise AssertionError)
      end
  end.
Proof.
  unfold RecordViewSet.create, get_table_or_404, call.
  destruct (tables env !! table_pk) as [t|]; [|done].
  rewrite bind_mk.
  destruct request_data; try done.
  rewrite bind_ret. unfold try_except. cbn [outcome trace].
  by destruct (create_record_or_records t _).
Qed.

(** X9. [create] writes only after two checks. The table is looked up
    first: when it does not exist the error is [NotFound], whatever the
    data is. Then the data must be a dictionary: for a list, a string, a
    number, a boolean or [None] the assertion fails. In both cases the
    lookup of the table is the only call made, so nothing is written. *)
Theorem create_checks_before_writing env request_data table_pk :
  let run := RecordViewSet.create env request_data table_pk in
  (tables env !! table_pk = None →
   run = mkM [get_table_or_404_called table_pk] (Raise NotFound)) ∧
  (∀ t, tables env !! table_pk = Some t →
        (∀ entries, request_data ≠ JDict entries) →
        run = mkM [get_table_or_404_called table_pk] (Raise AssertionError)).
Proof.
  intros run. subst run. rewrite create_run. split.
  - by intros ->.
  - intros t -> Hd. destruct request_data; try done. by destruct (Hd entries).
Qed.

Lemma create_checks_before_writing_witness :
  let records := JList [JDict [("id", JNum 4)]; JDict [("id", JNum 5)]] in
  (tables Fixtures.env !! 7 = None ∧
   tables Fixtures.env !! 1 = Some (Model.table Fixtures.centers) ∧
   ∀ entries, records ≠ JDict entries) ∧
  RecordViewSet.create Fixtures.env records 7
    = mkM [get_table_or_404_called 7] (Raise NotFound) ∧
  RecordViewSet.create Fixtures.env records 1
    = mkM [get_table_or_404_called 1] (Raise AssertionError).
Proof.
  split; [by split_and!|]. split.
  - by apply (proj1 (create_checks_before_writing Fixtures.env
                       (JList [JDict [("id", JNum 4)]; JDict [("id", JNum 5)]])
                       7)).
  - by apply (proj2 (create_checks_before_writing Fixtures.env
                       (JList [JDict [("id", JNum 4)]; JDict [("id", JNum 5)]])
                       1) (Model.table Fixtures.centers)).
Defined.

(** X10. What [create] ends in. A response has status 201 and carries the
    record that the one write to the requested table returned, and the
    data is a dictionary. An error is never a raw [IntegrityError]. *)
Theorem create_outcomes env request_data table_pk :
  let run := RecordViewSet.create env request_data table_pk in
  match outcome run with
  | Ok response =>
      status response = 201 ∧
      ∃ t entries,
        tables env !! table_pk = Some t ∧ request_data = JDict entries ∧
        create_record_or_records t request_data = Ok (body response) ∧
        trace run =
          [get_table_or_404_called table_pk;
           create_record_or_records_called (Table_id t) request_data]
  | Raise (IntegrityError _) => False
  | Raise _ => True
  end.
Proof.
  intros run. subst run. rewrite create_run.
  destruct (tables env !! table_pk) as [t|] eqn:Ht; cbn [outcome]; [|done].
  destruct request_data; cbn [outcome]; try done.
  destruct (create_record_or_records t (JDict entries)) as [record|e] eqn:Hc.
  - split; [done|]. by exists t, entries.
  - destruct e as [| | | | | | | |[]| | | |]; done.
Qed.

(** X11. An error of the write that is not an [IntegrityError] leaves
    [create] as it is: the specification errors that [list] turns into
    API errors with status 400 are not caught here. *)
Theorem create_passes_other_errors env entries table_pk t e :
  tables env !! table_pk = Some t →
  create_record_or_records t (JDict entries) = Raise e →
  match e with IntegrityError _ => False | _ => True end →
  RecordViewSet.create env (JDict entries) table_pk =
    mkM [get_table_or_404_called table_pk;
         create_record_or_records_called (Table_id t) (JDict entries)]
      (Raise e).
Proof.
  intros Ht Hc He. rewrite create_run, Ht, Hc. by destruct e.
Qed.

Lemma create_passes_other_errors_witness :
  let t := Build_Table 1 (λ _ _ _, Ok 0) (λ _ _ _ _ _ _ _ _, Ok []) ∅
             (λ _, Raise ReferencedColumnsDontExist) in
  let env := Build_Env {[1 := t]} (λ _, Raise BadGroupFormat)
               (λ _, ([], None)) (λ _ spec, Ok spec) in
  let entries := [("Centre", JStr "Ames")] in
  (tables env !! 1 = Some t ∧
   create_record_or_records t (JDict entries)
     = Raise ReferencedColumnsDontExist) ∧
  RecordViewSet.create env (JDict entries) 1
    = mkM [get_table_or_404_called 1;
           create_record_or_records_called 1 (JDict entries)]
        (Raise ReferencedColumnsDontExist) ∧
  RecordViewSet.list_except ReferencedColumnsDontExist
    = APIException BadFilterAPIException ReferencedColumnsDontExist
        (Some "filters") 400 None.
Proof.
  split; [by split_and!|]. split; [|done].
  by apply (create_passes_other_errors
                (Build_Env
                   {[1 := Build_Table 1 (λ _ _ _, Ok 0)
                            (λ _ _ _ _ _ _ _ _, Ok []) ∅
                            (λ _, Raise ReferencedColumnsDontExist)]}
                   (λ _, Raise BadGroupFormat) (λ _, ([], None))
                   (λ _ spec, Ok spec))
                [("Centre", JStr "Ames")] 1
                (Build_Table 1 (λ _ _ _, Ok 0) (λ _ _ _ _ _ _ _ _, Ok []) ∅
                   (λ _, Raise ReferencedColumnsDontExist))
                ReferencedColumnsDontExist ltac:(done) eq_refl I).
Defined.

(** ** More on [_rewrite_db_function_specs] *)

(** X12. The two specifications are rewritten in turn, the filter first:
    when the rewriting of the filter fails, the function is not looked
    at, and the error leaves the pass as it is. *)
Theorem a_failed_filter_rewrite_skips_the_function env table_pk f d t e :
  tables env !! table_pk = Some t →
  truthy f = true →
  rewrite_db_function_spec_column_ids_to_names env
    (get_dj_column_id_to_name_mapping t) f = Raise e →
  _rewrite_db_function_specs env table_pk f d =
    mkM [get_table_or_404_called table_pk;
         get_dj_column_id_to_name_mapping_called (Table_id t);
         rewrite_called (get_dj_column_id_to_name_mapping t) f]
      (Raise e).
Proof.
  intros Ht Hf Hr. rewrite rewrite_specs_run, Ht, Hf. cbn. by rewrite Hr.
Qed.

Lemma a_failed_filter_rewrite_skips_the_function_witness :
  let t := Model.table Fixtures.centers in
  let f :=
    JDict [("equal", JList [JDict [("column_id", JList [JNum 99])];
                            JDict [("literal", JList [JStr "x"])]])] in
  let d := JDict [("bogus_op", JList [JDict [("column_id", JList [])]])] in
  (tables Fixtures.env !! 1 = Some t ∧ truthy f = true ∧
   rewrite_db_function_spec_column_ids_to_names Fixtures.env
     (get_dj_column_id_to_name_mapping t) f
     = Raise ReferencedColumnsDontExist) ∧
  _rewrite_db_function_specs Fixtures.env 1 f d =
    mkM [get_table_or_404_called 1;
         get_dj_column_id_to_name_mapping_called 1;
         rewrite_called (get_dj_column_id_to_name_mapping t) f]
      (Raise ReferencedColumnsDontExist).
Proof.
  split; [by split_and!|].
  by apply (a_failed_filter_rewrite_skips_the_function Fixtures.env 1
              (JDict [("equal",
                       JList [JDict [("column_id", JList [JNum 99])];
                              JDict [("literal", JList [JStr "x"])]])])
              (JDict [("bogus_op", JList [JDict [("column_id", JList [])]])])
              (Model.table Fixtures.centers) ReferencedColumnsDontExist).
Defined.

Lemma rewrite_specs_lookups env table_pk f d specs :
  outcome (_rewrite_db_function_specs env table_pk f d) = Ok specs →
  filter is_table_lookup (trace (_rewrite_db_function_specs env table_pk f d))
    = if truthy f || truthy d then [get_table_or_404_called table_pk] else [].
Proof.
  rewrite rewrite_specs_run.
  destruct (truthy f || truthy d) eqn:Hfd; [|done].
  destruct (tables env !! table_pk) as [t|]; [|done].
  cbn zeta.
  destruct (truthy f), (truthy d);
    repeat match goal with
           | |- context [rewrite_db_function_spec_column_ids_to_names ?e ?m ?s] =>
               destruct (rewrite_db_function_spec_column_ids_to_names e m s)
           end; done.
Qed.

(** X13. A successful [list] looks the table up once in the paginator,
    and once more before that when the filter or the function is truthy:
    the rewriting pass does its own lookup of the same primary key. *)
Theorem list_looks_the_table_up_again env request table_pk response :
  let run := RecordViewSet.list env request table_pk in
  outcome run = Ok response →
  filter is_table_lookup (trace run) =
    if truthy (vd_filter (GET request)) ||
       truthy (vd_db_function (GET request))
    then [get_table_or_404_called table_pk; get_table_or_404_called table_pk]
    else [get_table_or_404_called table_pk].
Proof.
  intros run H. subst run.
  destruct (list_inv _ _ _ _ H)
    as (fp & dp & group_by & t & n & records & Hw & Hg & Ht & Hn & Hr).
  rewrite (list_ok _ _ _ _ _ _ _ _ _ Hw Hg Ht Hn Hr). cbn [trace].
  rewrite filter_app, (rewrite_specs_lookups _ _ _ _ _ Hw).
  unfold paginate_events.
  assert (filter is_table_lookup
            ((if truthy (vd_grouping (GET request))
              then [GroupBy_called (vd_grouping (GET request))] else []) ++
             [get_table_or_404_called table_pk;
              sa_num_records_called (Table_id t) fp dp
                (vd_deduplicate (GET request));
              get_records_called (Table_id t) (get_limit request)
                (get_offset request) fp (vd_order_by (GET request)) group_by
                (vd_duplicate_only (GET request)) dp
                (vd_deduplicate (GET request))] ++
             match records with
             | [] => []
             | _ :: _ => [process_annotated_records_called records]
             end) = [get_table_or_404_called table_pk]) as ->.
  { by destruct (truthy (vd_grouping (GET request))), records. }
  by destruct (_ || _).
Qed.

Lemma list_looks_the_table_up_again_witness :
  let request :=
    Fixtures.request (Integer 1) (Integer 1)
      (Fixtures.params (Fixtures.center_is "Ames") JNull JNull) in
  let page :=
    {| page_count := Some 2; page_grouping := None;
       page_results := [[("id", VInt 3); ("Center", VStr "Ames")]] |} in
  outcome (RecordViewSet.list Fixtures.env request 1)
    = Ok {| status := 200; body := page |} ∧
  filter is_table_lookup (trace (RecordViewSet.list Fixtures.env request 1))
    = [get_table_or_404_called 1; get_table_or_404_called 1].
Proof.
  split; [reflexivity|].
  by apply (list_looks_the_table_up_again Fixtures.env
              (Fixtures.request (Integer 1) (Integer 1)
                 (Fixtures.params (Fixtures.center_is "Ames") JNull JNull))
              1 _ eq_refl).
Defined.

(** ** [ColumnLimitOffsetPagination] *)

(** A slice with bounds that are not negative. *)
Lemma py_slice_take_drop {A : Type} (l : list A) (a n : Z) :
  0 ≤ a → 0 ≤ n →
  py_slice l a (a + n) = take (Z.to_nat n) (drop (Z.to_nat a) l).
Proof.
  intros Ha Hn. unfold py_slice, py_bound.
  destruct (Z.ltb_spec a 0), (Z.ltb_spec (a + n) 0); try lia.
  destruct (Z.le_gt_cases a (Z.of_nat (length l))) as [Hle|Hgt].
  - rewrite (Z.min_l a) by done.
    destruct (Z.le_gt_cases (a + n) (Z.of_nat (length l))).
    + rewrite Z.min_l by done. f_equal. lia.
    + rewrite Z.min_r by lia.
      rewrite !take_ge; [done| |]; rewrite length_drop; lia.
  - rewrite !Z.min_r by lia.
    rewrite !drop_ge by lia. by rewrite !take_nil.
Qed.

(** The column paginator, step by step. *)
Lemma column_paginate_run {Column : Type} (sa_columns : Table → list Column)
    env self request table_id :
  ColumnLimitOffsetPagination.paginate_queryset sa_columns env self request
    table_id =
  match tables env !! table_id with
  | None => mkM [get_table_or_404_called table_id] (Raise NotFound)
  | Some t =>
      mkM [get_table_or_404_called table_id]
        (Ok (take (Z.to_nat (default 0 (get_limit request)))
               (drop (Z.to_nat (get_offset request)) (sa_columns t)),
             {| self_limit := get_limit request;
                self_offset := Some (get_offset request);
                self_count := Some (Z.of_nat (length (sa_columns t)));
                self_grouping := self_grouping self |}))
  end.
Proof.
  unfold ColumnLimitOffsetPagination.paginate_queryset, get_table_or_404, call.
  destruct (tables env !! table_id) as [t|]; [|done].
  rewrite bind_mk.
  assert (Ho : 0 ≤ get_offset request).
  { rewrite get_offset_value. destruct (query_offset request); lia. }
  assert (Hl : ∃ n, get_limit request = Some n ∧ 0 ≤ n).
  { rewrite get_limit_value. eexists; split; [done|].
    destruct (query_limit request) as [| |n]; try lia.
    destruct (Z.ltb_spec 0 n); lia. }
  destruct Hl as (n & Hl & Hn). rewrite Hl. cbn [default from_option]; unfold id.
  rewrite py_slice_take_drop by done. done.
Qed.

(** X14. The column paginator answers with the columns at the positions
    [offset], ..., [offset + limit - 1] of the table, in the order of the
    table, for the parsed limit (between 1 and 500) and offset: at most
    [limit] columns, fewer only when the table ends, and the empty list
    when the offset is at or beyond the end. The count it records is the
    number of all columns of the table, and the lookup of the table is
    its only call. *)
Theorem columns_are_paged_by_position {Column : Type}
    (sa_columns : Table → list Column) env self request table_id t :
  tables env !! table_id = Some t →
  ∃ limit page self',
    ColumnLimitOffsetPagination.paginate_queryset sa_columns env self request
      table_id = mkM [get_table_or_404_called table_id] (Ok (page, self')) ∧
    get_limit request = Some (Z.of_nat limit) ∧ (1 ≤ limit ≤ 500)%nat ∧
    (∀ i, page !! i =
          if decide (i < limit)%nat
          then sa_columns t !! (Z.to_nat (get_offset request) + i)%nat
          else None) ∧
    length page =
      (limit `min` (length (sa_columns t) - Z.to_nat (get_offset request)))%nat ∧
    self_count self' = Some (Z.of_nat (length (sa_columns t))) ∧
    self_limit self' = Some (Z.of_nat limit) ∧
    self_offset self' = Some (get_offset request).
Proof.
  intros Ht. rewrite column_paginate_run, Ht.
  assert (Hl : ∃ n, get_limit request = Some n ∧ 1 ≤ n ≤ 500).
  { rewrite get_limit_value. eexists; split; [done|].
    destruct (query_limit request) as [| |n]; try lia.
    destruct (Z.ltb_spec 0 n); lia. }
  destruct Hl as (n & Hl & Hn). rewrite Hl. cbn [default from_option]; unfold id.
  exists (Z.to_nat n). eexists _, _. split; [done|].
  cbn [self_count self_limit self_offset].
  rewrite Z2Nat.id by lia.
  split_and!; try done; try lia.
  - intros i. destruct (decide (i < Z.to_nat n)%nat).
    + by rewrite lookup_take_lt, lookup_drop.
    + rewrite lookup_take_ge; [done|lia].
  - by rewrite length_take, length_drop.
Qed.

Lemma columns_are_paged_by_position_witness :
  let sa_columns (t : Table) := ["id"; "Center"; "Mission"; "Year"] in
  let request :=
    Fixtures.request (Integer 2) (Integer 3) (Fixtures.params JNull JNull JNull)
  in
  tables Fixtures.env !! 1 = Some (Model.table Fixtures.centers) ∧
  ∃ page self',
    outcome (ColumnLimitOffsetPagination.paginate_queryset sa_columns
               Fixtures.env new_paginator request 1) = Ok (page, self') ∧
    length page = 1%nat ∧ self_count self' = Some 4.
Proof.
  split; [done|].
  destruct (columns_are_paged_by_position
              (λ _ : Table, ["id"; "Center"; "Mission"; "Year"])
              Fixtures.env new_paginator
              (Fixtures.request (Integer 2) (Integer 3)
                 (Fixtures.params JNull JNull JNull))
              1 (Model.table Fixtures.centers) eq_refl)
    as (limit & page & self' & Hrun & Hlimit & _ & _ & Hlen & Hcount & _).
  exists page, self'. rewrite Hrun. split; [done|].
  injection Hlimit as Hlimit.
  assert (limit = 2%nat) as -> by lia.
  by split.
Defined.

(** X15. The column paginator fails in one way only: with [NotFound],
    when the table does not exist. In particular its limit is never
    [None] when the slice is taken. *)
Theorem column_paginator_fails_on_a_missing_table_only {Column : Type}
    (sa_columns : Table → list Column) env self request table_id :
  match outcome (ColumnLimitOffsetPagination.paginate_queryset sa_columns env
                   self request table_id) with
  | Ok (page, self') =>
      is_Some (tables env !! table_id) ∧ is_Some (self_limit self')
  | Raise e => e = NotFound ∧ tables env !! table_id = None
  end.
Proof.
  rewrite column_paginate_run.
  destruct (tables env !! table_id) as [t|] eqn:Ht; cbn [outcome]; [|done].
  split; [done|]. cbn [self_limit]. by rewrite get_limit_value.
Qed.

Lemma column_page_take_drop {Column : Type} (sa_columns : Table → list Column)
    env vd table_id t limit offset :
  tables env !! table_id = Some t →
  1 ≤ limit ≤ 500 → 0 ≤ offset →
  column_page sa_columns env vd table_id limit offset =
    take (Z.to_nat limit) (drop (Z.to_nat offset) (sa_columns t)).
Proof.
  intros Ht Hl Ho. unfold column_page, column_response.
  rewrite column_paginate_run, Ht, bind_mk.
  cbn [outcome mret M_ret get_paginated_response body counted_results].
  rewrite get_limit_value, get_offset_value. cbn [query_limit query_offset].
  destruct (Z.ltb_spec 0 limit); [|lia].
  cbn [default from_option]; unfold id. by rewrite Z.min_l, Z.max_r by lia.
Qed.

(** X16. Consecutive pages tile the columns. With a limit between 1 and
    500, the pages requested at the offsets 0, [limit], 2 [limit], ...
    put one after the other are the first columns of the table, none left
    out and none repeated; enough pages give every column. *)
Theorem column_pages_tile_the_table {Column : Type}
    (sa_columns : Table → list Column) env vd table_id t limit n :
  tables env !! table_id = Some t →
  1 ≤ limit ≤ 500 →
  let pages :=
    (λ k : nat, column_page sa_columns env vd table_id limit
                  (Z.of_nat k * limit)) <$> seq 0 n in
  mjoin pages = take (n * Z.to_nat limit) (sa_columns t) ∧
  ((length (sa_columns t) ≤ n * Z.to_nat limit)%nat →
   mjoin pages = sa_columns t).
Proof.
  intros Ht Hl pages. subst pages.
  assert (Hj : mjoin ((λ k : nat, column_page sa_columns env vd table_id limit
                                    (Z.of_nat k * limit)) <$> seq 0 n)
               = take (n * Z.to_nat limit) (sa_columns t)).
  { induction n as [|n IH]; [done|].
    assert (Hs : ∀ l : list Column, mjoin [l] = l)
      by (intros; simpl; apply app_nil_r).
    rewrite seq_S, fmap_app, join_app, IH. cbn [fmap list_fmap].
    rewrite Hs, (column_page_take_drop _ _ _ _ t) by (try done; lia).
    replace (Z.to_nat (Z.of_nat (0 + n) * limit)) with (n * Z.to_nat limit)%nat
      by lia.
    replace (S n * Z.to_nat limit)%nat with (n * Z.to_nat limit + Z.to_nat limit)%nat
      by lia.
    by rewrite take_take_drop. }
  split; [done|]. intros Hn. rewrite Hj. by apply take_ge.
Qed.

Lemma column_pages_tile_the_table_witness :
  let sa_columns (t : Table) := ["id"; "Center"; "Mission"; "Year"; "Crew"] in
  let vd := Fixtures.params JNull JNull JNull in
  (tables Fixtures.env !! 1 = Some (Model.table Fixtures.centers) ∧
   1 ≤ 2 ≤ 500 ∧
   (length (sa_columns (Model.table Fixtures.centers)) ≤ 3 * Z.to_nat 2)%nat) ∧
  mjoin ((λ k : nat, column_page sa_columns Fixtures.env vd 1 2
                       (Z.of_nat k * 2)) <$> seq 0 3)
    = ["id"; "Center"; "Mission"; "Year"; "Crew"].
Proof.
  split; [split_and!; try done; simpl; lia|].
  apply (proj2 (column_pages_tile_the_table
                  (λ _ : Table, ["id"; "Center"; "Mission"; "Year"; "Crew"])
                  Fixtures.env (Fixtures.params JNull JNull JNull) 1
                  (Model.table Fixtures.centers) 2 3 eq_refl
                  ltac:(lia))).
  simpl. lia.
Defined.

(** ** The views of one record *)

Lemma V_bind_mk {A B : Type} (c : list view_event) (a : A) (f : A → V B) :
  (mkV c (Ok a) ≫= f) = mkV (c ++ calls (f a)) (ending (f a)).
Proof. done. Qed.

(** [retrieve], step by step. *)
Lemma retrieve_run ops env pk table_pk :
  RecordViewSet.retrieve ops env pk table_pk =
  match tables env !! table_pk with
  | None => mkV [table_event (get_table_or_404_called table_pk)] (Raise NotFound)
  | Some t =>
      mkV [table_event (get_table_or_404_called table_pk);
           get_record_called (Table_id t) pk]
        match get_record (ops t) pk with
        | Ok (Some (cell :: cells)) =>
            Ok {| status := 200; body := cell :: cells |}
        | Ok _ => Raise NotFound
        | Raise e => Raise e
        end
  end.
Proof.
  unfold RecordViewSet.retrieve, get_table_or_404, call, lift, invoke.
  cbn [trace outcome fmap list_fmap].
  destruct (tables env !! table_pk) as [t|]; [|done].
  rewrite V_bind_mk. cbn [calls ending].
  by destruct (get_record (ops t) pk) as [[[|cell cells]|]|e].
Qed.

(** X17. A response of [retrieve] has status 200 and carries a record
    with at least one cell, which is what the one lookup of the record in
    the requested table returned. An empty record is not answered with:
    it is reported as [NotFound], like a record that is not there and
    like a table that is not there. *)
Theorem retrieve_answers_with_a_record ops env pk table_pk :
  let run := RecordViewSet.retrieve ops env pk table_pk in
  (∀ response,
     ending run = Ok response ↔
     ∃ t, tables env !! table_pk = Some t ∧
          get_record (ops t) pk = Ok (Some (body response)) ∧
          body response ≠ [] ∧ status response = 200) ∧
  (ending run = Raise NotFound ↔
   tables env !! table_pk = None ∨
   ∃ t, tables env !! table_pk = Some t ∧
        (get_record (ops t) pk = Ok None ∨
         get_record (ops t) pk = Ok (Some []) ∨
         get_record (ops t) pk = Raise NotFound)).
Proof.
  intros run. subst run. rewrite retrieve_run. split.
  - intros [st bd]. cbn [body status].
    destruct (tables env !! table_pk) as [t|]; cbn [ending].
    + destruct (get_record (ops t) pk) as [[[|cell cells]|]|e] eqn:Hg.
      * split; [done|]. intros (t' & [= <-] & Hr & ? & ?). rewrite Hg in Hr. by simplify_eq.
      * split.
        -- intros ?. simplify_eq. by exists t.
        -- intros (t' & [= <-] & Hr & ? & ?). rewrite Hg in Hr. by simplify_eq.
      * split; [done|]. intros (t' & [= <-] & Hr & ? & ?). rewrite Hg in Hr. by simplify_eq.
      * split; [done|]. intros (t' & [= <-] & Hr & ? & ?). rewrite Hg in Hr. by simplify_eq.
    + split; [done|]. intros (t' & ? & _). done.
  - destruct (tables env !! table_pk) as [t|]; cbn [ending].
    + destruct (get_record (ops t) pk) as [[[|cell cells]|]|e] eqn:Hg.
      * split; [|done]. intros _. right. exists t. eauto.
      * split; [done|].
        intros [?|(t' & [= <-] & [Hr|[Hr|Hr]])]; try done; rewrite Hg in Hr; by simplify_eq.
      * split; [|done]. intros _. right. exists t. eauto.
      * split.
        -- intros ?. simplify_eq. right. exists t. eauto.
        -- intros [?|(t' & [= <-] & [Hr|[Hr|Hr]])]; try done; rewrite Hg in Hr; by simplify_eq.
    + split; [by left|done].
Qed.

Lemma retrieve_answers_with_a_record_witness :
  let ops (t : Table) :=
    {| get_record := λ pk,
         Ok (if pk =? 1 then Some [("id", VInt 1)]
             else if pk =? 2 then Some [] else None);
       update_record := λ _ _, Raise NotFound;
       delete_record := λ _, Ok () |} in
  let run pk := RecordViewSet.retrieve ops Fixtures.env pk 1 in
  ending (run 1) = Ok {| status := 200; body := [("id", VInt 1)] |} ∧
  ending (run 2) = Raise NotFound ∧
  ending (run 3) = Raise NotFound.
Proof.
  pose (ops := λ _ : Table,
          {| get_record := λ pk,
               Ok (if pk =? 1 then Some [("id", VInt 1)]
                   else if pk =? 2 then Some [] else None);
             update_record := λ _ _, Raise NotFound;
             delete_record := λ _, Ok () |}).
  split_and!.
  - apply (proj1 (retrieve_answers_with_a_record ops Fixtures.env 1 1)).
    by exists (Model.table Fixtures.centers).
  - apply (proj2 (retrieve_answers_with_a_record ops Fixtures.env 2 1)).
    right. exists (Model.table Fixtures.centers). split; [done|]. by right; left.
  - apply (proj2 (retrieve_answers_with_a_record ops Fixtures.env 3 1)).
    right. exists (Model.table Fixtures.centers). split; [done|]. by left.
Defined.

(** [partial_update] and [destroy], step by step. *)
Lemma partial_update_run ops env request_data pk table_pk :
  RecordViewSet.partial_update ops env request_data pk table_pk =
  match tables env !! table_pk with
  | None => mkV [table_event (get_table_or_404_called table_pk)] (Raise NotFound)
  | Some t =>
      mkV [table_event (get_table_or_404_called table_pk);
           update_record_called (Table_id t) pk request_data]
        match update_record (ops t) pk request_data with
        | Ok record => Ok {| status := 200; body := record |}
        | Raise e => Raise e
        end
  end.
Proof.
  unfold RecordViewSet.partial_update, get_table_or_404, call, lift, invoke.
  cbn [trace outcome fmap list_fmap].
  destruct (tables env !! table_pk) as [t|]; [|done].
  rewrite V_bind_mk. cbn [calls ending].
  by destruct (update_record (ops t) pk request_data).
Qed.

Lemma destroy_run ops env pk table_pk :
  RecordViewSet.destroy ops env pk table_pk =
  match tables env !! table_pk with
  | None => mkV [table_event (get_table_or_404_called table_pk)] (Raise NotFound)
  | Some t =>
      mkV [table_event (get_table_or_404_called table_pk);
           delete_record_called (Table_id t) pk]
        match delete_record (ops t) pk with
        | Ok _ => Ok {| status := 204; body := () |}
        | Raise e => Raise e
        end
  end.
Proof.
  unfold RecordViewSet.destroy, get_table_or_404, call, lift, invoke.
  cbn [trace outcome fmap list_fmap].
  destruct (tables env !! table_pk) as [t|]; [|done].
  rewrite V_bind_mk. cbn [calls ending].
  by destruct (delete_record (ops t) pk).
Qed.

(** X18. [partial_update] and [destroy] have no [except] clause and no
    check of the data. An error of the update or of the deletion leaves
    the view as it is, an [IntegrityError] too, which [create] would turn
    into an API error with status 400; the data of an update is handed to
    the table whatever its shape is. An update that succeeds is answered
    with status 200 and the updated record, a deletion with status 204. *)
Theorem update_and_delete_wrap_nothing ops env request_data pk table_pk t :
  tables env !! table_pk = Some t →
  let update := RecordViewSet.partial_update ops env request_data pk table_pk in
  let delete := RecordViewSet.destroy ops env pk table_pk in
  calls update = [table_event (get_table_or_404_called table_pk);
                  update_record_called (Table_id t) pk request_data] ∧
  (∀ e, update_record (ops t) pk request_data = Raise e →
        ending update = Raise e) ∧
  (∀ record, update_record (ops t) pk request_data = Ok record →
             ending update = Ok {| status := 200; body := record |}) ∧
  (∀ e, delete_record (ops t) pk = Raise e → ending delete = Raise e) ∧
  (delete_record (ops t) pk = Ok () →
   ending delete = Ok {| status := 204; body := () |}).
Proof.
  intros Ht update delete. subst update delete.
  rewrite partial_update_run, destroy_run, Ht. cbn [calls ending].
  split_and!; try done; first [by intros ? -> | by intros ->].
Qed.

Lemma update_and_delete_wrap_nothing_witness :
  let e := IntegrityError (NotNullViolation "Center") in
  let ops (t : Table) :=
    {| get_record := λ _, Ok None;
       update_record := λ _ _, Raise e;
       delete_record := λ _, Ok () |} in
  let t := Model.table Fixtures.centers in
  let data := JList [JDict [("Center", JNull)]] in
  (tables Fixtures.env !! 1 = Some t ∧
   update_record (ops t) 3 data = Raise e ∧
   delete_record (ops t) 3 = Ok ()) ∧
  ending (RecordViewSet.partial_update ops Fixtures.env data 3 1) = Raise e ∧
  ending (RecordViewSet.destroy ops Fixtures.env 3 1)
    = Ok {| status := 204; body := () |}.
Proof.
  pose (ops := λ _ : Table,
          {| get_record := λ _, Ok None;
             update_record := λ _ _,
               Raise (IntegrityError (NotNullViolation "Center"));
             delete_record := λ _, Ok () |}).
  pose proof (update_and_delete_wrap_nothing ops Fixtures.env
                (JList [JDict [("Center", JNull)]]) 3 1
                (Model.table Fixtures.centers) eq_refl)
    as (_ & Hu & _ & _ & Hd).
  split; [by split_and!|]. split.
  - by apply Hu.
  - by apply Hd.
Defined.

(** X19. The three views of one record call the table at most once, and
    only when it exists: when the table is missing no record is read,
    updated or deleted, and otherwise the one call goes to the table that
    was looked up, with the key (and the data) of the request. *)
Theorem record_views_call_the_table_once ops env request_data pk table_pk :
  let expected (call : Z → view_event) :=
    match tables env !! table_pk with
    | Some t => [call (Table_id t)]
    | None => []
    end in
  filter is_record_call
    (calls (RecordViewSet.retrieve ops env pk table_pk))
    = expected (λ table_id, get_record_called table_id pk) ∧
  filter is_record_call
    (calls (RecordViewSet.partial_update ops env request_data pk table_pk))
    = expected (λ table_id, update_record_called table_id pk request_data) ∧
  filter is_record_call
    (calls (RecordViewSet.destroy ops env pk table_pk))
    = expected (λ table_id, delete_record_called table_id pk).
Proof.
  intros expected. subst expected.
  rewrite retrieve_run, partial_update_run, destroy_run.
  by destruct (tables env !! table_pk).
Qed.

(** ** [_get_columns_by_name] *)

Lemma named_app name l1 l2 :
  named name (l1 ++ l2) = (named name l1 ++ named name l2)%list.
Proof. apply filter_app. Qed.

Lemma named_nil name table_columns :
  named name table_columns = [] ↔ name ∉ col_name <$> table_columns.
Proof.
  unfold named. induction table_columns as [|c cs IH]; [by split; [intros _ H; inversion H|]|].
  rewrite filter_cons, fmap_cons, not_elem_of_cons.
  destruct (decide (col_name c = name)) as [<-|Hne].
  - split; [done|]. by intros [? _].
  - rewrite IH. split; [by split|by intros [_ ?]].
Qed.

(** The dictionary holds, under each name that is asked for, the last
    column of that name. *)
Lemma columns_by_name_dict_lookup table_columns name_list name :
  columns_by_name_dict table_columns name_list !! name =
  if decide (name ∈ name_list) then last (named name table_columns) else None.
Proof.
  unfold columns_by_name_dict.
  induction table_columns as [|c cs IH] using rev_ind.
  { cbn [foldl]. rewrite lookup_empty. by destruct (decide _). }
  rewrite foldl_app, named_app. cbn [foldl].
  unfold named at 2. rewrite filter_cons, filter_nil.
  destruct (bool_decide_reflect (col_name c ∈ name_list)) as [Hin|Hnin].
  - destruct (decide (col_name c = name)) as [<-|Hne].
    + rewrite lookup_insert_eq, decide_True by done. by rewrite last_snoc.
    + rewrite lookup_insert_ne by done. by rewrite IH, app_nil_r.
  - rewrite IH. destruct (decide (name ∈ name_list)) as [Hn|]; [|done].
    destruct (decide (col_name c = name)) as [<-|Hne]; [done|].
    by rewrite app_nil_r.
Qed.

Lemma lookup_all_inr d name_list cols :
  lookup_all d name_list = inr cols ↔
  Forall2 (λ name col, d !! name = Some col) name_list cols.
Proof.
  revert cols. induction name_list as [|name names IH]; intros cols.
  - cbn. split.
    + intros [= <-]. constructor.
    + intros H. by inversion H.
  - cbn [lookup_all]. destruct (d !! name) as [col|] eqn:Hd.
    + destruct (lookup_all d names) as [e|cols'] eqn:Hl.
      * split; [done|]. intros H. inversion H; subst.
        by apply IH in H4.
      * split.
        -- intros [= <-]. constructor; [done|]. by apply IH.
        -- intros H. inversion H; subst. apply IH in H4. by simplify_eq.
    + split; [done|]. intros H. inversion H; subst. congruence.
Qed.

Lemma lookup_all_inl d name_list key :
  lookup_all d name_list = inl (KeyError key) ↔
  ∃ found rest,
    name_list = (found ++ key :: rest)%list ∧ d !! key = None ∧
    Forall (λ name, is_Some (d !! name)) found.
Proof.
  induction name_list as [|name names IH].
  - cbn. split; [done|]. intros (found & rest & H & _). by destruct found.
  - cbn [lookup_all]. destruct (d !! name) as [col|] eqn:Hd.
    + destruct (lookup_all d names) as [e|cols'] eqn:Hl.
      * split.
        -- intros [= ->].
           destruct (proj1 IH eq_refl) as (found & rest & -> & Hk & Hf).
           exists (name :: found), rest. split_and!; try done.
           constructor; [by rewrite Hd|done].
        -- intros (found & rest & Hn & Hk & Hf).
           destruct found as [|n found]; simplify_eq/=; try congruence.
           inversion Hf; subst. apply IH. by exists found, rest.
      * split; [done|]. intros (found & rest & Hn & Hk & Hf).
        destruct found as [|n found]; simplify_eq/=; try congruence.
        inversion Hf; subst.
        assert (inr cols' = inl (KeyError key) :> key_error + list dj_column)
          as Habs; [|done].
        apply IH. by exists found, rest.
    + split.
      * intros [= <-]. by exists [], names.
      * intros (found & rest & Hn & Hk & Hf).
        destruct found as [|n found]; simplify_eq/=; try done.
        inversion Hf as [|?? [? Hs]]; subst. congruence.
Qed.

(** X20. When [_get_columns_by_name] returns, it returns one column for
    each entry of [name_list], in the order of [name_list] and as often
    as a name is repeated there; each is a column of the table with that
    name, and among several columns of one name it is the last one. *)
Theorem columns_by_name_follow_the_name_list table_columns name_list cols :
  _get_columns_by_name table_columns name_list = inr cols →
  col_name <$> cols = name_list ∧
  Forall (λ col, col ∈ table_columns) cols ∧
  ∀ i col, cols !! i = Some col →
    ∃ before after,
      table_columns = (before ++ col :: after)%list ∧
      Forall (λ later, col_name later ≠ col_name col) after.
Proof.
  unfold _get_columns_by_name. rewrite lookup_all_inr. intros H.
  assert (Hl : Forall2 (λ name col,
                  last (named name table_columns) = Some col)
                 name_list cols).
  { eapply Forall2_impl; [exact H|]. intros name col. cbn beta.
    rewrite columns_by_name_dict_lookup. by destruct (decide _). }
  clear H.
  assert (Hlast : ∀ name col,
            last (named name table_columns) = Some col →
            col_name col = name ∧
            ∃ before after,
              table_columns = (before ++ col :: after)%list ∧
              Forall (λ later, col_name later ≠ name) after).
  { intros name col Hc. split.
    - apply last_Some in Hc as [l' Hc].
      assert (col ∈ named name table_columns) as Hin.
      { rewrite Hc. apply elem_of_app. right. repeat constructor. }
      apply list_elem_of_filter in Hin as [Hn _]. done.
    - apply last_filter_Some in Hc as (before & after & -> & Hf).
      by exists before, after. }
  split_and!.
  - induction Hl as [|name col names cols' Hc _ IH]; [done|].
    rewrite fmap_cons, IH. f_equal. by apply Hlast.
  - induction Hl as [|name col names cols' Hc _ IH]; constructor; [|done].
    apply Hlast in Hc as (_ & before & after & -> & _).
    apply elem_of_app. right. repeat constructor.
  - intros i col Hi.
    destruct (Forall2_lookup_r _ _ _ _ _ Hl Hi) as (name & _ & Hc).
    apply Hlast in Hc as (<- & before & after & -> & Hf).
    by exists before, after.
Qed.

Lemma columns_by_name_follow_the_name_list_witness :
  let id := {| col_id := 1; col_name := "id" |} in
  let first := {| col_id := 2; col_name := "Center" |} in
  let second := {| col_id := 3; col_name := "Center" |} in
  let table_columns := [first; id; second] in
  let name_list := ["Center"; "id"; "Center"] in
  let cols := [second; id; second] in
  _get_columns_by_name table_columns name_list = inr cols ∧
  col_name <$> cols = name_list.
Proof.
  split; [reflexivity|].
  by apply (columns_by_name_follow_the_name_list
              [{| col_id := 2; col_name := "Center" |};
               {| col_id := 1; col_name := "id" |};
               {| col_id := 3; col_name := "Center" |}]
              ["Center"; "id"; "Center"]).
Defined.

(** X21. [_get_columns_by_name] returns exactly when every entry of
    [name_list] is the name of a column of the table. Otherwise it raises
    a [KeyError], and the key is the first entry of [name_list] that is
    not. *)
Theorem columns_by_name_need_every_name table_columns name_list :
  ((∃ cols, _get_columns_by_name table_columns name_list = inr cols) ↔
   Forall (λ name, name ∈ col_name <$> table_columns) name_list) ∧
  (∀ key,
     _get_columns_by_name table_columns name_list = inl (KeyError key) ↔
     ∃ found rest,
       name_list = (found ++ key :: rest)%list ∧
       (key ∉ col_name <$> table_columns) ∧
       Forall (λ name, name ∈ col_name <$> table_columns) found).
Proof.
  assert (Hkey : ∀ key,
     _get_columns_by_name table_columns name_list = inl (KeyError key) ↔
     ∃ found rest,
       name_list = (found ++ key :: rest)%list ∧
       (key ∉ col_name <$> table_columns) ∧
       Forall (λ name, name ∈ col_name <$> table_columns) found).
  { intros key. unfold _get_columns_by_name. rewrite lookup_all_inl.
    split.
    - intros (found & rest & Hn & Hk & Hf). exists found, rest.
      rewrite columns_by_name_dict_lookup in Hk.
      rewrite decide_True in Hk
        by (rewrite Hn; apply elem_of_app; right; repeat constructor).
      split_and!; [done| |].
      + apply named_nil. by destruct (named key table_columns) using rev_ind;
          [|rewrite last_snoc in Hk].
      + apply Forall_forall. intros name Hin.
        rewrite Forall_forall in Hf. destruct (Hf name Hin) as [col Hc].
        rewrite columns_by_name_dict_lookup in Hc.
        destruct (decide _); [|done].
        destruct (decide (name ∈ col_name <$> table_columns)) as [|Hnot];
          [done|].
        apply named_nil in Hnot. by rewrite Hnot in Hc.
    - intros (found & rest & Hn & Hk & Hf). exists found, rest.
      split_and!; [done| |].
      + rewrite columns_by_name_dict_lookup.
        apply named_nil in Hk. rewrite Hk. by destruct (decide _).
      + apply Forall_forall. intros name Hin.
        rewrite Forall_forall in Hf. specialize (Hf name Hin).
        rewrite columns_by_name_dict_lookup, decide_True
          by (rewrite Hn; apply elem_of_app; by left).
        destruct (named name table_columns) as [|c cs] eqn:Hnamed
          using rev_ind.
        * by apply named_nil in Hnamed.
        * rewrite last_snoc. by eexists. }
  split; [|exact Hkey].
  split.
  - intros [cols Hc]. apply Forall_forall. intros name Hin.
    destruct (decide (name ∈ col_name <$> table_columns)) as [|Hnot]; [done|].
    exfalso.
    (* the first name that is missing would be raised *)
    assert (∃ key, _get_columns_by_name table_columns name_list
                   = inl (KeyError key)) as [key Hk]; [|congruence].
    clear Hc.
    assert (Hex : Exists (λ n, n ∉ col_name <$> table_columns) name_list).
    { apply Exists_exists. by exists name. }
    clear name Hin Hnot.
    assert (∃ found key rest,
              name_list = (found ++ key :: rest)%list ∧
              (key ∉ col_name <$> table_columns) ∧
              Forall (λ name, name ∈ col_name <$> table_columns) found)
      as (found & key & rest & ?).
    { clear -Hex. induction Hex as [n ns Hn|n ns _ IH].
      - by exists [], n, ns.
      - destruct (decide (n ∈ col_name <$> table_columns)) as [Hy|Hno].
        + destruct IH as (found & key & rest & -> & ? & ?).
          exists (n :: found), key, rest. split_and!; try done.
          by constructor.
        + by exists [], n, ns. }
    exists key. apply Hkey. by exists found, rest.
  - intros Hall.
    destruct (_get_columns_by_name table_columns name_list) as [[key]|cols]
      eqn:Hr; [|by exists cols].
    destruct (proj1 (Hkey key) eq_refl) as (found & rest & -> & Hk & _).
    apply Forall_app in Hall as [_ Hall]. by inversion Hall.
Qed.

Lemma columns_by_name_need_every_name_witness :
  let table_columns := [{| col_id := 1; col_name := "id" |};
                        {| col_id := 2; col_name := "Center" |}] in
  let name_list := ["Center"; "Centre"; "Nope"] in
  _get_columns_by_name table_columns name_list = inl (KeyError "Centre") ∧
  ∃ found rest,
    name_list = (found ++ "Centre" :: rest)%list ∧
    ("Centre" ∉ col_name <$> table_columns) ∧
    Forall (λ name, name ∈ col_name <$> table_columns) found.
Proof.
  split; [reflexivity|].
  by apply (proj2 (columns_by_name_need_every_name
                     [{| col_id := 1; col_name := "id" |};
                      {| col_id := 2; col_name := "Center" |}]
                     ["Center"; "Centre"; "Nope"]) "Centre").
Defined.

(** ** The attributes of the paginator after a call *)

Lemma method_bind_run {A B : Type} (m : method A) (f : A → method B) self :
  (m ≫= f) self =
  match ended (m self) with
  | Ok a =>
      mkRun (made (m self) ++ made (f a (attributes (m self))))
        (attributes (f a (attributes (m self))))
        (ended (f a (attributes (m self))))
  | Raise e => mkRun (made (m self)) (attributes (m self)) (Raise e)
  end.
Proof. done. Qed.

(** The base paginator with its attributes, step by step. *)
Lemma method_table_paginate_run env self request table_id filter order_by
    group_by duplicate_only db_function deduplicate :
  Method.TableLimitOffsetPagination.paginate_queryset env request table_id
    filter order_by group_by duplicate_only db_function deduplicate self =
  let parsed := set_offset (get_offset request)
                  (set_limit (get_limit request) self) in
  match tables env !! table_id with
  | None => mkRun [get_table_or_404_called table_id] parsed (Raise NotFound)
  | Some t =>
      match sa_num_records t filter db_function deduplicate with
      | Raise e =>
          mkRun [get_table_or_404_called table_id;
                 sa_num_records_called (Table_id t) filter db_function
                   deduplicate]
            parsed (Raise e)
      | Ok n =>
          mkRun [get_table_or_404_called table_id;
                 sa_num_records_called (Table_id t) filter db_function
                   deduplicate;
                 get_records_called (Table_id t) (get_limit request)
                   (get_offset request) filter order_by group_by
                   duplicate_only db_function deduplicate]
            (set_count n parsed)
            (get_records t (get_limit request) (get_offset request) filter
               order_by group_by duplicate_only db_function deduplicate)
      end
  end.
Proof.
  unfold Method.TableLimitOffsetPagination.paginate_queryset.
  assert (Hl : match get_limit request with
               | Some _ => get_limit request | None => default_limit end
               = get_limit request) by (by rewrite get_limit_value).
  rewrite Hl.
  cbv [mbind method_bind assign perform get_table_or_404 call made
         attributes ended trace outcome].
  destruct (tables env !! table_id) as [t|]; [|done].
  destruct (sa_num_records t filter db_function deduplicate) as [n|e];
    [|done].
  by destruct (get_records t _ _ _ _ _ _ _ _).
Qed.

(** The grouping paginator with its attributes, step by step. *)
Lemma method_group_paginate_run env self request table_id filter order_by
    grouping duplicate_only db_function deduplicate :
  Method.TableLimitOffsetGroupPagination.paginate_queryset env request
    table_id filter order_by grouping duplicate_only db_function deduplicate
    self =
  match requested_group_by env grouping with
  | Raise e => mkRun (grouping_events grouping) self (Raise e)
  | Ok group_by =>
      let base :=
        Method.TableLimitOffsetPagination.paginate_queryset env request
          table_id filter order_by group_by duplicate_only db_function
          deduplicate self in
      match ended base with
      | Raise e =>
          mkRun (grouping_events grouping ++ made base) (attributes base)
            (Raise e)
      | Ok records =>
          mkRun (grouping_events grouping ++ made base ++
                 match records with
                 | [] => []
                 | _ => [process_annotated_records_called records]
                 end)
            (set_grouping (grouping_of env group_by records)
               (attributes base))
            (Ok (processed_of env records))
      end
  end.
Proof.
  unfold Method.TableLimitOffsetGroupPagination.paginate_queryset.
  rewrite group_by_run, method_bind_run. cbn [perform ended made attributes].
  cbn [trace outcome].
  destruct (requested_group_by env grouping) as [group_by|e]; [|done].
  cbn zeta. rewrite method_bind_run.
  destruct (ended (Method.TableLimitOffsetPagination.paginate_queryset _ _ _
                     _ _ _ _ _ _ _)) as [records|e]; [|done].
  cbv [mbind method_bind M_bind mret method_ret M_ret assign perform call
         made attributes ended trace outcome].
  destruct records as [|r records].
  - cbn. rewrite ?app_nil_r. by destruct group_by.
  - destruct (process_annotated_records env (r :: records)) as [rows groups]
      eqn:Hp.
    unfold grouping_of, groups_of, processed_of. rewrite Hp. cbn.
    rewrite ?app_nil_r. by destruct group_by.
Qed.

(** X22. What a call of the grouping paginator leaves in its attributes.
    A call that returns has assigned all four: the limit, the offset, the
    count and the grouping afterwards do not depend on what an earlier
    call left. A call that raises has not assigned the grouping, which is
    still the one of the earlier call; if the error is that of the
    grouping itself, nothing was assigned; otherwise the limit and the
    offset are those of this request, and the count is the earlier one
    unless the count query answered. The calls and the result are those
    of [paginate_queryset] as modelled above. *)
Theorem paginator_attributes_after_a_call env self request table_id filter
    order_by grouping duplicate_only db_function deduplicate :
  let run self :=
    Method.TableLimitOffsetGroupPagination.paginate_queryset env request
      table_id filter order_by grouping duplicate_only db_function
      deduplicate self in
  let returned :=
    TableLimitOffsetGroupPagination.paginate_queryset env self request
      table_id filter order_by grouping duplicate_only db_function
      deduplicate in
  made (run self) = trace returned ∧
  match ended (run self) with
  | Ok processed =>
      outcome returned = Ok (processed, attributes (run self)) ∧
      ∀ self', attributes (run self') = attributes (run self)
  | Raise e =>
      outcome returned = Raise e ∧
      self_grouping (attributes (run self)) = self_grouping self ∧
      match requested_group_by env grouping with
      | Raise _ => attributes (run self) = self
      | Ok _ =>
          self_limit (attributes (run self)) = get_limit request ∧
          self_offset (attributes (run self)) = Some (get_offset request) ∧
          (self_count (attributes (run self)) = self_count self ∨
           ∃ t n,
             tables env !! table_id = Some t ∧
             sa_num_records t filter db_function deduplicate = Ok n ∧
             self_count (attributes (run self)) = Some n)
      end
  end.
Proof.
  intros run returned. subst run returned. cbn beta.
  rewrite group_paginate_run, method_group_paginate_run.
  destruct (requested_group_by env grouping) as [group_by|e] eqn:Hg;
    [|by split_and!].
  cbn zeta. rewrite method_table_paginate_run. cbn zeta.
  destruct (tables env !! table_id) as [t|] eqn:Ht;
    cbn [ended made attributes trace outcome]; [|split_and!; try done; by left].
  destruct (sa_num_records t filter db_function deduplicate) as [n|e] eqn:Hn;
    cbn [ended made attributes trace outcome];
    [|split_and!; try done; by left].
  destruct (get_records t (get_limit request) (get_offset request) filter
              order_by group_by duplicate_only db_function deduplicate)
    as [records|e] eqn:Hr; cbn [ended made attributes trace outcome].
  - split.
    + unfold paginate_events.
      by rewrite (grouping_events_built _ _ _ Hg).
    + split; [done|]. intros self'.
      rewrite method_group_paginate_run, Hg. cbn zeta.
      rewrite method_table_paginate_run, Ht, Hn, Hr. done.
  - split_and!; try done. right. by exists t, n.
Qed.

(** A paginator that is used twice: after a grouped request, a
    request without grouping whose sort field is unknown raises
    [SortFieldNotFound], and the paginator still holds the grouping of the
    first request. *)
Example a_raise_keeps_the_grouping :
  let first :=
    Method.TableLimitOffsetGroupPagination.paginate_queryset Fixtures.env
      (Fixtures.request Absent Absent (Fixtures.params JNull JNull JNull)) 1
      JNull (JList []) Fixtures.by_center JNull JNull false new_paginator in
  let second :=
    Method.TableLimitOffsetGroupPagination.paginate_queryset Fixtures.env
      (Fixtures.request (Integer 2) Absent (Fixtures.params JNull JNull JNull))
      1 JNull
      (JList [JDict [("field", JStr "Centre"); ("direction", JStr "asc")]])
      JNull JNull JNull false (attributes first) in
  ended second = Raise SortFieldNotFound ∧
  self_limit (attributes second) = Some 2 ∧
  self_grouping (attributes second) = self_grouping (attributes first) ∧
  gd_columns <$> self_grouping (attributes second) = Some ["Center"].
Proof. by split_and!. Qed.
